(** * scripts/cve_security_check.py: the CVE correlation engine

    A shallow embedding of [CVEChecker] and of the functions it is made of:
    the finding normaliser, cross-enrichment, de-duplication, the severity
    classifier, fixed-version extraction, CPE resolution, the three query
    operations and the report summary, and of the collectors that read the
    package manifest, the Dockerfile and the submodules.

    Conventions of the embedding.
    - A Python [str] is a [string]; the case conversions and the character
      classes below are the ASCII ones, so the model speaks about ASCII text.
    - A JSON object that the script only reads with [.get] is a record whose
      fields are [option]s: [None] stands for a missing key as well as for a
      JSON [null], which [.get] does not tell apart.  Where the script does
      tell them apart (the ["events"] key of a range, the ["cvss"] key of a
      finding) the model keeps the distinction.
    - The fields hold what the OSV and NVD schemas put there (strings, lists
      of objects); the one place where the script inspects the dynamic type
      of a value, the base score, is modelled with a scalar type.
    - A number is a rational: every Python [int] and every finite [float] is
      one, and Python compares them exactly.
    - A file that the script reads, and the output of a command it runs,
      is an argument of the function that uses it.
    - Code that talks to the network runs in the monad [M]: a log of the
      requests issued so far, and an outcome that is either a value or a
      raised exception. *)

From Stdlib Require Import Ascii QArith Lqa.
From stdpp Require Import base option list sorting gmap strings pretty.

#[local] Set Warnings "-clear-no-such-hyp".

(** ** Python strings *)

Module Py.

(** [bool(x)] of a value that is [None] or a [str]. *)
Definition truthy (o : option string) : bool :=
  match o with
  | Some (String _ _) => true
  | _ => false
  end.

(** [a or b]. *)
Definition or (a b : option string) : option string :=
  if truthy a then a else b.

(** [a or ""], the idiom that turns [None] into the empty string. *)
Definition or_empty (a : option string) : string :=
  match a with
  | Some s => s
  | None => ""
  end.

Definition upper_char (c : ascii) : ascii :=
  let n := N_of_ascii c in
  if ((97 <=? n) && (n <=? 122))%N then ascii_of_N (n - 32) else c.

Definition lower_char (c : ascii) : ascii :=
  let n := N_of_ascii c in
  if ((65 <=? n) && (n <=? 90))%N then ascii_of_N (n + 32) else c.

Fixpoint map_chars (f : ascii -> ascii) (s : string) : string :=
  match s with
  | "" => ""
  | String c s' => String (f c) (map_chars f s')
  end.

(** [s.upper()] and [s.lower()]. *)
Definition upper : string -> string := map_chars upper_char.
Definition lower : string -> string := map_chars lower_char.

(** [s.startswith(p)]. *)
Fixpoint startswith (p s : string) : bool :=
  match p, s with
  | "", _ => true
  | String a p', String b s' => if Ascii.eqb a b then startswith p' s' else false
  | String _ _, "" => false
  end.

(** [p in s] for strings. *)
Fixpoint contains (p s : string) : bool :=
  startswith p s ||
  match s with
  | "" => false
  | String _ s' => contains p s'
  end.

(** [s.split(":")]: never empty, one more field than there are colons. *)
Fixpoint split_colon (s : string) : list string :=
  match s with
  | "" => [""]
  | String c s' =>
      if Ascii.eqb c ":"%char then "" :: split_colon s'
      else match split_colon s' with
           | w :: ws => String c w :: ws
           | [] => [String c ""]
           end
  end.

(** [":".join(l)]. *)
Fixpoint join_colon (l : list string) : string :=
  match l with
  | [] => ""
  | [w] => w
  | w :: ws => w +:+ String ":"%char (join_colon ws)
  end.

(** The characters [str.isspace] accepts below 128; [\s] of [re] and
    [strip()] use the same class. *)
Definition is_space (c : ascii) : bool :=
  let n := N_of_ascii c in
  (((9 <=? n) && (n <=? 13)) || ((28 <=? n) && (n <=? 32)))%N.

Definition is_digit (c : ascii) : bool :=
  let n := N_of_ascii c in
  ((48 <=? n) && (n <=? 57))%N.

Fixpoint lstrip_by (drop : ascii -> bool) (s : string) : string :=
  match s with
  | String c s' => if drop c then lstrip_by drop s' else s
  | "" => ""
  end.

Definition strip_by (drop : ascii -> bool) (s : string) : string :=
  String.rev (lstrip_by drop (String.rev (lstrip_by drop s))).

Definition lstrip : string -> string := lstrip_by is_space.

(** [s.strip()]. *)
Definition strip : string -> string := strip_by is_space.

Fixpoint mem_char (c : ascii) (chars : string) : bool :=
  match chars with
  | "" => false
  | String d chars' => Ascii.eqb c d || mem_char c chars'
  end.

(** [s.strip(chars)]. *)
Definition strip_chars (chars : string) : string -> string :=
  strip_by (fun c => mem_char c chars).

(** [s[len(p):]] when [s.startswith(p)]. *)
Fixpoint strip_prefix (p s : string) : option string :=
  match p, s with
  | "", _ => Some s
  | String a p', String b s' => if Ascii.eqb a b then strip_prefix p' s' else None
  | String _ _, "" => None
  end.

End Py.

(** ** Findings *)

(** The value under ["baseScore"]: the script asks for its dynamic type. *)
Inductive scalar : Type :=
  | SNone
  | SBool (b : bool)
  | SNum (q : Q)
  | SStr (s : string).

(** [isinstance(score, (int, float))]: [bool] is a subclass of [int]. *)
Definition as_number (x : scalar) : option Q :=
  match x with
  | SNum q => Some q
  | SBool true => Some 1%Q
  | SBool false => Some 0%Q
  | _ => None
  end.

(** The ["cvssData"] object of an NVD metric. *)
Record CvssData : Type := mkCvss {
  baseSeverity : option string;
  baseScore : scalar
}.

(** The ["cvss"] key of a finding: not set, set to [None], or set to data. *)
Inductive CvssField : Type :=
  | CvssUnset
  | CvssNull
  | CvssSet (c : CvssData).

(** [v.get("cvss") or {}]. *)
Definition cvss_or_empty (c : CvssField) : CvssData :=
  match c with
  | CvssSet d => d
  | _ => mkCvss None SNone
  end.

Record OsvEvent : Type := mkEvent {
  ev_fixed : option string;
  ev_limit : option string
}.

(** ["events"] of a range: [None] when the key is missing. *)
Record OsvRange : Type := mkRange {
  rg_events : option (list OsvEvent)
}.

Record OsvAffected : Type := mkAffected {
  aff_ranges : list OsvRange
}.

Record Finding : Type := mkFinding {
  f_source : option string;
  f_id : option string;
  f_package : option string;
  f_ecosystem : option string;
  f_version : option string;
  f_summary : option string;
  f_severity : option string;
  f_cvss : CvssField;
  f_references : list (option string);
  f_aliases : list string;
  f_affected : list OsvAffected
}.

(** ** Severity classifier *)

(** [_sev_order]. *)
Definition _sev_order (sev : option string) : Z :=
  let s := Py.upper (Py.or_empty sev) in
  if String.eqb s "LOW" then 0
  else if String.eqb s "MEDIUM" then 1
  else if String.eqb s "HIGH" then 2
  else if String.eqb s "CRITICAL" then 3
  else (-1).

(** The label the aggregation reads off a finding:
    [v.get("severity") or (v.get("cvss") or {}).get("baseSeverity") or "UNKNOWN"],
    upper-cased. *)
Definition group_label (v : Finding) : string :=
  Py.upper
    (Py.or_empty
       (Py.or (f_severity v)
          (Py.or (baseSeverity (cvss_or_empty (f_cvss v))) (Some "UNKNOWN")))).

(** One turn of the loop of [_highest_severity] on the pair
    [(best, best_score)]. *)
Definition highest_step (acc : string * Z) (v : Finding) : string * Z :=
  let sev := group_label v in
  let s := _sev_order (Some sev) in
  if (snd acc <? s)%Z then (sev, s) else acc.

(** [_highest_severity]. *)
Definition _highest_severity (vulns_for_pkg : list Finding) : string :=
  fst (fold_left highest_step vulns_for_pkg ("UNKNOWN", (-1)%Z)).

(** [_severity_of]. *)
Definition _severity_of (v : Finding) : string :=
  let sev := Py.upper (Py.or_empty (f_severity v)) in
  if Py.truthy (Some sev) then sev
  else
    let cvss := cvss_or_empty (f_cvss v) in
    let base_sev := Py.upper (Py.or_empty (baseSeverity cvss)) in
    if Py.truthy (Some base_sev) then base_sev
    else
      match as_number (baseScore cvss) with
      | Some score =>
          if Qle_bool 9 score then "CRITICAL"
          else if Qle_bool 7 score then "HIGH"
          else if Qle_bool 4 score then "MEDIUM"
          else "LOW"
      | None => "UNKNOWN"
      end.

(** ** De-duplication *)

(** What [_dedupe_findings] puts in [seen]: the id, a [str], or the tuple
    [(source, package, version, summary)].  A [str] never equals a tuple. *)
Definition ident_key : Type :=
  string + (option string * option string * option string * option string).

(** [it.get("id") or (it.get("source"), it.get("package"), it.get("version"),
    it.get("summary"))]. *)
Definition identity_key (it : Finding) : ident_key :=
  match f_id it with
  | Some (String c s) => inl (String c s)
  | _ => inr (f_source it, f_package it, f_version it, f_summary it)
  end.

(** One turn of the loop on the pair [(seen, out)]. *)
Definition dedupe_step (st : gset ident_key * list Finding) (it : Finding)
  : gset ident_key * list Finding :=
  let key := identity_key it in
  if decide (key ∈ st.1) then st
  else ({[ key ]} ∪ st.1, st.2 ++ [it]).

(** [_dedupe_findings]. *)
Definition _dedupe_findings (items : list Finding) : list Finding :=
  (fold_left dedupe_step items (∅, [])).2.

(** ** Responses of the two services *)

(** An entry of a vulnerability's ["severity"] list; the script reads its
    ["severity"] key. *)
Record OsvSeverity : Type := mkSeverity {
  sv_severity : option string
}.

(** An entry of a ["references"] list; the script reads its ["url"] key. *)
Record Reference : Type := mkReference {
  ref_url : option string
}.

Record OsvVuln : Type := mkVuln {
  vuln_id : option string;
  vuln_summary : option string;
  vuln_severity : list OsvSeverity;
  vuln_references : list Reference;
  vuln_aliases : list string;
  vuln_affected : list OsvAffected
}.

Record OsvPackage : Type := mkPackage {
  pkg_name : option string;
  pkg_ecosystem : option string
}.

(** One element of the positional ["results"] array of a [querybatch]. *)
Record OsvResult : Type := mkResult {
  res_package : OsvPackage;
  res_version : option string;
  res_vulns : list OsvVuln
}.

Record OsvBatchResp : Type := mkBatchResp {
  results : list OsvResult
}.

Record NvdMetric : Type := mkMetric {
  cvssData : option CvssData
}.

(** ["metrics"] of a CVE: the two keys the script looks at, [[]] when the
    key is missing. *)
Record NvdMetrics : Type := mkMetrics {
  cvssMetricV31 : list NvdMetric;
  cvssMetricV30 : list NvdMetric
}.

Record NvdDescription : Type := mkDescription {
  desc_value : option string
}.

Record NvdCve : Type := mkCve {
  cve_id : option string;
  cve_metrics : NvdMetrics;
  cve_descriptions : list NvdDescription;
  cve_references : list Reference
}.

Record NvdItem : Type := mkItem {
  item_cve : NvdCve
}.

Record NvdResponse : Type := mkNvdResp {
  nvd_vulnerabilities : list NvdItem
}.

(** A product of the CPE search: [item.get("cpe", {}).get("cpeName")]. *)
Record CpeProduct : Type := mkProduct {
  cpeName : option string
}.

(** A query of a [querybatch]: a package at a version, or a commit. *)
Inductive OsvQuery : Type :=
  | QPackage (name ecosystem version : string)
  | QCommit (commit : string).

(** ** The network monad *)

(** The four requests the script can issue. *)
Inductive Request : Type :=
  | PostQueryBatch (queries : list OsvQuery)
  | GetCpeSearch (keyword : string)
  | GetCvesByCpe (cpe : string)
  | GetCveById (cve : string).

Definition Log : Type := list Request.

(** What the outside world answers, given everything requested so far;
    [None] is a request that raises (time-out, HTTP error, body that is not
    JSON). *)
Record Network : Type := mkNetwork {
  osv_querybatch : Log -> list OsvQuery -> option OsvBatchResp;
  nvd_cpe_search : Log -> string -> option (list CpeProduct);
  nvd_cves_by_cpe : Log -> string -> option NvdResponse;
  nvd_cve_by_id : Log -> string -> option NvdResponse
}.

(** A computation: from the log so far to an outcome ([None]: an exception
    is propagating) and the log extended with the requests it issued. *)
Definition M (A : Type) : Type := Log -> option A * Log.

Global Instance M_ret : MRet M := λ A (a : A) log, (Some a, log).

Global Instance M_bind : MBind M := λ A B (k : A -> M B) (m : M A) log,
  match m log with
  | (Some a, log') => k a log'
  | (None, log') => (None, log')
  end.

Global Instance M_fmap : FMap M := λ A B (f : A -> B) (m : M A),
  m ≫= λ a, mret (f a).

(** [try: body except Exception: handler]. *)
Definition try_except {A} (body handler : M A) : M A := λ log,
  match body log with
  | (Some a, log') => (Some a, log')
  | (None, log') => handler log'
  end.

(** Issue a request: it is logged, then answered or failed by the world. *)
Definition request {A} (r : Request) (answer : Log -> option A) : M A :=
  λ log, (answer log, log ++ [r]).

(** A call that issues no request and returns, or raises when [None]. *)
Definition pure_call {A} (outcome : option A) : M A := λ log, (outcome, log).

(** [for x in xs: acc = body(acc, x)], possibly raising on the way. *)
Fixpoint for_each {A S} (xs : list A) (body : S -> A -> M S) (acc : S) : M S :=
  match xs with
  | [] => mret acc
  | x :: xs' => acc' ← body acc x; for_each xs' body acc'
  end.

(** ** Finding normaliser *)

(** The inner loop of [_osv_results_to_findings]:
    [sev = None; for sv in v.get("severity") or []: sev = sv.get("severity") or sev]. *)
Definition osv_severity (entries : list OsvSeverity) : option string :=
  fold_left (λ sev sv, Py.or (sv_severity sv) sev) entries None.

(** The finding emitted for vulnerability [v] of a result attributed to
    [(pkg_name, eco, ver)]. *)
Definition osv_finding (pkg_name eco ver : option string) (v : OsvVuln) : Finding :=
  {| f_source := Some "OSV";
     f_id := vuln_id v;
     f_package := pkg_name;
     f_ecosystem := eco;
     f_version := ver;
     f_summary := vuln_summary v;
     f_severity := osv_severity (vuln_severity v);
     f_cvss := CvssUnset;
     f_references := ref_url <$> vuln_references v;
     f_aliases := vuln_aliases v;
     f_affected := vuln_affected v |}.

(** The attribution of result [idx]: the tuple of [meta] at that position
    when there is one and it names a package, else the package embedded in
    the result. *)
Definition osv_attribution (meta : list (string * string * string))
    (idx : nat) (res : OsvResult) : option string * option string * option string :=
  let from_meta :=
    match meta !! idx with
    | Some (n, e, v) => (Some n, Some e, Some v)
    | None => (None, None, None)
    end in
  if Py.truthy from_meta.1.1 then from_meta
  else (pkg_name (res_package res), pkg_ecosystem (res_package res), res_version res).

(** The findings of result [idx]. *)
Definition osv_result_findings (meta : list (string * string * string))
    (idx : nat) (res : OsvResult) : list Finding :=
  let '(pkg_name, eco, ver) := osv_attribution meta idx res in
  osv_finding pkg_name eco ver <$> res_vulns res.

(** [_osv_results_to_findings]; a missing [meta] is the empty list. *)
Definition _osv_results_to_findings (osv_batch_resp : OsvBatchResp)
    (meta : list (string * string * string)) : list Finding :=
  mjoin (imap (osv_result_findings meta) (results osv_batch_resp)).

(** [_nvd_results_to_findings]. *)
Definition nvd_cvss (metrics : NvdMetrics) : CvssField :=
  match cvssMetricV31 metrics, cvssMetricV30 metrics with
  | m :: _, _ => from_option CvssSet CvssNull (cvssData m)
  | [], m :: _ => from_option CvssSet CvssNull (cvssData m)
  | [], [] => CvssNull
  end.

Definition nvd_finding (package version : string) (item : NvdItem) : Finding :=
  let cve := item_cve item in
  {| f_source := Some "NVD";
     f_id := cve_id cve;
     f_package := Some package;
     f_ecosystem := None;
     f_version := Some version;
     f_summary := match cve_descriptions cve with
                  | d :: _ => desc_value d
                  | [] => None
                  end;
     f_severity := None;
     f_cvss := nvd_cvss (cve_metrics cve);
     f_references := ref_url <$> cve_references cve;
     f_aliases := [];
     f_affected := [] |}.

Definition _nvd_results_to_findings (nvd_resp : NvdResponse)
    (package version : string) : list Finding :=
  nvd_finding package version <$> nvd_vulnerabilities nvd_resp.

(** ** The dependency inventory *)

(** The value of a dependency in [self.dependencies]: the keys the queries
    read. *)
Record DepInfo : Type := mkDep {
  dep_version : option string;
  dep_commit : option string
}.

(** A package of a build stage: [{"name": ..., "version": ...}]. *)
Record StagePackage : Type := mkStagePackage {
  p_name : option string;
  p_version : option string
}.

(** An entry of [dependencies["system_by_stage"]]. *)
Record Stage : Type := mkStage {
  st_stage : string;
  st_ecosystem : option string;
  st_apt : list StagePackage;
  st_apk : list StagePackage
}.

(** [self.dependencies]; a [dict] keeps its insertion order, hence the
    association lists. *)
Record Dependencies : Type := mkDependencies {
  conan : list (string * DepInfo);
  system : list (string * DepInfo);
  submodules : list (string * DepInfo);
  system_by_stage : list Stage
}.

(** The attributes of a [CVEChecker] the engine reads and writes. *)
Record CVEChecker : Type := mkChecker {
  offline : bool;
  ecosystem : option string;
  dependencies : Dependencies;
  vulnerabilities : list Finding
}.

(** ** Identifier mapper *)

(** [_clean_version]:
    [re.sub(r"\s*\(installed\)\s*$", "", ver or "").strip()].  The pattern
    matches when the text ends, white space apart, with ["(installed)"]; the
    match then starts at the white space before it. *)
Definition _clean_version (ver : option string) : string :=
  let s := Py.or_empty ver in
  Py.strip
    match Py.strip_prefix ")dellatsni(" (Py.lstrip (String.rev s)) with
    | Some rest => String.rev rest
    | None => s
    end.

(** [ver in ("system", "required", "unknown")]. *)
Definition is_placeholder (ver : string) : bool :=
  bool_decide (ver = "system") || bool_decide (ver = "required")
  || bool_decide (ver = "unknown").

Definition ubuntu_pkg_to_osv_query (name version : string) : OsvQuery :=
  QPackage name "Ubuntu" version.

Definition debian_pkg_to_osv_query (name version : string) : OsvQuery :=
  QPackage name "Debian" version.

Section engine.

Context (net : Network).

(** [OSVClient.query_batch]: no request for an empty list. *)
Definition query_batch (packages : list OsvQuery) : M OsvBatchResp :=
  match packages with
  | [] => mret (mkBatchResp [])
  | _ => request (PostQueryBatch packages) (λ log, osv_querybatch net log packages)
  end.

(** [NVDClient.find_cpe_candidates]. *)
Definition find_cpe_candidates (keyword : string) : M (list CpeProduct) :=
  request (GetCpeSearch keyword) (λ log, nvd_cpe_search net log keyword).

(** [NVDClient.cves_by_cpe]. *)
Definition cves_by_cpe (cpe_name : string) : M NvdResponse :=
  request (GetCvesByCpe cpe_name) (λ log, nvd_cves_by_cpe net log cpe_name).

(** [self.nvd.session.get(CVE_URL, params={"cveId": ...}).json()]. *)
Definition cve_by_id (cve : string) : M NvdResponse :=
  request (GetCveById cve) (λ log, nvd_cve_by_id net log cve).

(** The test on the fields of a candidate in [guess_cpe_for_conan]. *)
Definition cpe_matches (name_l : string) (parts : list string) : bool :=
  bool_decide (5 ≤ length parts)
  && bool_decide (parts !! 2 = Some "a")
  && (bool_decide (Py.lower <$> parts !! 3 = Some name_l)
      || bool_decide (Py.lower <$> parts !! 4 = Some name_l)
      || from_option (Py.contains name_l) false (Py.lower <$> parts !! 4)).

(** The loop over the candidates: the fields of the first one that has a
    name and passes the test. *)
Fixpoint cpe_best (name_l : string) (candidates : list CpeProduct)
  : option (list string) :=
  match candidates with
  | [] => None
  | item :: rest =>
      match cpeName item with
      | Some (String c s) =>
          let parts := Py.split_colon (String c s) in
          if cpe_matches name_l parts then Some parts else cpe_best name_l rest
      | _ => cpe_best name_l rest
      end
  end.

(** [best += ["*"] * (13 - len(best)); best[5] = version or "*";
    return ":".join(best[:13])]. *)
Definition cpe_inject (best : list string) (version : string) : string :=
  let padded := best ++ replicate (13 - length best) "*" in
  let injected := <[5 := if bool_decide (version = "") then "*" else version]> padded in
  Py.join_colon (take 13 injected).

(** [guess_cpe_for_conan]. *)
Definition guess_cpe_for_conan (name version : string) : M (option string) :=
  candidates ← try_except (Some <$> find_cpe_candidates name) (mret None);
  match candidates with
  | None => mret None
  | Some candidates =>
      match cpe_best (Py.lower name) candidates with
      | None | Some [] => mret None
      | Some best => mret (Some (cpe_inject best version))
      end
  end.

(** ** Query orchestrator *)

(** The query and the attribution tuple of an apt package of a stage. *)
Definition apt_query (stage eco : string) (p : StagePackage)
  : option (OsvQuery * (string * string * string)) :=
  let name := Py.or_empty (p_name p) in
  let ver := _clean_version (p_version p) in
  if bool_decide (name = "") || bool_decide (ver = "") || is_placeholder ver
  then None
  else if bool_decide (eco = "Ubuntu")
  then Some (ubuntu_pkg_to_osv_query name ver, (stage +:+ "::" +:+ name, eco, ver))
  else if bool_decide (eco = "Debian")
  then Some (debian_pkg_to_osv_query name ver, (stage +:+ "::" +:+ name, eco, ver))
  else None.

(** The query and the attribution tuple of an apk package of a stage. *)
Definition apk_query (stage eco : string) (p : StagePackage)
  : option (OsvQuery * (string * string * string)) :=
  if negb (bool_decide (eco = "Alpine")) then None
  else
    let name := Py.or_empty (p_name p) in
    let ver := Py.or_empty (p_version p) in
    if bool_decide (name = "") || bool_decide (ver = "")
       || bool_decide (ver = "unknown")
    then None
    else Some (QPackage name "Alpine" ver, (stage +:+ "::" +:+ name, "Alpine", ver)).

(** The body of the loop over the stages. *)
Definition query_stage (findings : list Finding) (st : Stage) : M (list Finding) :=
  match st_ecosystem st with
  | Some eco =>
      if bool_decide (eco = "Ubuntu") || bool_decide (eco = "Debian")
         || bool_decide (eco = "Alpine")
      then
        let entries := omap (apt_query (st_stage st) eco) (st_apt st)
                       ++ omap (apk_query (st_stage st) eco) (st_apk st) in
        let queries := entries.*1 in
        let meta := entries.*2 in
        match queries with
        | [] => mret findings
        | _ =>
            try_except
              (resp ← query_batch queries;
               mret (findings ++ _osv_results_to_findings resp meta))
              (mret findings)
        end
      else mret findings
  | None => mret findings
  end.

(** The query and the attribution tuple of a system package when there are
    no stages. *)
Definition system_query (eco : string) (entry : string * DepInfo)
  : option (OsvQuery * (string * string * string)) :=
  let '(pkg, info) := entry in
  let ver := _clean_version (dep_version info) in
  if bool_decide (ver = "") || is_placeholder ver then None
  else if bool_decide (eco = "Ubuntu")
  then Some (ubuntu_pkg_to_osv_query pkg ver, (pkg, "Ubuntu", ver))
  else if bool_decide (eco = "Debian")
  then Some (debian_pkg_to_osv_query pkg ver, (pkg, "Debian", ver))
  else None.

(** [_query_osv_for_system]. *)
Definition _query_osv_for_system (self : CVEChecker) : M (list Finding) :=
  if offline self then mret []
  else
    match system_by_stage (dependencies self) with
    | _ :: _ => for_each (system_by_stage (dependencies self)) query_stage []
    | [] =>
        match ecosystem self with
        | Some (String c s) =>
            let entries := omap (system_query (String c s)) (system (dependencies self)) in
            match entries.*1 with
            | [] => mret []
            | queries =>
                resp ← query_batch queries;
                mret (_osv_results_to_findings resp entries.*2)
            end
        | _ => mret []
        end
    end.

(** [(info.get("commit") or "").strip("-+ ")], kept when not empty. *)
Definition commit_query (entry : string * DepInfo) : option OsvQuery :=
  let commit := Py.strip_chars "-+ " (Py.or_empty (dep_commit entry.2)) in
  if bool_decide (commit = "") then None else Some (QCommit commit).

(** [_query_osv_for_submodules]. *)
Definition _query_osv_for_submodules (self : CVEChecker) : M (list Finding) :=
  if offline self then mret []
  else
    match omap commit_query (submodules (dependencies self)) with
    | [] => mret []
    | queries =>
        resp ← query_batch queries;
        mret (_osv_results_to_findings resp [])
    end.

(** The body of the loop of [_query_nvd_for_conan]. *)
Definition query_conan (findings : list Finding) (entry : string * DepInfo)
  : M (list Finding) :=
  let '(name, info) := entry in
  let ver := _clean_version (dep_version info) in
  if bool_decide (ver = "") || bool_decide (Py.lower ver = "unknown")
  then mret findings
  else
    cpe ← guess_cpe_for_conan name ver;
    match cpe with
    | Some (String c s) =>
        data ← cves_by_cpe (String c s);
        mret (findings ++ _nvd_results_to_findings data name ver)
    | _ => mret findings
    end.

(** [_query_nvd_for_conan]. *)
Definition _query_nvd_for_conan (self : CVEChecker) : M (list Finding) :=
  if offline self then mret []
  else for_each (conan (dependencies self)) query_conan [].

(** ** Cross-enrichment *)

(** A text without its final new-line, if it has one: where [$] may match. *)
Fixpoint chop_newline (s : string) : string :=
  match s with
  | "" => ""
  | String c "" => if Ascii.eqb c "010"%char then "" else s
  | String c s' => String c (chop_newline s')
  end.

(** [s] when it starts with [n] digits, without them. *)
Fixpoint take_digits (n : nat) (s : string) : option string :=
  match n, s with
  | O, _ => Some s
  | S n', String c s' => if Py.is_digit c then take_digits n' s' else None
  | S _, "" => None
  end.

Fixpoint all_digits (s : string) : bool :=
  match s with
  | "" => true
  | String c s' => Py.is_digit c && all_digits s'
  end.

(** [re.match(r"UBUNTU-CVE-(\d{4}-\d+)$", fid)]: the group when it
    matches. *)
Definition ubuntu_cve_match (fid : string) : option string :=
  rest ← Py.strip_prefix "UBUNTU-CVE-" fid;
  let group := chop_newline rest in
  after_year ← take_digits 4 group;
  number ← Py.strip_prefix "-" after_year;
  if negb (bool_decide (number = "")) && all_digits number
  then Some group else None.

(** The list [cve_ids] that the loop body computes for a finding. *)
Definition cve_ids_of (f : Finding) : list string :=
  match filter (λ a, Py.startswith "CVE-" a = true) (f_aliases f) with
  | a :: ids => a :: ids
  | [] =>
      let fid := Py.or_empty (f_id f) in
      match ubuntu_cve_match fid with
      | Some group => ["CVE-" +:+ group]
      | None => if Py.startswith "CVE-" fid then [fid] else []
      end
  end.

(** [f["cvss"] = c]. *)
Definition set_cvss (f : Finding) (c : CvssField) : Finding :=
  {| f_source := f_source f;
     f_id := f_id f;
     f_package := f_package f;
     f_ecosystem := f_ecosystem f;
     f_version := f_version f;
     f_summary := f_summary f;
     f_severity := f_severity f;
     f_cvss := c;
     f_references := f_references f;
     f_aliases := f_aliases f;
     f_affected := f_affected f |}.

(** What the [try] block does to [f] with the answer [data]. *)
Definition apply_cve_metrics (f : Finding) (data : NvdResponse) : Finding :=
  match nvd_vulnerabilities data with
  | [] => f
  | item :: _ =>
      let metrics := cve_metrics (item_cve item) in
      match cvssMetricV31 metrics, cvssMetricV30 metrics with
      | m :: _, _ => set_cvss f (from_option CvssSet CvssNull (cvssData m))
      | [], m :: _ => set_cvss f (from_option CvssSet CvssNull (cvssData m))
      | [], [] => f
      end
  end.

(** The body of the loop of [_enrich_osv_with_nvd] for one finding. *)
Definition enrich_one (f : Finding) : M Finding :=
  if negb (bool_decide (f_source f = Some "OSV")) || Py.truthy (f_severity f)
  then mret f
  else
    match cve_ids_of f with
    | [] => mret f
    | cve :: _ =>
        try_except
          (data ← cve_by_id cve; mret (apply_cve_metrics f data))
          (mret f)
    end.

(** [_enrich_osv_with_nvd]: the findings are updated in place, here the
    updated list is returned. *)
Fixpoint _enrich_osv_with_nvd (items : list Finding) : M (list Finding) :=
  match items with
  | [] => mret []
  | f :: rest =>
      f' ← enrich_one f;
      rest' ← _enrich_osv_with_nvd rest;
      mret (f' :: rest')
  end.

(** ** The pipeline *)

(** [try: findings.extend(query()) except Exception: print(...)]. *)
Definition extend_or_skip (findings : list Finding) (query : M (list Finding))
  : M (list Finding) :=
  try_except (found ← query; mret (findings ++ found)) (mret findings).

Definition with_vulnerabilities (self : CVEChecker) (vs : list Finding) : CVEChecker :=
  {| offline := offline self;
     ecosystem := ecosystem self;
     dependencies := dependencies self;
     vulnerabilities := vs |}.

(** [_check_vulnerabilities]. *)
Definition _check_vulnerabilities (self : CVEChecker) : M CVEChecker :=
  findings ← extend_or_skip [] (_query_osv_for_system self);
  findings ← extend_or_skip findings (_query_osv_for_submodules self);
  findings ← extend_or_skip findings (_query_nvd_for_conan self);
  findings ← _enrich_osv_with_nvd findings;
  mret (with_vulnerabilities self (_dedupe_findings findings)).

End engine.

(** ** Fixed versions *)

(** [fixed.add(x)] when [x] is a non-empty text. *)
Definition add_if_truthy (x : option string) (fixed : gset string) : gset string :=
  match x with
  | Some (String c s) => {[ String c s ]} ∪ fixed
  | _ => fixed
  end.

(** The body of the loop over the ranges.  [r.get("events", [{}])[-1]] is
    the empty object when the key is missing and raises [IndexError] when
    the list is there and empty. *)
Definition range_fixed (fixed : gset string) (r : OsvRange) : option (gset string) :=
  let events := default [] (rg_events r) in
  let fixed := foldl (λ acc ev, add_if_truthy (ev_fixed ev) acc) fixed events in
  match rg_events r with
  | None => Some fixed
  | Some events =>
      match last events with
      | Some ev => Some (add_if_truthy (ev_limit ev) fixed)
      | None => None
      end
  end.

(** A loop whose body may raise. *)
Fixpoint foldM {A S} (body : S -> A -> option S) (acc : S) (xs : list A) : option S :=
  match xs with
  | [] => Some acc
  | x :: xs' => acc' ← body acc x; foldM body acc' xs'
  end.

(** [_osv_fixed_versions]; [None] when it raises. *)
Definition _osv_fixed_versions (v : Finding) : option (list string) :=
  fixed ← foldM (λ acc aff, foldM range_fixed acc (aff_ranges aff)) ∅ (f_affected v);
  Some (merge_sort String.le (elements fixed)).

(** ** Report *)

Record Summary : Type := mkSummary {
  vulnerabilities_found : nat;
  critical_count : nat;
  high_count : nat;
  medium_count : nat;
  low_count : nat
}.

(** What a per-package recommendation is computed from: the package, the
    priority and the fixed-version candidates.  Its texts are left out. *)
Record PackageRecommendation : Type := mkRecommendation {
  rec_package : string;
  rec_priority : string;
  rec_fixed_candidates : list string
}.

(** The report, without its time stamp, its copy of the inventory and the
    recommendations that are computed from the files of the project. *)
Record Report : Type := mkReport {
  summary : Summary;
  report_vulnerabilities : list Finding;
  package_recommendations : list PackageRecommendation
}.

(** One turn of the counting loop of [_generate_report] on
    [(crit, high, med, low)]. *)
Definition count_step (c : nat * nat * nat * nat) (v : Finding) : nat * nat * nat * nat :=
  let '(crit, high, med, low) := c in
  let s := _severity_of v in
  if bool_decide (s = "CRITICAL") then (S crit, high, med, low)
  else if bool_decide (s = "HIGH") then (crit, S high, med, low)
  else if bool_decide (s = "MEDIUM") then (crit, high, S med, low)
  else if bool_decide (s = "LOW") then (crit, high, med, S low)
  else c.

(** [v.get("package") or "unknown"]. *)
Definition package_of (v : Finding) : string :=
  Py.or_empty (Py.or (f_package v) (Some "unknown")).

(** [{"CRITICAL": "CRITICAL", "HIGH": "HIGH", "MEDIUM": "MEDIUM"}.get(sev, "LOW")]. *)
Definition priority_of (sev : string) : string :=
  if bool_decide (sev = "CRITICAL") then "CRITICAL"
  else if bool_decide (sev = "HIGH") then "HIGH"
  else if bool_decide (sev = "MEDIUM") then "MEDIUM"
  else "LOW".

(** The candidates of a group: the fixed versions of its OSV findings, as a
    sorted set without ["*"]. *)
Definition fixed_candidates (vulns : list Finding) : option (list string) :=
  found ← foldM (λ acc v,
                   if bool_decide (f_source v = Some "OSV")
                   then fixed ← _osv_fixed_versions v; Some (acc ++ fixed)
                   else Some acc) [] vulns;
  Some (merge_sort String.le
          (elements (list_to_set (filter (λ f, f ≠ "*" ∧ f ≠ "") found) : gset string))).

(** The per-package part of [_generate_recommendations]: the groups in the
    order of their package names. *)
Definition package_recommendation (vulnerabilities : list Finding) (pkg : string)
  : option PackageRecommendation :=
  let vulns := filter (λ v, package_of v = pkg) vulnerabilities in
  candidates ← fixed_candidates vulns;
  Some (mkRecommendation pkg (priority_of (_highest_severity vulns)) candidates).

Definition _generate_recommendations (self : CVEChecker)
  : option (list PackageRecommendation) :=
  let pkgs := merge_sort String.le
                (elements (list_to_set (package_of <$> vulnerabilities self) : gset string)) in
  mapM (package_recommendation (vulnerabilities self)) pkgs.

(** [_generate_report]; [None] when the recommendations raise. *)
Definition _generate_report (self : CVEChecker) : option Report :=
  let '(crit, high, med, low) :=
    fold_left count_step (vulnerabilities self) (0, 0, 0, 0) in
  recs ← _generate_recommendations self;
  Some {| summary := {| vulnerabilities_found := length (vulnerabilities self);
                        critical_count := crit;
                        high_count := high;
                        medium_count := med;
                        low_count := low |};
          report_vulnerabilities := vulnerabilities self;
          package_recommendations := recs |}.

(** [run_security_check], from the collected inventory on. *)
Definition run_security_check (net : Network) (self : CVEChecker) : M Report :=
  self' ← _check_vulnerabilities net self;
  pure_call (_generate_report self').

(** ** Reading the severity list in words *)

(** An entry provides a severity when its value is a non-empty text. *)
Definition provides (sv : OsvSeverity) : Prop := Py.truthy (sv_severity sv) = true.

Global Instance provides_dec sv : Decision (provides sv).
Proof. unfold provides. apply _. Defined.

(** The value of the first entry that provides one. *)
Definition first_provided (entries : list OsvSeverity) : option string :=
  match list_find provides entries with
  | Some (_, sv) => sv_severity sv
  | None => None
  end.

(** The value of the last entry that provides one. *)
Definition last_provided (entries : list OsvSeverity) : option string :=
  first_provided (reverse entries).

(** ** Sample data *)

Definition sev_high_then_low : list OsvSeverity :=
  [mkSeverity (Some "HIGH"); mkSeverity (Some "LOW")].

Definition vuln_two_severities : OsvVuln :=
  mkVuln (Some "OSV-2024-1") (Some "overflow") sev_high_then_low [] [] [].

Definition resp_two_severities : OsvBatchResp :=
  mkBatchResp [mkResult (mkPackage (Some "zlib") (Some "Debian")) (Some "1:1.2.13-1")
                 [vuln_two_severities]].

(** The largest of the ranks, and [-1] when there is none. *)
Definition max_rank (ranks : list Z) : Z := foldr Z.max (-1)%Z ranks.

(** The five labels of the ranking. *)
Definition severity_labels : list string :=
  ["UNKNOWN"; "LOW"; "MEDIUM"; "HIGH"; "CRITICAL"].

(** The invariant of the loop of [_highest_severity]. *)
Definition highest_inv (acc : string * Z) (ranks : list Z) : Prop :=
  acc.2 = max_rank ranks
  ∧ _sev_order (Some acc.1) = acc.2
  ∧ acc.1 ∈ severity_labels.

(** The number of findings classified [label]. *)
Definition classified (label : string) (vs : list Finding) : nat :=
  length (filter (λ v, _severity_of v = label) vs).

(** A finding that carries a base score and no label. *)
Definition finding_score_only : Finding :=
  {| f_source := Some "NVD"; f_id := Some "CVE-2024-0001";
     f_package := Some "openssl"; f_ecosystem := None;
     f_version := Some "1.1.1f"; f_summary := Some "overflow";
     f_severity := None;
     f_cvss := CvssSet (mkCvss None (SNum (98 # 10)));
     f_references := []; f_aliases := []; f_affected := [] |}.

(** ** Reading the enrichment in words *)

(** The answer to a look-up carries no metric to use: no vulnerability, or a
    first vulnerability without an entry under either metric key. *)
Definition no_metric_data (data : NvdResponse) : Prop :=
  match nvd_vulnerabilities data with
  | [] => True
  | item :: _ =>
      cvssMetricV31 (cve_metrics (item_cve item)) = []
      ∧ cvssMetricV30 (cve_metrics (item_cve item)) = []
  end.

(** [f'] is [f], or [f] is an OSV finding without severity for which a CVE
    identifier was recovered and looked up with success, the answer carried
    a metric, and [f'] is [f] with its [cvss] key set from it. *)
Definition same_or_enriched (net : Network) (f f' : Finding) : Prop :=
  f' = f
  ∨ (f_source f = Some "OSV"
     ∧ Py.truthy (f_severity f) = false
     ∧ ∃ cve log data,
         head (cve_ids_of f) = Some cve
         ∧ nvd_cve_by_id net log cve = Some data
         ∧ ¬ no_metric_data data
         ∧ f' = apply_cve_metrics f data
         ∧ ∃ c, f' = set_cvss f c).

(** ** Reading the fixed versions in words *)

(** [o] holds the non-empty text [x]. *)
Definition holds (o : option string) (x : string) : Prop := o = Some x ∧ x ≠ "".

(** [r.get("events") or []]. *)
Definition range_events (r : OsvRange) : list OsvEvent := default [] (rg_events r).

(** The ranges of all the affected entries of a finding. *)
Definition all_ranges (v : Finding) : list OsvRange := f_affected v ≫= aff_ranges.

(** [x] is the explicit fixed value of an event of [r]. *)
Definition fixed_in (r : OsvRange) (x : string) : Prop :=
  ∃ ev, ev ∈ range_events r ∧ holds (ev_fixed ev) x.

(** [x] is the limit of the last event of [r]. *)
Definition last_limit_in (r : OsvRange) (x : string) : Prop :=
  ∃ ev, last (range_events r) = Some ev ∧ holds (ev_limit ev) x.

(** A range whose last event carries a limit although an earlier event
    carries a fixed value. *)
Definition range_fixed_and_limit : OsvRange :=
  mkRange (Some [mkEvent (Some "1.2.13") None; mkEvent None (Some "2.0")]).

Definition finding_fixed_and_limit : Finding :=
  {| f_source := Some "OSV"; f_id := Some "OSV-2024-2";
     f_package := Some "zlib"; f_ecosystem := Some "Debian";
     f_version := Some "1:1.2.11"; f_summary := None;
     f_severity := None; f_cvss := CvssUnset;
     f_references := []; f_aliases := [];
     f_affected := [mkAffected [range_fixed_and_limit]] |}.

(** A finding with a range whose list of events is there and empty. *)
Definition finding_empty_events : Finding :=
  {| f_source := Some "OSV"; f_id := Some "OSV-2024-3";
     f_package := Some "zlib"; f_ecosystem := Some "Debian";
     f_version := Some "1:1.2.11"; f_summary := None;
     f_severity := None; f_cvss := CvssUnset;
     f_references := []; f_aliases := [];
     f_affected := [mkAffected [mkRange (Some [])]] |}.

(** ** Reading the structured identifier in words *)

(** [":" not in s]. *)
Definition no_colon (s : string) : Prop := Py.mem_char ":"%char s = false.

(** A registry whose search answers with one application-class candidate
    for zlib, and that fails every other request. *)
Definition net_zlib : Network :=
  {| osv_querybatch := λ _ _, None;
     nvd_cpe_search := λ _ _,
       Some [mkProduct (Some "cpe:2.3:a:zlib:zlib:*:*:*:*:*:*:*:*")];
     nvd_cves_by_cpe := λ _ _, None;
     nvd_cve_by_id := λ _ _, None |}.

(** Two findings with the same id, the later with more detail, and one
    without id. *)
Definition finding_first : Finding :=
  {| f_source := Some "OSV"; f_id := Some "CVE-2023-1255";
     f_package := Some "openssl"; f_ecosystem := Some "Ubuntu";
     f_version := Some "3.0.2"; f_summary := Some "short";
     f_severity := None; f_cvss := CvssUnset;
     f_references := []; f_aliases := []; f_affected := [] |}.

Definition finding_later : Finding :=
  {| f_source := Some "NVD"; f_id := Some "CVE-2023-1255";
     f_package := Some "openssl"; f_ecosystem := None;
     f_version := Some "3.0.2"; f_summary := Some "a longer text";
     f_severity := Some "high";
     f_cvss := CvssSet (mkCvss (Some "HIGH") (SNum (75 # 10)));
     f_references := [Some "https://nvd.nist.gov/vuln/detail/CVE-2023-1255"];
     f_aliases := []; f_affected := [] |}.

Definition finding_no_id : Finding :=
  {| f_source := Some "OSV"; f_id := None;
     f_package := Some "zlib"; f_ecosystem := Some "Debian";
     f_version := Some "1:1.2.13-1"; f_summary := Some "overflow";
     f_severity := Some "MODERATE"; f_cvss := CvssUnset;
     f_references := []; f_aliases := []; f_affected := [] |}.

(** A world in which the advisory service knows one vulnerability of every
    queried commit and the registry knows its score. *)
Definition net_sample : Network :=
  {| osv_querybatch := λ _ queries,
       Some (mkBatchResp
               ((λ _, mkResult (mkPackage (Some "fmt") None) None
                        [mkVuln (Some "UBUNTU-CVE-2023-1255") (Some "overflow")
                           [] [mkReference (Some "https://osv.dev/1")] [] []])
                <$> queries));
     nvd_cpe_search := λ _ _,
       Some [mkProduct (Some "cpe:2.3:a:zlib:zlib:*:*:*:*:*:*:*:*")];
     nvd_cves_by_cpe := λ _ _, None;
     nvd_cve_by_id := λ _ _,
       Some (mkNvdResp
               [mkItem (mkCve (Some "CVE-2023-1255")
                          (mkMetrics [mkMetric (Some (mkCvss None (SNum (75 # 10))))] [])
                          [] [])]) |}.

Definition inventory_sample : Dependencies :=
  {| conan := [("zlib", mkDep (Some "1.2.13") None)];
     system := [("openssl", mkDep (Some "3.0.2 (installed)") None)];
     submodules := [("third_party/fmt", mkDep None (Some "+0123abc"));
                    ("third_party/spdlog", mkDep None (Some "4567def"))];
     system_by_stage := [] |}.

Definition checker_online : CVEChecker :=
  {| offline := false; ecosystem := None;
     dependencies := inventory_sample; vulnerabilities := [] |}.

Definition checker_offline : CVEChecker :=
  {| offline := true; ecosystem := Some "Ubuntu";
     dependencies := inventory_sample; vulnerabilities := [] |}.

(** ** Reading the request log in words *)

(** The identifier that [_enrich_osv_with_nvd] looks up for a finding, if
    it looks one up: [cve_ids[0]] of an OSV finding without severity. *)
Definition enrich_lookup (f : Finding) : option string :=
  if negb (bool_decide (f_source f = Some "OSV")) || Py.truthy (f_severity f)
  then None
  else head (cve_ids_of f).

(** The log when the loop of [_enrich_osv_with_nvd] over [items], started
    at [log], reaches position [i]: one look-up has been issued for each
    earlier finding that has one. *)
Definition log_before (log : Log) (items : list Finding) (i : nat) : Log :=
  log ++ (GetCveById <$> omap enrich_lookup (take i items)).

(** The first metric entry of the answer to a look-up: of its first
    vulnerability, the first entry under the V3.1 key or, when there is
    none, the first entry under the V3.0 key. *)
Definition first_metric (data : NvdResponse) : option NvdMetric :=
  item ← head (nvd_vulnerabilities data);
  head (cvssMetricV31 (cve_metrics (item_cve item))
        ++ cvssMetricV30 (cve_metrics (item_cve item))).

(** The metric data that an answer carries to use, if any: the data of
    its first metric entry. *)
Definition usable_data (data : NvdResponse) : option CvssData :=
  first_metric data ≫= cvssData.

(** What the pass makes of [f] when its look-up, if it has one, is issued
    at [log]. *)
Definition enriched_at (net : Network) (log : Log) (f : Finding) : Finding :=
  match enrich_lookup f with
  | None => f
  | Some cve =>
      match nvd_cve_by_id net log cve with
      | None => f
      | Some data => apply_cve_metrics f data
      end
  end.

(** A registry whose answer to a look-up has a metric entry without
    data. *)
Definition net_no_data : Network :=
  {| osv_querybatch := λ _ _, None;
     nvd_cpe_search := λ _ _, None;
     nvd_cves_by_cpe := λ _ _, None;
     nvd_cve_by_id := λ _ _,
       Some (mkNvdResp
               [mkItem (mkCve (Some "CVE-2023-1255")
                          (mkMetrics [mkMetric None] []) [] [])]) |}.

(** A registry that answers the first look-up and fails every later
    one. *)
Definition net_flaky : Network :=
  {| osv_querybatch := λ _ _, None;
     nvd_cpe_search := λ _ _, None;
     nvd_cves_by_cpe := λ _ _, None;
     nvd_cve_by_id := λ log _,
       match log with
       | [] =>
           Some (mkNvdResp
                   [mkItem (mkCve (Some "CVE-2023-1255")
                              (mkMetrics [mkMetric (Some (mkCvss None (SNum (75 # 10))))] [])
                              [] [])])
       | _ :: _ => None
       end |}.

(** Two findings that differ at most in their [cvss] key. *)
Definition same_but_cvss (f f' : Finding) : Prop := f' = set_cvss f (f_cvss f').

(** A finding has a label of its own: a [severity], or a [baseSeverity]. *)
Definition has_label (v : Finding) : Prop :=
  Py.truthy (f_severity v) = true
  ∨ Py.truthy (baseSeverity (cvss_or_empty (f_cvss v))) = true.

(** The vulnerabilities of a batch response, in order, each with the
    position and the result it sits in. *)
Definition osv_tagged_vulns (resp : OsvBatchResp) : list (nat * OsvResult * OsvVuln) :=
  mjoin (imap (λ idx res, (λ v, (idx, res, v)) <$> res_vulns res) (results resp)).

(** An OSV finding on which [_osv_fixed_versions] raises. *)
Definition breaks_report (v : Finding) : Prop :=
  f_source v = Some "OSV" ∧ Exists (λ r, rg_events r = Some []) (all_ranges v).

(** The body of the loop of [fixed_candidates] that collects the versions. *)
Definition collect_fixed (acc : list string) (v : Finding) : option (list string) :=
  if bool_decide (f_source v = Some "OSV")
  then fixed ← _osv_fixed_versions v; Some (acc ++ fixed)
  else Some acc.

(** A product of the search that [guess_cpe_for_conan] accepts for the
    lower-cased name [name_l]: it has a name that passes [cpe_matches]. *)
Definition candidate_ok (name_l : string) (item : CpeProduct) : Prop :=
  ∃ cpe23, cpeName item = Some cpe23 ∧ cpe23 ≠ ""
           ∧ cpe_matches name_l (Py.split_colon cpe23) = true.

(** ** Reading the stripping of texts in words *)

(** Every character of [s] is one that is dropped. *)
Fixpoint all_chars (drop : ascii -> bool) (s : string) : bool :=
  match s with
  | "" => true
  | String c s' => drop c && all_chars drop s'
  end.

(** [s] does not start with a character that is dropped. *)
Definition starts_clean (drop : ascii -> bool) (s : string) : Prop :=
  match s with
  | "" => True
  | String c _ => drop c = false
  end.

(** [s] neither starts nor ends with a character that is dropped. *)
Definition clean_ends (drop : ascii -> bool) (s : string) : Prop :=
  starts_clean drop s ∧ starts_clean drop (String.rev s).

(** ** Reading the queries in words *)

(** The queries of a stage with their attribution: none when the ecosystem
    of the stage is not one of the three. *)
Definition stage_entries (st : Stage) : list (OsvQuery * (string * string * string)) :=
  match st_ecosystem st with
  | Some eco =>
      if bool_decide (eco = "Ubuntu") || bool_decide (eco = "Debian")
         || bool_decide (eco = "Alpine")
      then omap (apt_query (st_stage st) eco) (st_apt st)
           ++ omap (apk_query (st_stage st) eco) (st_apk st)
      else []
  | None => []
  end.

(** The batch that is sent for a stage, if one is sent. *)
Definition stage_batch (st : Stage) : option Request :=
  match (stage_entries st).*1 with
  | [] => None
  | queries => Some (PostQueryBatch queries)
  end.

(** A package query that the stage [st] sends.  In a stage of Ubuntu or
    Debian it is for a named apt package of the stage, at its cleaned
    version, which is neither empty nor one of ["system"], ["required"] and
    ["unknown"].  In a stage of Alpine it is for a named apk package of the
    stage, at its version as it is written, which is neither empty nor
    ["unknown"]: there ["system"], ["required"] and blanks around the
    version are let through. *)
Definition stage_query_ok (st : Stage) (q : OsvQuery) : Prop :=
  ∃ name eco ver p,
    q = QPackage name eco ver
    ∧ st_ecosystem st = Some eco
    ∧ p_name p = Some name ∧ name ≠ ""
    ∧ ((eco ∈ ["Ubuntu"; "Debian"]
        ∧ p ∈ st_apt st
        ∧ ver = _clean_version (p_version p)
        ∧ ver ≠ "" ∧ ver ≠ "system" ∧ ver ≠ "required" ∧ ver ≠ "unknown"
        ∧ clean_ends Py.is_space ver)
       ∨ (eco = "Alpine"
          ∧ p ∈ st_apk st
          ∧ p_version p = Some ver
          ∧ ver ≠ "" ∧ ver ≠ "unknown")).

(** The batch that is sent for the submodules, if one is sent. *)
Definition submodules_batch (self : CVEChecker) : option Request :=
  match omap commit_query (submodules (dependencies self)) with
  | [] => None
  | queries => Some (PostQueryBatch queries)
  end.

(** The batch that is sent for the system packages when there are no
    stages, if one is sent. *)
Definition system_batch (self : CVEChecker) : option Request :=
  match ecosystem self with
  | Some (String c s) =>
      match (omap (system_query (String c s)) (system (dependencies self))).*1 with
      | [] => None
      | queries => Some (PostQueryBatch queries)
      end
  | _ => None
  end.

(** A finding as the pipeline stores it: of the advisory service, and then
    without [cvss] when it has a severity, or of the registry, and then
    without severity. *)
Definition stored_ok (f : Finding) : Prop :=
  (f_source f = Some "OSV" ∧ (Py.truthy (f_severity f) = true → f_cvss f = CvssUnset))
  ∨ (f_source f = Some "NVD" ∧ f_severity f = None).

(** A registry finding of the package-manager dependency [entry]. *)
Definition conan_finding_of (entry : string * DepInfo) (f : Finding) : Prop :=
  f_source f = Some "NVD"
  ∧ f_package f = Some entry.1
  ∧ f_version f = Some (_clean_version (dep_version entry.2))
  ∧ _clean_version (dep_version entry.2) ≠ ""
  ∧ f_severity f = None.

(** A finding as a query returns it. *)
Definition fresh (f : Finding) : Prop :=
  (f_source f = Some "OSV" ∧ f_cvss f = CvssUnset)
  ∨ (f_source f = Some "NVD" ∧ f_severity f = None).

(** An inventory with two build stages, and a checker over it. *)
Definition inventory_stages : Dependencies :=
  {| conan := [("zlib", mkDep (Some "1.2.13") None)];
     system := [];
     submodules := [];
     system_by_stage :=
       [mkStage "builder" (Some "Ubuntu")
          [mkStagePackage (Some "curl") (Some "7.81.0-1ubuntu1.16");
           mkStagePackage (Some "cmake") (Some "system")] [];
        mkStage "tools" None [mkStagePackage (Some "git") (Some "1:2.34.1")] [];
        mkStage "runtime" (Some "Alpine") []
          [mkStagePackage (Some "openssl") (Some "3.1.4-r5");
           mkStagePackage (Some "zlib") (Some "unknown");
           mkStagePackage (Some "busybox") (Some "system")]] |}.

Definition checker_stages : CVEChecker :=
  {| offline := false; ecosystem := Some "Alpine";
     dependencies := inventory_stages; vulnerabilities := [] |}.

(** A checker whose system packages are asked about directly. *)
Definition checker_ubuntu : CVEChecker :=
  {| offline := false; ecosystem := Some "Ubuntu";
     dependencies := inventory_sample; vulnerabilities := [] |}.

(** A world in which the registry also lists one vulnerability per
    identifier. *)
Definition net_registry : Network :=
  {| osv_querybatch := λ _ _, None;
     nvd_cpe_search := nvd_cpe_search net_sample;
     nvd_cves_by_cpe := λ _ _,
       Some (mkNvdResp
               [mkItem (mkCve (Some "CVE-2022-37434")
                          (mkMetrics [] [mkMetric (Some (mkCvss (Some "Critical") (SNum (98 # 10))))])
                          [mkDescription (Some "heap overflow in inflate")] [])]);
     nvd_cve_by_id := λ _ _, None |}.

(** A checker that holds findings. *)
Definition checker_with_findings : CVEChecker :=
  {| offline := false; ecosystem := Some "Debian";
     dependencies := inventory_sample;
     vulnerabilities := [finding_first; finding_no_id; finding_fixed_and_limit;
                         finding_score_only] |}.

(** ** Reading the vendor identifier in words *)

(** [g] is four digits, a dash and at least one digit. *)
Definition cve_shape (g : string) : Prop :=
  ∃ year number,
    g = year +:+ "-" +:+ number
    ∧ String.length year = 4
    ∧ all_digits year = true
    ∧ number ≠ ""
    ∧ all_digits number = true.

(** The text of one new-line. *)
Definition newline : string := String "010"%char "".

(** A finding under the vendor's identifier, without aliases. *)
Definition finding_vendor_id : Finding :=
  {| f_source := Some "OSV"; f_id := Some "UBUNTU-CVE-2023-1255";
     f_package := Some "openssl"; f_ecosystem := Some "Ubuntu";
     f_version := Some "3.0.2"; f_summary := Some "overflow";
     f_severity := None; f_cvss := CvssUnset;
     f_references := []; f_aliases := ["USN-6039-1"]; f_affected := [] |}.

(** ** Base images *)

(** [_ecosystem_from_base]. *)
Definition _ecosystem_from_base (base : option string) : option string :=
  let b := Py.lower (Py.or_empty base) in
  if Py.contains "ubuntu" b then Some "Ubuntu"
  else if Py.contains "debian" b then Some "Debian"
  else if Py.contains "alpine" b then Some "Alpine"
  else None.

(** [base] has a piece that is [word] up to the case of its letters. *)
Definition mentions (word base : string) : Prop :=
  ∃ pre mid post, base = pre +:+ mid +:+ post ∧ Py.lower mid = word.
(** ** The package-manager manifest *)

(** [s.split("\n")]. *)
Fixpoint split_lines (s : string) : list string :=
  match s with
  | "" => [""]
  | String c s' =>
      if Ascii.eqb c "010"%char then "" :: split_lines s'
      else match split_lines s' with
           | w :: ws => String c w :: ws
           | [] => [String c ""]
           end
  end.

(** [line.split("/", 1)] when ["/" in line]: the text before the first
    slash and the text after it. *)
Fixpoint split_slash (line : string) : option (string * string) :=
  match line with
  | "" => None
  | String c rest =>
      if Ascii.eqb c "/"%char then Some ("", rest)
      else '(name, version) ← split_slash rest; Some (String c name, version)
  end.

(** [d[key] = value] on a [dict] in insertion order: a key that is there
    keeps its place. *)
Fixpoint dict_set {V} (key : string) (value : V) (d : list (string * V))
  : list (string * V) :=
  match d with
  | [] => [(key, value)]
  | (k, v) :: rest =>
      if bool_decide (k = key) then (key, value) :: rest
      else (k, v) :: dict_set key value rest
  end.

(** The body of the loop over the lines of [conanfile.txt]; the state is
    [in_requires] and [self.dependencies["conan"]]. *)
Definition conan_line (state : bool * list (string * DepInfo)) (raw : string)
  : bool * list (string * DepInfo) :=
  let '(in_requires, deps) := state in
  let line := Py.strip raw in
  if bool_decide (line = "[requires]") then (true, deps)
  else if Py.startswith "[" line then (false, deps)
  else if in_requires && negb (bool_decide (line = ""))
          && negb (Py.startswith "#" line)
  then match split_slash line with
       | Some (name, version) =>
           (in_requires, dict_set name (mkDep (Some version) None) deps)
       | None => (in_requires, deps)
       end
  else (in_requires, deps).

Definition with_conan (self : CVEChecker) (deps : list (string * DepInfo)) : CVEChecker :=
  {| offline := offline self;
     ecosystem := ecosystem self;
     dependencies :=
       {| conan := deps;
          system := system (dependencies self);
          submodules := submodules (dependencies self);
          system_by_stage := system_by_stage (dependencies self) |};
     vulnerabilities := vulnerabilities self |}.

(** [_collect_conan_dependencies]; [conanfile] is the text of
    [conanfile.txt], or [None] when there is no such file. *)
Definition _collect_conan_dependencies (conanfile : option string) (self : CVEChecker)
  : CVEChecker :=
  match conanfile with
  | None => self
  | Some content =>
      with_conan self
        (foldl conan_line (false, conan (dependencies self)) (split_lines content)).2
  end.

(** ** Reading the manifest in words *)

(** ["/" not in s]. *)
Definition no_slash (s : string) : Prop := Py.mem_char "/"%char s = false.

(** The line opens a section: without the blanks around it, it starts with
    a bracket. *)
Definition header (raw : string) : Prop :=
  Py.startswith "[" (Py.strip raw) = true.

(** Line [i] stands under the heading [[requires]]: that heading is the
    last section heading before it. *)
Definition under_requires (lines : list string) (i : nat) : Prop :=
  ∃ j raw, j < i ∧ lines !! j = Some raw ∧ Py.strip raw = "[requires]"
    ∧ ∀ k raw', j < k < i → lines !! k = Some raw' → ¬ header raw'.

(** Line [i] requires [name] at [version]: it stands under [[requires]],
    is neither a heading nor a comment, and reads [name/version] without
    the blanks around it, the name being the text before its first
    slash. *)
Definition requirement (lines : list string) (i : nat) (name version : string) : Prop :=
  ∃ raw, lines !! i = Some raw
    ∧ under_requires lines i
    ∧ Py.strip raw = name +:+ "/" +:+ version
    ∧ no_slash name
    ∧ ¬ header raw
    ∧ Py.startswith "#" (Py.strip raw) = false.

(** The line [raw] that follows [lines] requires [name] at [version]. *)
Definition last_requirement (lines : list string) (raw name version : string) : Prop :=
  under_requires lines (length lines)
  ∧ Py.strip raw = name +:+ "/" +:+ version
  ∧ no_slash name
  ∧ ¬ header raw
  ∧ Py.startswith "#" (Py.strip raw) = false.

(** What the manifest [lines] and the dependencies [before] make of [name]:
    the version of the last line that requires it, or else what was there
    before. *)
Definition recorded (lines : list string) (before : list (string * DepInfo))
    (name : string) (info : DepInfo) : Prop :=
  (∃ i version,
      requirement lines i name version
      ∧ (∀ i' version', i < i' → ¬ requirement lines i' name version')
      ∧ info = mkDep (Some version) None)
  ∨ ((name, info) ∈ before ∧ ∀ i version, ¬ requirement lines i name version).

(** A manifest with a comment, a repeated requirement and a second
    section. *)
Definition manifest_sample : string :=
  "# build" +:+ newline +:+ "[requires]" +:+ newline
  +:+ "zlib/1.2.11" +:+ newline +:+ "  boost/1.84.0  " +:+ newline
  +:+ "zlib/1.2.13" +:+ newline +:+ "[generators]" +:+ newline
  +:+ "cmake/3.27" +:+ newline.
(** A registry whose search answers with a product without a name and
    then with the product of zlib 1.2.13 itself. *)
Definition net_zlib_exact : Network :=
  {| osv_querybatch := λ _ _, None;
     nvd_cpe_search := λ _ _,
       Some [mkProduct None;
             mkProduct (Some "cpe:2.3:a:zlib:zlib:1.2.13:*:*:*:*:*:*:*")];
     nvd_cves_by_cpe := λ _ _, None;
     nvd_cve_by_id := λ _ _, None |}.

(** ** Build stages of the Dockerfile *)

(** The characters at which [str.splitlines] breaks a line, below 128. *)
Definition is_linebreak (c : ascii) : bool :=
  let n := N_of_ascii c in
  (((10 <=? n) && (n <=? 13)) || ((28 <=? n) && (n <=? 30)))%N.

(** [s.splitlines()]: a carriage return followed by a line feed is one
    break, and a break at the very end opens no further line. *)
Fixpoint splitlines (s : string) : list string :=
  match s with
  | "" => []
  | String c s' =>
      if is_linebreak c then
        match s' with
        | String d s'' =>
            if Ascii.eqb c "013"%char && Ascii.eqb d "010"%char
            then "" :: splitlines s''
            else "" :: splitlines s'
        | "" => [""]
        end
      else match splitlines s' with
           | w :: ws => String c w :: ws
           | [] => [String c ""]
           end
  end.

(** The longest prefix of [s] made of characters that [keep] accepts, and
    what follows it: a greedy character class. *)
Fixpoint span (keep : ascii -> bool) (s : string) : string * string :=
  match s with
  | String c s' =>
      if keep c then let '(taken, rest) := span keep s' in (String c taken, rest)
      else ("", s)
  | "" => ("", "")
  end.

(** A literal of a pattern compiled with [re.IGNORECASE]; [p] is given in
    lower case. *)
Fixpoint strip_prefix_ci (p s : string) : option string :=
  match p, s with
  | "", _ => Some s
  | String a p', String b s' =>
      if Ascii.eqb a (Py.lower_char b) then strip_prefix_ci p' s' else None
  | String _ _, "" => None
  end.

(** [[^\s]]. *)
Definition not_space (c : ascii) : bool := negb (Py.is_space c).

(** [\s+]: what follows the blanks, when there is at least one. *)
Definition skip_blanks (s : string) : option string :=
  match s with
  | String c s' => if Py.is_space c then Some (Py.lstrip s') else None
  | "" => None
  end.

(** [[A-Za-z0-9._-]]. *)
Definition is_name_char (c : ascii) : bool :=
  let n := N_of_ascii c in
  (((65 <=? n) && (n <=? 90)) || ((97 <=? n) && (n <=? 122))
   || ((48 <=? n) && (n <=? 57)))%N
  || Py.mem_char c "._-".

(** [(?:\s+AS\s+([A-Za-z0-9._-]+))?]: the second group, when the optional
    part matches. *)
Definition stage_alias (rest : string) : option string :=
  r ← skip_blanks rest;
  r ← strip_prefix_ci "as" r;
  r ← skip_blanks r;
  let name := (span is_name_char r).1 in
  if bool_decide (name = "") then None else Some name.

(** [re.match(r"^\s*FROM\s+([^\s]+)(?:\s+AS\s+([A-Za-z0-9._-]+))?", line,
    re.IGNORECASE)]: the two groups when the line matches. *)
Definition from_match (line : string) : option (string * option string) :=
  r ← strip_prefix_ci "from" (Py.lstrip line);
  r ← skip_blanks r;
  let '(base, rest) := span not_space r in
  if bool_decide (base = "") then None else Some (base, stage_alias rest).

(** A stage as [_parse_dockerfile_stages] returns it. *)
Record DockerStage : Type := mkDockerStage {
  ds_name : string;
  ds_base : string;
  ds_ecosystem : option string;
  ds_body : string
}.

(** [stages.append(cur)] under [if cur]. *)
Definition push_stage (stages : list DockerStage) (cur : option DockerStage)
  : list DockerStage :=
  match cur with
  | Some st => stages ++ [st]
  | None => stages
  end.

(** The body of the loop over the lines; the state is [stages] and
    [cur]. *)
Definition stage_line (state : list DockerStage * option DockerStage) (line : string)
  : list DockerStage * option DockerStage :=
  let '(stages, cur) := state in
  match from_match line with
  | Some (base, alias) =>
      let stages := push_stage stages cur in
      let name := default ("stage" +:+ pretty (length stages)) alias in
      (stages, Some (mkDockerStage name base (_ecosystem_from_base (Some base)) ""))
  | None =>
      match cur with
      | Some st =>
          (stages,
           Some (mkDockerStage (ds_name st) (ds_base st) (ds_ecosystem st)
                   (ds_body st +:+ line +:+ newline)))
      | None => (stages, None)
      end
  end.

(** [_parse_dockerfile_stages]. *)
Definition _parse_dockerfile_stages (text : string) : list DockerStage :=
  let '(stages, cur) := foldl stage_line ([], None) (splitlines text) in
  push_stage stages cur.

(** [_infer_ecosystem_from_dockerfile]: what it returns and what it leaves
    in [self.docker_stages].  [dockerfile] is [None] when there is no such
    file, [Some None] when reading it raises, and else its text. *)
Definition _infer_ecosystem_from_dockerfile (dockerfile : option (option string))
  : option string * list DockerStage :=
  match dockerfile with
  | None => (None, [])
  | Some None => (None, [])
  | Some (Some txt) =>
      let docker_stages := _parse_dockerfile_stages txt in
      match last docker_stages with
      | Some st => (ds_ecosystem st, docker_stages)
      | None => (None, docker_stages)
      end
  end.

(** [self.ecosystem = ecosystem or self._infer_ecosystem_from_dockerfile()]
    of [__init__]. *)
Definition init_ecosystem (ecosystem : option string)
    (dockerfile : option (option string)) : option string :=
  if Py.truthy ecosystem then ecosystem
  else (_infer_ecosystem_from_dockerfile dockerfile).1.

(** ** Reading the Dockerfile in words *)

(** The line is no [FROM] line. *)
Definition no_from (line : string) : Prop := from_match line = None.

(** The lines, each with a new-line after it. *)
Definition body_text (lines : list string) : string :=
  foldr (λ line text, line +:+ newline +:+ text) "" lines.

(** A [FROM] line with the lines that follow it up to the next one. *)
Definition block_lines (b : string * list string) : list string := b.1 :: b.2.

(** [st] is stage number [i], opened by the [FROM] line of the block
    [b]. *)
Definition stage_of_block (i : nat) (b : string * list string) (st : DockerStage)
  : Prop :=
  ∃ base alias,
    from_match b.1 = Some (base, alias)
    ∧ Forall no_from b.2
    ∧ ds_name st = default ("stage" +:+ pretty i) alias
    ∧ ds_base st = base
    ∧ ds_ecosystem st = _ecosystem_from_base (Some base)
    ∧ ds_body st = body_text b.2.

(** Only blanks. *)
Definition blanks (s : string) : Prop := all_chars Py.is_space s = true.

(** [line] reads: blanks, the word FROM in any case, at least one blank,
    the image [base] up to the next blank, and then [rest]. *)
Definition from_shape (line base rest : string) : Prop :=
  ∃ indent word gap,
    line = indent +:+ word +:+ gap +:+ base +:+ rest
    ∧ blanks indent
    ∧ Py.lower word = "from"
    ∧ gap ≠ "" ∧ blanks gap
    ∧ base ≠ "" ∧ all_chars not_space base = true
    ∧ starts_clean not_space rest.

(** [rest] reads: at least one blank, the word AS in any case, at least
    one blank, and the name [alias] up to the next character that a name
    cannot have. *)
Definition alias_shape (rest alias : string) : Prop :=
  ∃ gap1 word gap2 tail,
    rest = gap1 +:+ word +:+ gap2 +:+ alias +:+ tail
    ∧ gap1 ≠ "" ∧ blanks gap1
    ∧ Py.lower word = "as"
    ∧ gap2 ≠ "" ∧ blanks gap2
    ∧ alias ≠ "" ∧ all_chars is_name_char alias = true
    ∧ starts_clean is_name_char tail.

(** A Dockerfile with two stages. *)
Definition dockerfile_sample : string :=
  "# syntax" +:+ newline
  +:+ "FROM ubuntu:24.04 AS builder" +:+ newline
  +:+ "RUN apt-get install -y cmake" +:+ newline
  +:+ "from alpine:3.19" +:+ newline
  +:+ "COPY --from=builder /app /app" +:+ newline.

(** ** Git submodules *)

(** The [re.search] of the header line, for a double quote, one or more
    characters other than a double quote, and a double quote: group 1 of
    the leftmost match. *)
Fixpoint quoted (s : string) : option string :=
  match s with
  | "" => None
  | String c s' =>
      if Ascii.eqb c "034"%char then
        let '(run, rest) := span (λ d, negb (Ascii.eqb d "034"%char)) s' in
        match run, rest with
        | String _ _, String _ _ => Some run
        | _, _ => quoted s'
        end
      else quoted s'
  end.

(** The body of the loop over the lines of [.gitmodules]; the state is
    [current_submodule] and [self.dependencies["submodules"]].  The new
    entry has the keys ["url"] and ["source"], and neither ["version"]
    nor ["commit"]. *)
Definition gitmodules_line (state : option string * list (string * DepInfo))
    (raw : string) : option string * list (string * DepInfo) :=
  let '(current_submodule, subs) := state in
  let line := Py.strip raw in
  if Py.startswith "[submodule" line then (quoted line, subs)
  else if Py.startswith "url =" line then
    match current_submodule with
    | Some name => (current_submodule, dict_set name (mkDep None None) subs)
    | None => (current_submodule, subs)
    end
  else (current_submodule, subs).

(** [d[key]["commit"] = commit] under [if key in d]. *)
Fixpoint set_commit (key commit : string) (d : list (string * DepInfo))
  : list (string * DepInfo) :=
  match d with
  | [] => []
  | (k, info) :: rest =>
      if bool_decide (k = key) then (k, mkDep (dep_version info) (Some commit)) :: rest
      else (k, info) :: set_commit key commit rest
  end.

(** What a line of [git submodule status] says: the path, [parts[1]], and
    the commit, [parts[0].lstrip("-+")], when [line.strip().split()] has
    at least two parts. *)
Definition status_entry (raw : string) : option (string * string) :=
  let line := Py.strip raw in
  let '(first, rest) := span not_space line in
  let second := (span not_space (Py.lstrip rest)).1 in
  if bool_decide (second = "") then None
  else Some (second, Py.lstrip_by (λ c, Py.mem_char c "-+") first).

(** The body of the loop over the lines of the status. *)
Definition status_line (subs : list (string * DepInfo)) (raw : string)
  : list (string * DepInfo) :=
  match status_entry raw with
  | Some (path, commit) => set_commit path commit subs
  | None => subs
  end.

Definition with_submodules (self : CVEChecker) (subs : list (string * DepInfo))
  : CVEChecker :=
  {| offline := offline self;
     ecosystem := ecosystem self;
     dependencies :=
       {| conan := conan (dependencies self);
          system := system (dependencies self);
          submodules := subs;
          system_by_stage := system_by_stage (dependencies self) |};
     vulnerabilities := vulnerabilities self |}.

(** [_collect_git_submodules].  [gitmodules] is [None] when there is no
    [.gitmodules], [Some None] when reading it raises, and else its text;
    [status] is the output of [git submodule status], or [None] when the
    command raises or returns a code other than 0. *)
Definition _collect_git_submodules (gitmodules : option (option string))
    (status : option string) (self : CVEChecker) : CVEChecker :=
  match gitmodules with
  | None | Some None => self
  | Some (Some content) =>
      let subs :=
        (foldl gitmodules_line (None, submodules (dependencies self))
           (split_lines content)).2 in
      match status with
      | Some stdout => with_submodules self (foldl status_line subs (split_lines stdout))
      | None => with_submodules self subs
      end
  end.

(** ** Reading the submodules in words *)

(** The line opens a submodule section. *)
Definition submodule_header (raw : string) : Prop :=
  Py.startswith "[submodule" (Py.strip raw) = true.

(** The line gives a url. *)
Definition url_line (raw : string) : Prop :=
  Py.startswith "url =" (Py.strip raw) = true.

(** At line [n] the section of [name] is open: the last header line before
    it quotes [name]. *)
Definition current_at (lines : list string) (n : nat) (name : string) : Prop :=
  ∃ i head, i < n ∧ lines !! i = Some head
    ∧ submodule_header head
    ∧ quoted (Py.strip head) = Some name
    ∧ ∀ k raw, i < k < n → lines !! k = Some raw → ¬ submodule_header raw.

(** [name] is declared: some line gives a url while the section of [name]
    is open. *)
Definition declared (lines : list string) (name : string) : Prop :=
  ∃ j raw, lines !! j = Some raw ∧ url_line raw ∧ current_at lines j name.

(** The commit of the last line of the status that is about [path]. *)
Definition status_commit (lines : list string) (path : string) : option string :=
  last (omap (λ raw, '(p, commit) ← status_entry raw;
                     if bool_decide (p = path) then Some commit else None) lines).

(** [info] with the commit that the status has for [name], if any. *)
Definition with_status (lines : list string) (name : string) (info : DepInfo) : DepInfo :=
  match status_commit lines name with
  | Some commit => mkDep (dep_version info) (Some commit)
  | None => info
  end.

(** A [.gitmodules] with two submodules, and a status that knows one of
    them. *)
Definition gitmodules_sample : string :=
  "[submodule " +:+ String "034"%char "third_party/fmt" +:+ String "034"%char "]"
  +:+ newline +:+ "  path = third_party/fmt" +:+ newline
  +:+ "  url = https://github.com/fmtlib/fmt" +:+ newline
  +:+ "[submodule " +:+ String "034"%char "vendor/json" +:+ String "034"%char "]"
  +:+ newline +:+ "  url = https://github.com/nlohmann/json" +:+ newline.

Definition status_sample : string :=
  "+0123abc third_party/fmt (10.1.0)" +:+ newline
  +:+ " 89abcde third_party/other (heads/main)" +:+ newline.

(** A manifest that requires zlib at a version with a colon, and the
    checker that has read it. *)
Definition manifest_colon : string :=
  "[requires]" +:+ newline +:+ "zlib/1:1.2.13" +:+ newline.

Definition checker_colon : CVEChecker :=
  _collect_conan_dependencies (Some manifest_colon)
    {| offline := false; ecosystem := None;
       dependencies := {| conan := []; system := []; submodules := [];
                          system_by_stage := [] |};
       vulnerabilities := [] |}.

(** * Properties *)

(** ** De-duplication *)

Section dedupe_facts.

Implicit Types (seen : gset ident_key) (out items : list Finding).

Lemma dedupe_seen items seen out :
  (fold_left dedupe_step items (seen, out)).1
  = seen ∪ list_to_set (identity_key <$> items).
Proof.
  revert seen out. induction items as [|it items IH]; intros seen out; simpl.
  - set_solver.
  - unfold dedupe_step at 2; simpl. case_decide.
    + rewrite IH. set_solver.
    + rewrite IH. set_solver.
Qed.

Lemma dedupe_out_prefix items seen out :
  ∃ kept, (fold_left dedupe_step items (seen, out)).2 = out ++ kept
          ∧ sublist kept items
          ∧ (∀ it, it ∈ kept → identity_key it ∉ seen).
Proof.
  revert seen out. induction items as [|it items IH]; intros seen out; simpl.
  - exists []. rewrite app_nil_r. split; [done|]. split; [done|]. set_solver.
  - unfold dedupe_step at 2; simpl. case_decide as Hin.
    + destruct (IH seen out) as (kept & -> & Hsub & Hk).
      exists kept. split; [done|]. split; [by apply sublist_cons|done].
    + destruct (IH ({[identity_key it]} ∪ seen) (out ++ [it]))
        as (kept & -> & Hsub & Hk).
      exists (it :: kept). rewrite <- app_assoc. split; [done|].
      split; [by apply sublist_skip|].
      intros x [->|Hx]%elem_of_cons; [done|].
      specialize (Hk x Hx). set_solver.
Qed.

Lemma dedupe_snoc items x :
  _dedupe_findings (items ++ [x])
  = if decide (identity_key x ∈ identity_key <$> items)
    then _dedupe_findings items
    else _dedupe_findings items ++ [x].
Proof.
  unfold _dedupe_findings. rewrite fold_left_app. simpl.
  unfold dedupe_step at 1.
  pose proof (dedupe_seen items ∅ []) as Hseen.
  destruct (fold_left dedupe_step items (∅, [])) as [seen out] eqn:E.
  simpl in *. subst seen.
  repeat case_decide; try done; set_solver.
Qed.

Lemma dedupe_keys_subseteq items :
  ∀ k, k ∈ identity_key <$> _dedupe_findings items → k ∈ identity_key <$> items.
Proof.
  intros k. unfold _dedupe_findings.
  destruct (dedupe_out_prefix items ∅ []) as (kept & -> & Hsub & _).
  simpl. intros Hk.
  apply list_elem_of_fmap in Hk as (y & -> & Hy).
  apply list_elem_of_fmap. exists y. split; [done|].
  by eapply elem_of_sublist.
Qed.

Lemma dedupe_keys_complete items :
  ∀ k, k ∈ identity_key <$> items → k ∈ identity_key <$> _dedupe_findings items.
Proof.
  induction items as [|x items IH] using rev_ind; intros k; [done|].
  rewrite dedupe_snoc, fmap_app, elem_of_app. simpl.
  intros [Hk | Hk%list_elem_of_singleton]; case_decide;
    rewrite ?fmap_app, ?elem_of_app; subst; auto.
  right. simpl. set_solver.
Qed.

Lemma dedupe_NoDup items : NoDup (identity_key <$> _dedupe_findings items).
Proof.
  induction items as [|x items IH] using rev_ind; [constructor|].
  rewrite dedupe_snoc. case_decide as Hin; [done|].
  rewrite fmap_app. apply NoDup_app. split; [done|]. split.
  - intros k Hk ->%list_elem_of_singleton.
    by apply Hin, dedupe_keys_subseteq.
  - apply NoDup_singleton.
Qed.

Lemma dedupe_sublist items : sublist (_dedupe_findings items) items.
Proof.
  unfold _dedupe_findings.
  by destruct (dedupe_out_prefix items ∅ []) as (kept & -> & Hsub & _).
Qed.

Lemma dedupe_drop_later pre y post :
  identity_key y ∈ identity_key <$> pre →
  _dedupe_findings (pre ++ y :: post) = _dedupe_findings (pre ++ post).
Proof.
  intros Hin. unfold _dedupe_findings. rewrite !fold_left_app. simpl.
  pose proof (dedupe_seen pre ∅ []) as Hseen.
  destruct (fold_left dedupe_step pre (∅, [])) as [seen out].
  simpl in Hseen. subst seen.
  unfold dedupe_step at 2. simpl. case_decide as Hk; [done|].
  exfalso. apply Hk. set_solver.
Qed.

Lemma dedupe_fixed items :
  NoDup (identity_key <$> items) → _dedupe_findings items = items.
Proof.
  induction items as [|x items IH] using rev_ind; intros Hnd; [done|].
  rewrite fmap_app in Hnd. apply NoDup_app in Hnd as (Hnd & Hx & _).
  rewrite dedupe_snoc. case_decide as Hin.
  - exfalso. apply (Hx _ Hin). simpl. set_solver.
  - by rewrite IH.
Qed.

End dedupe_facts.


(** C2. [_dedupe_findings] keeps the first occurrence of every identity key,
    verbatim and in the order of the input, and drops every later finding
    with a key already met, whatever else that finding carries; the key is
    the id when it is not empty and the tuple (source, package, version,
    summary) otherwise; the keys of the output are pairwise distinct. *)
Theorem dedupe_keeps_first_occurrences (items : list Finding) :
  (∀ f, identity_key f =
        if Py.truthy (f_id f) then inl (Py.or_empty (f_id f))
        else inr (f_source f, f_package f, f_version f, f_summary f))
  ∧ _dedupe_findings [] = []
  ∧ (∀ pre x, _dedupe_findings (pre ++ [x]) =
              if decide (identity_key x ∈ identity_key <$> pre)
              then _dedupe_findings pre
              else _dedupe_findings pre ++ [x])
  ∧ (∀ pre y post, identity_key y ∈ identity_key <$> pre →
       _dedupe_findings (pre ++ y :: post) = _dedupe_findings (pre ++ post))
  ∧ sublist (_dedupe_findings items) items
  ∧ (∀ k, k ∈ identity_key <$> items → k ∈ identity_key <$> _dedupe_findings items)
  ∧ NoDup (identity_key <$> _dedupe_findings items).
Proof.
  split; [by intros [? [[|??]|] ?]|].
  split; [done|].
  split; [apply dedupe_snoc|].
  split; [apply dedupe_drop_later|].
  split; [apply dedupe_sublist|].
  split; [apply dedupe_keys_complete|apply dedupe_NoDup].
Qed.

(** C3. De-duplication is idempotent. *)
Theorem dedupe_idempotent (F : list Finding) :
  _dedupe_findings (_dedupe_findings F) = _dedupe_findings F.
Proof. apply dedupe_fixed, dedupe_NoDup. Qed.

(** ** Finding normaliser *)

Section normaliser_facts.

Implicit Types (entries pre post : list OsvSeverity) (sv : OsvSeverity).

Lemma osv_severity_snoc entries sv :
  osv_severity (entries ++ [sv]) = Py.or (sv_severity sv) (osv_severity entries).
Proof. unfold osv_severity. by rewrite fold_left_app. Qed.

Lemma osv_severity_none entries :
  Forall (λ sv, ¬ provides sv) entries → osv_severity entries = None.
Proof.
  induction entries as [|sv entries IH] using rev_ind; intros Hall; [done|].
  rewrite Forall_app, Forall_singleton in Hall. destruct Hall as [Hall Hsv].
  rewrite osv_severity_snoc, (IH Hall).
  unfold Py.or, provides in *.
  by destruct (Py.truthy (sv_severity sv)).
Qed.

Lemma osv_severity_last pre sv post :
  provides sv → Forall (λ sv', ¬ provides sv') post →
  osv_severity (pre ++ sv :: post) = sv_severity sv.
Proof.
  intros Hsv. induction post as [|sv' post IH] using rev_ind; intros Hall.
  - rewrite osv_severity_snoc. unfold Py.or. by rewrite Hsv.
  - rewrite Forall_app, Forall_singleton in Hall. destruct Hall as [Hall Hsv'].
    rewrite app_comm_cons, app_assoc, osv_severity_snoc, (IH Hall).
    unfold Py.or, provides in *.
    by destruct (Py.truthy (sv_severity sv')).
Qed.

Lemma osv_severity_last_provided entries :
  osv_severity entries = last_provided entries.
Proof.
  unfold last_provided, first_provided.
  induction entries as [|sv entries IH] using rev_ind; [done|].
  rewrite osv_severity_snoc, reverse_snoc. simpl.
  unfold Py.or. case_decide as Hsv.
  - unfold provides in Hsv. by rewrite Hsv.
  - unfold provides in Hsv. destruct (Py.truthy (sv_severity sv)); [done|].
    rewrite IH. by destruct (list_find provides (reverse entries)) as [[??]|].
Qed.

Lemma osv_result_findings_vulns meta idx res :
  Forall2 (λ f v, f_id f = vuln_id v ∧ f_summary f = vuln_summary v
                  ∧ f_severity f = osv_severity (vuln_severity v))
    (osv_result_findings meta idx res) (res_vulns res).
Proof.
  unfold osv_result_findings. destruct (osv_attribution meta idx res) as [[??]?].
  induction (res_vulns res); constructor; auto.
Qed.

Lemma osv_findings_vulns resp meta :
  Forall2 (λ f v, f_id f = vuln_id v ∧ f_summary f = vuln_summary v
                  ∧ f_severity f = osv_severity (vuln_severity v))
    (_osv_results_to_findings resp meta) (results resp ≫= res_vulns).
Proof.
  unfold _osv_results_to_findings.
  generalize (osv_result_findings meta) (osv_result_findings_vulns meta).
  induction (results resp) as [|res rs IH]; intros g Hg; [constructor|].
  rewrite imap_cons, bind_cons. simpl. apply Forall2_app; [apply Hg|].
  apply IH. intros idx r. apply Hg.
Qed.

End normaliser_facts.

(** C1, as it is stated, fails: of the two severities HIGH then LOW the
    normaliser emits the second, not the first that provides one. *)
Lemma osv_severity_not_first_match :
  f_severity <$> _osv_results_to_findings resp_two_severities [] = [Some "LOW"]
  ∧ first_provided (vuln_severity vuln_two_severities) = Some "HIGH"
  ∧ ¬ (∀ resp meta,
         f_severity <$> _osv_results_to_findings resp meta
         = (λ v, first_provided (vuln_severity v)) <$> (results resp ≫= res_vulns)).
Proof.
  split; [done|]. split; [done|].
  intros H. specialize (H resp_two_severities []). discriminate H.
Qed.

(** C1, amended. Every finding that [_osv_results_to_findings] emits stands
    for one vulnerability entry of the response, in order, and its severity
    is the value of the last entry of that vulnerability's severity list
    that provides one (last match wins): the entries before it do not
    matter, the entries after it provide none; without a providing entry
    the severity is [None]. *)
Theorem osv_severity_last_match (resp : OsvBatchResp) (meta : list (string * string * string)) :
  Forall2 (λ f v, f_severity f = last_provided (vuln_severity v))
    (_osv_results_to_findings resp meta) (results resp ≫= res_vulns)
  ∧ (∀ entries, osv_severity entries = last_provided entries)
  ∧ (∀ pre sv post, provides sv → Forall (λ sv', ¬ provides sv') post →
       last_provided (pre ++ sv :: post) = sv_severity sv)
  ∧ (∀ entries, Forall (λ sv, ¬ provides sv) entries → last_provided entries = None).
Proof.
  split.
  { eapply Forall2_impl; [apply osv_findings_vulns|].
    intros f v (_ & _ & ->). apply osv_severity_last_provided. }
  split; [apply osv_severity_last_provided|].
  split.
  - intros. rewrite <- osv_severity_last_provided. by apply osv_severity_last.
  - intros. rewrite <- osv_severity_last_provided. by apply osv_severity_none.
Qed.

(** ** Severity classifier *)

Section classifier_facts.

Lemma upper_char_idemp c : Py.upper_char (Py.upper_char c) = Py.upper_char c.
Proof. by destruct c as [[] [] [] [] [] [] [] []]. Qed.

Lemma upper_idemp s : Py.upper (Py.upper s) = Py.upper s.
Proof.
  induction s as [|c s IH]; [done|].
  unfold Py.upper in *. simpl. by rewrite upper_char_idemp, IH.
Qed.

Lemma upper_truthy s : Py.truthy (Some (Py.upper s)) = Py.truthy (Some s).
Proof. by destruct s. Qed.

Lemma upper_labels s : s ∈ severity_labels → Py.upper s = s.
Proof.
  unfold severity_labels. rewrite !elem_of_cons, elem_of_nil.
  intros [->|[->|[->|[->|[->|[]]]]]]; reflexivity.
Qed.

Lemma sev_order_cases s :
  (_sev_order (Some s) = 0%Z ∧ Py.upper s = "LOW")
  ∨ (_sev_order (Some s) = 1%Z ∧ Py.upper s = "MEDIUM")
  ∨ (_sev_order (Some s) = 2%Z ∧ Py.upper s = "HIGH")
  ∨ (_sev_order (Some s) = 3%Z ∧ Py.upper s = "CRITICAL")
  ∨ (_sev_order (Some s) = (-1)%Z ∧ Py.upper s ∉ ["LOW"; "MEDIUM"; "HIGH"; "CRITICAL"]).
Proof.
  unfold _sev_order. simpl.
  destruct (String.eqb_spec (Py.upper s) "LOW") as [->|H0]; [by left|].
  destruct (String.eqb_spec (Py.upper s) "MEDIUM") as [->|H1]; [by right; left|].
  destruct (String.eqb_spec (Py.upper s) "HIGH") as [->|H2]; [by right; right; left|].
  destruct (String.eqb_spec (Py.upper s) "CRITICAL") as [->|H3];
    [by right; right; right; left|].
  right; right; right; right. split; [done|].
  rewrite !elem_of_cons, elem_of_nil. tauto.
Qed.

Lemma group_label_upper v : Py.upper (group_label v) = group_label v.
Proof. unfold group_label. apply upper_idemp. Qed.

Lemma max_rank_snoc ranks r : max_rank (ranks ++ [r]) = Z.max (max_rank ranks) r.
Proof.
  unfold max_rank. induction ranks as [|r' ranks IH]; simpl; [lia|].
  rewrite IH. lia.
Qed.

Lemma highest_step_inv acc ranks v :
  highest_inv acc ranks →
  highest_inv (highest_step acc v) (ranks ++ [_sev_order (Some (group_label v))]).
Proof.
  intros (Hmax & Hrank & Hlabel). unfold highest_inv, highest_step.
  rewrite max_rank_snoc, <- Hmax.
  destruct (Z.ltb_spec acc.2 (_sev_order (Some (group_label v)))) as [Hlt|Hge]; simpl.
  - split; [lia|]. split; [done|].
    assert (-1 ≤ acc.2)%Z as Hlo.
    { rewrite <- Hrank. destruct (sev_order_cases acc.1) as [[-> _]|[[-> _]|[[-> _]|[[-> _]|[-> _]]]]]; lia. }
    pose proof (group_label_upper v) as Hup.
    unfold severity_labels. rewrite !elem_of_cons.
    destruct (sev_order_cases (group_label v))
      as [[_ H]|[[_ H]|[[_ H]|[[_ H]|[H _]]]]]; rewrite ?Hup in H; auto 10.
    lia.
  - split; [lia|]. done.
Qed.

Lemma highest_fold_inv vulns acc ranks :
  highest_inv acc ranks →
  highest_inv (fold_left highest_step vulns acc)
    (ranks ++ ((λ v, _sev_order (Some (group_label v))) <$> vulns)).
Proof.
  revert acc ranks. induction vulns as [|v vulns IH]; intros acc ranks Hinv; simpl.
  - by rewrite app_nil_r.
  - rewrite cons_middle, app_assoc. apply IH. by apply highest_step_inv.
Qed.

Lemma highest_severity_inv vulns :
  highest_inv (fold_left highest_step vulns ("UNKNOWN", (-1)%Z))
    ((λ v, _sev_order (Some (group_label v))) <$> vulns).
Proof.
  apply (highest_fold_inv vulns _ []). unfold highest_inv. simpl.
  split; [done|]. split; [done|]. unfold severity_labels. set_solver.
Qed.

End classifier_facts.

(** C5. [_severity_of] returns the explicit label of the finding when there
    is one, the [severity] or else the [baseSeverity] of its [cvss], in the
    upper case the script gives every label (the five labels of the ranking
    are returned as they are); without a label and with a numeric base
    score it returns CRITICAL from 9.0 on, HIGH from 7.0 to below 9.0,
    MEDIUM from 4.0 to below 7.0 and LOW below 4.0; without a label and
    without a numeric score it returns UNKNOWN. *)
Theorem severity_of_classifies (v : Finding) :
  let cvss := cvss_or_empty (f_cvss v) in
  (∀ s, f_severity v = Some s → s ≠ "" → _severity_of v = Py.upper s)
  ∧ (Py.truthy (f_severity v) = false →
     ∀ s, baseSeverity cvss = Some s → s ≠ "" → _severity_of v = Py.upper s)
  ∧ (∀ s, s ∈ severity_labels → Py.upper s = s)
  ∧ (Py.truthy (f_severity v) = false → Py.truthy (baseSeverity cvss) = false →
     ∀ score, as_number (baseScore cvss) = Some score →
       (9 <= score → _severity_of v = "CRITICAL")%Q
       ∧ (7 <= score → score < 9 → _severity_of v = "HIGH")%Q
       ∧ (4 <= score → score < 7 → _severity_of v = "MEDIUM")%Q
       ∧ (score < 4 → _severity_of v = "LOW")%Q)
  ∧ (Py.truthy (f_severity v) = false → Py.truthy (baseSeverity cvss) = false →
     as_number (baseScore cvss) = None → _severity_of v = "UNKNOWN").
Proof.
  intros cvss. unfold _severity_of. fold cvss.
  split; [|split; [|split; [apply upper_labels|split]]].
  - intros s -> Hs. unfold Py.or_empty. rewrite upper_truthy. by destruct s.
  - intros Hsev s Hbase Hs.
    assert (Py.truthy (Some (Py.upper (Py.or_empty (f_severity v)))) = false) as ->.
    { rewrite upper_truthy. by destruct (f_severity v) as [[|??]|]. }
    rewrite Hbase. unfold Py.or_empty. rewrite upper_truthy. by destruct s.
  - intros Hsev Hbase score Hscore.
    assert (Py.truthy (Some (Py.upper (Py.or_empty (f_severity v)))) = false) as ->.
    { rewrite upper_truthy. by destruct (f_severity v) as [[|??]|]. }
    assert (Py.truthy (Some (Py.upper (Py.or_empty (baseSeverity cvss)))) = false) as ->.
    { rewrite upper_truthy. by destruct (baseSeverity cvss) as [[|??]|]. }
    rewrite Hscore.
    destruct (Qle_bool 9 score) eqn:H9; [|destruct (Qle_bool 7 score) eqn:H7;
      [|destruct (Qle_bool 4 score) eqn:H4]];
      rewrite ?Qle_bool_iff in *;
      repeat match goal with
             | H : Qle_bool _ _ = false |- _ =>
                 apply not_true_iff_false in H; rewrite Qle_bool_iff in H;
                 apply Qnot_le_lt in H
             end;
      repeat split; intros; try done;
      exfalso; lra.
  - intros Hsev Hbase Hscore.
    assert (Py.truthy (Some (Py.upper (Py.or_empty (f_severity v)))) = false) as ->.
    { rewrite upper_truthy. by destruct (f_severity v) as [[|??]|]. }
    assert (Py.truthy (Some (Py.upper (Py.or_empty (baseSeverity cvss)))) = false) as ->.
    { rewrite upper_truthy. by destruct (baseSeverity cvss) as [[|??]|]. }
    by rewrite Hscore.
Qed.

(** What [_highest_severity] computes.  The aggregate of a group is the
    label of the highest rank under UNKNOWN(-1) < LOW(0) < MEDIUM(1) <
    HIGH(2) < CRITICAL(3), where a finding counts with its explicit label in
    upper case ([severity], else the [baseSeverity] of its [cvss]) and with
    UNKNOWN without one; a label outside the four ranked ones counts as
    UNKNOWN.  The aggregate of the empty group is UNKNOWN. *)
Lemma highest_severity_max_label (vulns : list Finding) :
  _highest_severity [] = "UNKNOWN"
  ∧ (_sev_order <$> (Some <$> severity_labels) = [-1; 0; 1; 2; 3]%Z)
  ∧ _highest_severity vulns ∈ severity_labels
  ∧ _sev_order (Some (_highest_severity vulns))
    = max_rank ((λ v, _sev_order (Some (group_label v))) <$> vulns)
  ∧ (∀ v, group_label v
          = Py.upper (Py.or_empty (Py.or (f_severity v)
              (Py.or (baseSeverity (cvss_or_empty (f_cvss v))) (Some "UNKNOWN"))))).
Proof.
  destruct (highest_severity_inv vulns) as (Hmax & Hrank & Hlabel).
  unfold _highest_severity. split; [done|]. split; [done|].
  split; [done|]. split; [congruence|done].
Qed.

(** C4. The aggregate is not the highest label that the per-finding
    classifier assigns: a finding whose only severity datum is the base
    score 9.8 is classified CRITICAL (rank 3) by [_severity_of], and the
    aggregate of the group made of it is UNKNOWN (rank -1), because
    [_highest_severity] reads the labels and never the score. *)
Lemma highest_severity_ignores_score :
  _severity_of finding_score_only = "CRITICAL"
  ∧ max_rank ((λ v, _sev_order (Some (_severity_of v))) <$> [finding_score_only]) = 3%Z
  ∧ _highest_severity [finding_score_only] = "UNKNOWN"
  ∧ _sev_order (Some (_highest_severity [finding_score_only])) = (-1)%Z.
Proof. by repeat split. Qed.

(** ** Report *)

Section report_facts.

Implicit Types (vs : list Finding) (c : nat * nat * nat * nat).

Lemma classified_snoc label vs v :
  classified label (vs ++ [v])
  = classified label vs + (if decide (_severity_of v = label) then 1 else 0).
Proof.
  unfold classified. rewrite filter_app, length_app. f_equal.
  rewrite filter_cons, filter_nil. by case_decide.
Qed.

Lemma count_loop vs :
  fold_left count_step vs (0, 0, 0, 0)
  = (classified "CRITICAL" vs, classified "HIGH" vs,
     classified "MEDIUM" vs, classified "LOW" vs).
Proof.
  induction vs as [|v vs IH] using rev_ind; [done|].
  rewrite fold_left_app, IH. simpl. unfold count_step.
  rewrite !classified_snoc.
  repeat case_bool_decide; repeat case_decide; try congruence;
    repeat f_equal; lia.
Qed.

Lemma classified_bound vs :
  classified "CRITICAL" vs + classified "HIGH" vs
  + classified "MEDIUM" vs + classified "LOW" vs ≤ length vs
  ∧ (classified "CRITICAL" vs + classified "HIGH" vs
     + classified "MEDIUM" vs + classified "LOW" vs = length vs
     ↔ Forall (λ v, _severity_of v ∈ ["CRITICAL"; "HIGH"; "MEDIUM"; "LOW"]) vs).
Proof.
  induction vs as [|v vs [IHle IHeq]] using rev_ind.
  - split; [done|]. split; [constructor|done].
  - rewrite !classified_snoc, length_app, Forall_app, Forall_singleton.
    rewrite !elem_of_cons, elem_of_nil. simpl.
    repeat case_decide; try congruence; (split; [lia|]);
      rewrite <- IHeq; split; try intros [? ?]; try tauto; try lia; split; try lia; auto.
Qed.

Lemma generate_report_counts self r :
  _generate_report self = Some r →
  report_vulnerabilities r = vulnerabilities self
  ∧ vulnerabilities_found (summary r) = length (vulnerabilities self)
  ∧ critical_count (summary r) = classified "CRITICAL" (vulnerabilities self)
  ∧ high_count (summary r) = classified "HIGH" (vulnerabilities self)
  ∧ medium_count (summary r) = classified "MEDIUM" (vulnerabilities self)
  ∧ low_count (summary r) = classified "LOW" (vulnerabilities self).
Proof.
  unfold _generate_report. rewrite count_loop.
  destruct (_generate_recommendations self) as [recs|]; [|done].
  simpl. by intros [= <-].
Qed.

End report_facts.

(** ** Cross-enrichment *)

Section enrichment_facts.

Context (net : Network).

Lemma apply_cve_metrics_cases f data :
  (no_metric_data data ∧ apply_cve_metrics f data = f)
  ∨ (¬ no_metric_data data ∧ ∃ c, apply_cve_metrics f data = set_cvss f c).
Proof.
  unfold no_metric_data, apply_cve_metrics.
  destruct (nvd_vulnerabilities data) as [|item ?]; [by left|].
  destruct (cvssMetricV31 _) as [|m ?], (cvssMetricV30 _) as [|m' ?];
    [by left|right..]; (split; [by intros []|eauto]).
Qed.

Lemma enrich_one_outcome f log :
  ∃ f' log', enrich_one net f log = (Some f', log') ∧ same_or_enriched net f f'.
Proof.
  unfold enrich_one.
  case_bool_decide as Hsrc; simpl; [|by eexists _, _; split; [|left]].
  destruct (Py.truthy (f_severity f)) eqn:Hsev; simpl;
    [by eexists _, _; split; [|left]|].
  destruct (cve_ids_of f) as [|cve rest] eqn:Hids;
    [by eexists _, _; split; [|left]|].
  unfold try_except, cve_by_id, request, mbind, M_bind, mret, M_ret.
  destruct (nvd_cve_by_id net log cve) as [data|] eqn:Hnet;
    [|by eexists _, _; split; [|left]].
  eexists _, _. split; [done|].
  destruct (apply_cve_metrics_cases f data) as [[_ ->]|[Hdata [c Hc]]]; [by left|].
  right. split; [done|]. split; [done|].
  exists cve, log, data. rewrite Hids. eauto 10.
Qed.

Lemma enrich_outcome items log :
  ∃ items' log', _enrich_osv_with_nvd net items log = (Some items', log')
                 ∧ Forall2 (same_or_enriched net) items items'.
Proof.
  revert log. induction items as [|f items IH]; intros log; simpl.
  - by eexists _, _.
  - destruct (enrich_one_outcome f log) as (f' & log1 & Hf & Hrel).
    destruct (IH log1) as (items' & log2 & Hitems & Hrels).
    exists (f' :: items'), log2.
    unfold mbind, M_bind at 1. rewrite Hf.
    unfold mbind, M_bind at 1. rewrite Hitems.
    split; [done|]. by constructor.
Qed.

Lemma apply_cve_metrics_first f data :
  apply_cve_metrics f data
  = match first_metric data with
    | None => f
    | Some m => set_cvss f (from_option CvssSet CvssNull (cvssData m))
    end.
Proof.
  unfold apply_cve_metrics, first_metric.
  destruct (nvd_vulnerabilities data) as [|item ?]; [done|]. simpl.
  by destruct (cvssMetricV31 _) as [|m ?], (cvssMetricV30 _) as [|m' ?].
Qed.

Lemma enrich_one_at f log :
  enrich_one net f log
  = (Some (enriched_at net log f),
     log ++ option_list (GetCveById <$> enrich_lookup f)).
Proof.
  unfold enrich_one, enriched_at, enrich_lookup.
  destruct (negb (bool_decide (f_source f = Some "OSV")) || Py.truthy (f_severity f));
    [simpl; by rewrite app_nil_r|].
  destruct (cve_ids_of f) as [|cve rest]; [simpl; by rewrite app_nil_r|].
  unfold try_except, cve_by_id, request, mbind, M_bind, mret, M_ret. simpl.
  by destruct (nvd_cve_by_id net log cve).
Qed.

Lemma log_before_cons log f items i :
  log_before log (f :: items) (S i)
  = log_before (log ++ option_list (GetCveById <$> enrich_lookup f)) items i.
Proof.
  unfold log_before. rewrite <- app_assoc. f_equal. cbn [take omap list_omap].
  by destruct (enrich_lookup f).
Qed.

Lemma enrich_at items log :
  _enrich_osv_with_nvd net items log
  = (Some (imap (λ i f, enriched_at net (log_before log items i) f) items),
     log_before log items (length items)).
Proof.
  revert log. induction items as [|f items IH]; intros log.
  - unfold log_before. simpl. by rewrite app_nil_r.
  - cbn [_enrich_osv_with_nvd]. unfold mbind, M_bind at 1. rewrite enrich_one_at.
    unfold mbind, M_bind at 1. rewrite IH. unfold mret, M_ret.
    rewrite imap_cons. cbn [length]. rewrite log_before_cons. f_equal. f_equal.
    f_equal.
    + unfold log_before. simpl. by rewrite app_nil_r.
    + apply imap_ext. intros i f' _. simpl. by rewrite log_before_cons.
Qed.

End enrichment_facts.

(** C9, as it is stated, fails: an answer whose metric entry has no data
    carries no usable metric data, and yet the finding comes out of the
    pass changed, with its [cvss] key set to [None]. *)
Lemma enrich_without_data_modifies :
  (_enrich_osv_with_nvd net_no_data [finding_first] []).1
  = Some [set_cvss finding_first CvssNull]
  ∧ set_cvss finding_first CvssNull ≠ finding_first
  ∧ (∀ log cve, nvd_cve_by_id net_no_data log cve ≫= usable_data = None)
  ∧ ¬ (∀ net items log items' i f f' cve,
         (_enrich_osv_with_nvd net items log).1 = Some items' →
         items !! i = Some f → items' !! i = Some f' →
         head (cve_ids_of f) = Some cve →
         nvd_cve_by_id net (log_before log items i) cve ≫= usable_data = None →
         f' = f).
Proof.
  split; [done|]. split; [done|]. split; [done|]. intros H.
  by specialize (H net_no_data [finding_first] [] _ 0 _ _ "CVE-2023-1255"
                   eq_refl eq_refl eq_refl eq_refl eq_refl).
Qed.

(** C9, amended. [_enrich_osv_with_nvd] never raises, whatever the registry
    answers or fails to answer, and it issues the look-ups one after the
    other, in the order of the findings.  A finding with a severity, or of
    the other source, or without a recoverable CVE identifier, is the same
    after the pass.  For an OSV finding without severity and with an
    identifier, what counts is the look-up as it is issued, after the
    look-ups of the earlier findings: when it fails, or answers without a
    vulnerability, or with a first vulnerability that has no entry under
    either metric key, the finding is the same after the pass; otherwise
    the finding is changed in its [cvss] key only, which is set to the data
    of the first entry (V3.1 before V3.0), and to [None] when that entry
    has no data. *)
Theorem enrich_best_effort (net : Network) (items : list Finding) (log : Log) :
  ∃ items',
    _enrich_osv_with_nvd net items log
    = (Some items', log_before log items (length items))
    ∧ length items' = length items
    ∧ ∀ i f f', items !! i = Some f → items' !! i = Some f' →
        (f_source f ≠ Some "OSV" ∨ Py.truthy (f_severity f) = true
         ∨ cve_ids_of f = [] → f' = f)
        ∧ ∀ cve,
            f_source f = Some "OSV" → Py.truthy (f_severity f) = false →
            head (cve_ids_of f) = Some cve →
            match nvd_cve_by_id net (log_before log items i) cve with
            | None => f' = f
            | Some data =>
                match first_metric data with
                | None => f' = f
                | Some m => f' = set_cvss f (from_option CvssSet CvssNull (cvssData m))
                end
            end.
Proof.
  eexists. split; [apply enrich_at|]. split; [apply length_imap|].
  intros i f f' Hf. rewrite list_lookup_imap, Hf. intros [= <-].
  unfold enriched_at, enrich_lookup. split.
  - intros [Hsrc|[Hsev|Hids]].
    + by rewrite bool_decide_eq_false_2.
    + by rewrite Hsev, orb_true_r.
    + rewrite Hids. by destruct (_ || _).
  - intros cve Hsrc Hsev Hcve.
    rewrite bool_decide_eq_true_2, Hsev, Hcve by done. simpl.
    destruct (nvd_cve_by_id net (log_before log items i) cve) as [data|]; [|done].
    rewrite apply_cve_metrics_first. by destruct (first_metric data).
Qed.

(** ** The pipeline *)

Section pipeline_facts.

Context (net : Network).

Lemma check_vulnerabilities_dedupes self log self' log' :
  _check_vulnerabilities net self log = (Some self', log') →
  ∃ findings, vulnerabilities self' = _dedupe_findings findings.
Proof.
  unfold _check_vulnerabilities.
  unfold mbind, M_bind at 1.
  destruct (extend_or_skip [] _ log) as [[fs1|] log1]; [|done].
  unfold mbind, M_bind at 1.
  destruct (extend_or_skip fs1 _ log1) as [[fs2|] log2]; [|done].
  unfold mbind, M_bind at 1.
  destruct (extend_or_skip fs2 _ log2) as [[fs3|] log3]; [|done].
  unfold mbind, M_bind at 1.
  destruct (_enrich_osv_with_nvd net fs3 log3) as [[fs4|] log4]; [|done].
  intros [= <- <-]. by exists fs4.
Qed.

Lemma offline_queries self log :
  offline self = true →
  _query_osv_for_system net self log = (Some [], log)
  ∧ _query_osv_for_submodules net self log = (Some [], log)
  ∧ _query_nvd_for_conan net self log = (Some [], log).
Proof.
  intros Hoff.
  unfold _query_osv_for_system, _query_osv_for_submodules, _query_nvd_for_conan.
  by rewrite Hoff.
Qed.

Lemma offline_check self log :
  offline self = true →
  _check_vulnerabilities net self log = (Some (with_vulnerabilities self []), log).
Proof.
  intros Hoff. destruct (offline_queries self log Hoff) as (Hsys & Hsub & Hconan).
  unfold _check_vulnerabilities, extend_or_skip, try_except, mbind, M_bind.
  rewrite Hsys. simpl. rewrite Hsub. simpl. by rewrite Hconan.
Qed.

End pipeline_facts.

(** C7. With the offline switch on, whatever the inventory, each of the
    three query operations returns the empty list and issues no request,
    and the whole run (enrichment, de-duplication, classification and
    report) issues no request either and ends, without raising, in a report
    with no finding, all counts at zero and no package recommendation. *)
Theorem offline_run (net : Network) (self : CVEChecker) (log : Log) :
  offline self = true →
  _query_osv_for_system net self log = (Some [], log)
  ∧ _query_osv_for_submodules net self log = (Some [], log)
  ∧ _query_nvd_for_conan net self log = (Some [], log)
  ∧ _enrich_osv_with_nvd net [] log = (Some [], log)
  ∧ _dedupe_findings [] = []
  ∧ run_security_check net self log
    = (Some {| summary := mkSummary 0 0 0 0 0;
               report_vulnerabilities := [];
               package_recommendations := [] |}, log).
Proof.
  intros Hoff. destruct (offline_queries net self log Hoff) as (Hsys & Hsub & Hconan).
  repeat (split; [done|]).
  unfold run_security_check, mbind, M_bind. by rewrite offline_check.
Qed.

(** C10. In the report of a run the findings are the de-duplicated ones,
    [vulnerabilities_found] is their number, and each of the four counts is
    the number of those that [_severity_of] classifies CRITICAL, HIGH,
    MEDIUM and LOW; a finding classified otherwise is in none of the four.
    So the four counts add up to at most [vulnerabilities_found], and to
    exactly that when and only when every finding is classified with one of
    the four labels. *)
Theorem report_counts (net : Network) (self : CVEChecker) (log log' : Log) (r : Report) :
  run_security_check net self log = (Some r, log') →
  let vs := report_vulnerabilities r in
  let s := summary r in
  (∃ findings, vs = _dedupe_findings findings)
  ∧ vulnerabilities_found s = length vs
  ∧ critical_count s = length (filter (λ v, _severity_of v = "CRITICAL") vs)
  ∧ high_count s = length (filter (λ v, _severity_of v = "HIGH") vs)
  ∧ medium_count s = length (filter (λ v, _severity_of v = "MEDIUM") vs)
  ∧ low_count s = length (filter (λ v, _severity_of v = "LOW") vs)
  ∧ critical_count s + high_count s + medium_count s + low_count s
    ≤ vulnerabilities_found s
  ∧ (critical_count s + high_count s + medium_count s + low_count s
     = vulnerabilities_found s
     ↔ Forall (λ v, _severity_of v ∈ ["CRITICAL"; "HIGH"; "MEDIUM"; "LOW"]) vs).
Proof.
  unfold run_security_check, mbind, M_bind, pure_call.
  destruct (_check_vulnerabilities net self log) as [[self'|] log1] eqn:Hcheck; [|done].
  intros [= Hreport <-].
  apply check_vulnerabilities_dedupes in Hcheck as [findings Hfindings].
  apply generate_report_counts in Hreport
    as (Hvs & Hfound & Hcrit & Hhigh & Hmed & Hlow).
  simpl. rewrite Hvs, Hfound, Hcrit, Hhigh, Hmed, Hlow.
  pose proof (classified_bound (vulnerabilities self')) as [Hle Heq].
  split; [by exists findings|]. by repeat (split; [done|]).
Qed.

(** ** Fixed versions *)

Section fixed_versions_facts.

Implicit Types (fixed : gset string) (r : OsvRange) (x : string).

Lemma add_if_truthy_elem o fixed x :
  x ∈ add_if_truthy o fixed ↔ x ∈ fixed ∨ holds o x.
Proof.
  unfold add_if_truthy, holds. destruct o as [[|c s]|].
  - split; [auto|]. intros [?|[[= <-] ?]]; done.
  - rewrite elem_of_union, elem_of_singleton. split.
    + intros [->|?]; auto.
    + intros [?|[[= <-] _]]; auto.
  - split; [auto|]. by intros [?|[? _]].
Qed.

Lemma fixed_events_elem events fixed x :
  x ∈ foldl (λ acc ev, add_if_truthy (ev_fixed ev) acc) fixed events
  ↔ x ∈ fixed ∨ ∃ ev, ev ∈ events ∧ holds (ev_fixed ev) x.
Proof.
  revert fixed. induction events as [|ev events IH]; intros fixed; simpl.
  - split; [auto|]. intros [?|(ev & []%elem_of_nil & _)]; done.
  - rewrite IH, add_if_truthy_elem. split.
    + intros [[?|?]|(ev' & ? & ?)]; auto.
      * right. exists ev. split; [left|done].
      * right. exists ev'. split; [by right|done].
    + intros [?|(ev' & [->|?]%elem_of_cons & ?)]; eauto.
Qed.

Lemma range_fixed_elem fixed r :
  rg_events r ≠ Some [] →
  ∃ fixed', range_fixed fixed r = Some fixed'
            ∧ ∀ x, x ∈ fixed' ↔ x ∈ fixed ∨ fixed_in r x ∨ last_limit_in r x.
Proof.
  unfold range_fixed, fixed_in, last_limit_in, range_events.
  destruct (rg_events r) as [events|]; simpl; intros Hne.
  - destruct (last events) as [ev|] eqn:Hlast.
    + eexists. split; [done|]. intros x.
      rewrite add_if_truthy_elem, fixed_events_elem. split.
      * intros [[?|?]|?]; eauto 6.
      * intros [?|[?|(ev' & [= <-] & ?)]]; auto.
    + apply last_None in Hlast. by subst.
  - eexists. split; [done|]. intros x. split; [auto|].
    intros [?|[(ev & []%elem_of_nil & _)|(ev & [=] & _)]]. done.
Qed.

Lemma ranges_fixed_elem ranges fixed :
  Forall (λ r, rg_events r ≠ Some []) ranges →
  ∃ fixed', foldM range_fixed fixed ranges = Some fixed'
            ∧ ∀ x, x ∈ fixed' ↔
                x ∈ fixed ∨ ∃ r, r ∈ ranges ∧ (fixed_in r x ∨ last_limit_in r x).
Proof.
  revert fixed. induction ranges as [|r ranges IH]; intros fixed Hall; simpl.
  - eexists. split; [done|]. intros x. split; [auto|].
    intros [?|(r & []%elem_of_nil & _)]. done.
  - apply Forall_cons in Hall as [Hr Hall].
    destruct (range_fixed_elem fixed r Hr) as (fixed1 & -> & H1). simpl.
    destruct (IH fixed1 Hall) as (fixed2 & -> & H2).
    eexists. split; [done|]. intros x. rewrite H2, H1. split.
    + intros [[?|?]|(r' & ? & ?)]; auto.
      * right. exists r. split; [left|done].
      * right. exists r'. split; [by right|done].
    + intros [?|(r' & [->|?]%elem_of_cons & ?)]; eauto.
Qed.

Lemma affected_fixed_elem affected fixed :
  Forall (λ r, rg_events r ≠ Some []) (affected ≫= aff_ranges) →
  ∃ fixed', foldM (λ acc aff, foldM range_fixed acc (aff_ranges aff)) fixed affected
            = Some fixed'
            ∧ ∀ x, x ∈ fixed' ↔
                x ∈ fixed
                ∨ ∃ r, r ∈ affected ≫= aff_ranges ∧ (fixed_in r x ∨ last_limit_in r x).
Proof.
  revert fixed. induction affected as [|aff affected IH]; intros fixed Hall; simpl.
  - eexists. split; [done|]. intros x. split; [auto|].
    intros [?|(r & []%elem_of_nil & _)]. done.
  - rewrite bind_cons in Hall. apply Forall_app in Hall as [Haff Hall].
    destruct (ranges_fixed_elem (aff_ranges aff) fixed Haff) as (fixed1 & -> & H1).
    simpl. destruct (IH fixed1 Hall) as (fixed2 & -> & H2).
    eexists. split; [done|]. intros x. rewrite H2, H1, ?bind_cons. split.
    + intros [[?|(r & ? & ?)]|(r & ? & ?)]; auto.
      * right. exists r. rewrite elem_of_app. auto.
      * right. exists r. rewrite elem_of_app. auto.
    + intros [?|(r & [?|?]%elem_of_app & ?)]; eauto.
Qed.

Lemma sorted_set_elem (s : gset string) x :
  x ∈ merge_sort String.le (elements s) ↔ x ∈ s.
Proof. by rewrite merge_sort_Permutation, elem_of_elements. Qed.

Lemma sorted_set_NoDup (s : gset string) : NoDup (merge_sort String.le (elements s)).
Proof. rewrite merge_sort_Permutation. apply NoDup_elements. Qed.

Lemma sorted_set_Sorted (s : gset string) :
  Sorted String.le (merge_sort String.le (elements s)).
Proof. apply (Sorted_merge_sort String.le). Qed.

End fixed_versions_facts.

(** [_osv_fixed_versions] raises on a range whose list of events is there
    and empty. *)
Lemma osv_fixed_versions_empty_events :
  _osv_fixed_versions finding_empty_events = None.
Proof. reflexivity. Qed.

(** C8, as it is stated, fails: the limit of the last event of a range is a
    candidate although an event of that range has a fixed value. *)
Lemma fixed_versions_limit_beside_fixed :
  _osv_fixed_versions finding_fixed_and_limit = Some ["1.2.13"; "2.0"]
  ∧ all_ranges finding_fixed_and_limit = [range_fixed_and_limit]
  ∧ fixed_in range_fixed_and_limit "1.2.13"
  ∧ ¬ fixed_in range_fixed_and_limit "2.0"
  ∧ ¬ (∀ v candidates x,
         _osv_fixed_versions v = Some candidates →
         x ∈ candidates ↔
           ∃ r, r ∈ all_ranges v
                ∧ (fixed_in r x ∨ ((¬ ∃ y, fixed_in r y) ∧ last_limit_in r x))).
Proof.
  assert (fixed_in range_fixed_and_limit "1.2.13") as Hfixed.
  { exists (mkEvent (Some "1.2.13") None). split; [left|done]. }
  assert (¬ fixed_in range_fixed_and_limit "2.0") as Hnot.
  { intros (ev & Hev & Hx & _). simpl in Hev.
    apply elem_of_cons in Hev as [->|Hev]; [done|].
    apply elem_of_cons in Hev as [->|Hev]; [done|]. by apply elem_of_nil in Hev. }
  split; [by vm_compute|]. split; [done|]. split; [done|]. split; [done|].
  intros H.
  specialize (H finding_fixed_and_limit ["1.2.13"; "2.0"] "2.0" ltac:(by vm_compute)).
  destruct H as [H _].
  destruct H as (r & Hr & Hcase); [set_solver|].
  change (all_ranges finding_fixed_and_limit) with [range_fixed_and_limit] in Hr.
  apply list_elem_of_singleton in Hr as ->.
  destruct Hcase as [?|[Hno _]]; [done|]. apply Hno. eauto.
Qed.

(** C8, amended. For a finding all of whose ranges have a list of events
    that is missing or not empty, [_osv_fixed_versions] returns the list,
    without duplicates and sorted in lexicographic order, of every explicit
    fixed value of an event of a range together with the limit of the last
    event of every range, whether or not the range has a fixed value. *)
Theorem osv_fixed_versions_candidates (v : Finding) :
  Forall (λ r, rg_events r ≠ Some []) (all_ranges v) →
  ∃ candidates,
    _osv_fixed_versions v = Some candidates
    ∧ NoDup candidates
    ∧ Sorted String.le candidates
    ∧ ∀ x, x ∈ candidates ↔
        ∃ r, r ∈ all_ranges v ∧ (fixed_in r x ∨ last_limit_in r x).
Proof.
  intros Hall. unfold _osv_fixed_versions.
  destruct (affected_fixed_elem (f_affected v) ∅ Hall) as (fixed & -> & Hfixed).
  simpl. eexists. split; [done|].
  split; [apply sorted_set_NoDup|]. split; [apply sorted_set_Sorted|].
  intros x. rewrite sorted_set_elem, Hfixed. unfold all_ranges. split.
  - by intros [[]%not_elem_of_empty|?].
  - auto.
Qed.

(** ** Identifier mapper *)

Section cpe_facts.

Implicit Types (s w : string) (l parts : list string).

Lemma split_colon_cons c s :
  Py.split_colon (String c s)
  = if Ascii.eqb c ":"%char then "" :: Py.split_colon s
    else match Py.split_colon s with
         | w :: ws => String c w :: ws
         | [] => [String c ""]
         end.
Proof. done. Qed.

Lemma split_colon_no_colon s : Forall no_colon (Py.split_colon s).
Proof.
  induction s as [|c s IH]; [by repeat constructor|].
  rewrite split_colon_cons. destruct (Ascii.eqb c ":"%char) eqn:Hc.
  - by constructor.
  - rewrite Ascii.eqb_sym in Hc.
    destruct (Py.split_colon s) as [|w ws].
    + repeat constructor. unfold no_colon. cbn [Py.mem_char]. by rewrite Hc.
    + apply Forall_cons in IH as [Hw Hws]. constructor; [|done].
      unfold no_colon in *. cbn [Py.mem_char]. by rewrite Hw, Hc.
Qed.

Lemma split_colon_word w : no_colon w → Py.split_colon w = [w].
Proof.
  unfold no_colon. induction w as [|c w IH]; [done|]. cbn [Py.mem_char].
  intros [Hc Hw]%orb_false_iff.
  rewrite split_colon_cons, Ascii.eqb_sym, Hc. by rewrite (IH Hw).
Qed.

Lemma split_colon_app w s :
  no_colon w → Py.split_colon (w +:+ String ":"%char s) = w :: Py.split_colon s.
Proof.
  unfold no_colon. induction w as [|c w IH]; [done|]. cbn [Py.mem_char].
  intros [Hc Hw]%orb_false_iff.
  change (String c w +:+ String ":"%char s) with (String c (w +:+ String ":"%char s)).
  rewrite split_colon_cons, Ascii.eqb_sym, Hc. by rewrite (IH Hw).
Qed.

Lemma split_join_colon l :
  l ≠ [] → Forall no_colon l → Py.split_colon (Py.join_colon l) = l.
Proof.
  induction l as [|w l IH]; [done|]. intros _ [Hw Hl]%Forall_cons.
  destruct l as [|w' l]; [by apply split_colon_word|].
  change (Py.join_colon (w :: w' :: l))
    with (w +:+ String ":"%char (Py.join_colon (w' :: l))).
  rewrite split_colon_app by done. by rewrite IH.
Qed.

Lemma cpe_best_Some name_l candidates parts :
  cpe_best name_l candidates = Some parts →
  5 ≤ length parts
  ∧ ∃ item cpe23, item ∈ candidates ∧ cpeName item = Some cpe23
                  ∧ parts = Py.split_colon cpe23
                  ∧ cpe_matches name_l parts = true.
Proof.
  induction candidates as [|item rest IH]; [done|]. cbn [cpe_best].
  destruct (cpeName item) as [[|c s]|] eqn:Hname;
    try (intros (? & item' & ? & ? & ?)%IH; split; [done|];
         exists item'; eexists; split; [by right|done]).
  destruct (cpe_matches name_l (Py.split_colon (String c s))) eqn:Hmatch.
  - intros [= Hparts]. subst parts. split.
    + unfold cpe_matches in Hmatch.
      apply andb_true_iff in Hmatch as [[H5 _]%andb_true_iff _].
      by apply bool_decide_eq_true in H5.
    + exists item, (String c s). split; [left|done].
  - intros (? & item' & ? & ? & ?)%IH. split; [done|].
    exists item'. eexists. split; [by right|done].
Qed.

Lemma cpe_inject_fields parts version :
  Forall no_colon parts → no_colon version →
  let fields := Py.split_colon (cpe_inject parts version) in
  length fields = 13
  ∧ fields !! 5 = Some (if bool_decide (version = "") then "*" else version)
  ∧ ∀ i, i < 13 → i ≠ 5 → fields !! i = Some (default "*" (parts !! i)).
Proof.
  intros Hparts Hversion. unfold cpe_inject.
  set (v := if bool_decide (version = "") then "*" else version).
  set (padded := parts ++ replicate (13 - length parts) "*").
  assert (13 ≤ length padded) as Hlen.
  { unfold padded. rewrite length_app, length_replicate. lia. }
  assert (no_colon v) as Hv by (unfold v; by case_bool_decide).
  assert (Forall no_colon padded) as Hpadded.
  { unfold padded. apply Forall_app. split; [done|]. by apply Forall_replicate. }
  assert (length (take 13 (<[5:=v]> padded)) = 13) as Hlen13.
  { rewrite length_take, length_insert. lia. }
  rewrite split_join_colon.
  - simpl. split; [done|]. split.
    + rewrite lookup_take_lt by lia. apply list_lookup_insert_eq. lia.
    + intros i Hi Hne. rewrite lookup_take_lt by lia.
      rewrite list_lookup_insert_ne by done. unfold padded.
      destruct (decide (i < length parts)) as [Hlt|Hge].
      * rewrite lookup_app_l by done.
        by destruct (lookup_lt_is_Some_2 parts i Hlt) as [w ->].
      * rewrite lookup_app_r by lia. rewrite (lookup_ge_None_2 parts) by lia.
        simpl. apply lookup_replicate_2. lia.
  - intros Hnil. by rewrite Hnil in Hlen13.
  - apply Forall_take. by apply Forall_insert.
Qed.

End cpe_facts.

(** C6. [guess_cpe_for_conan] does not keep the promise of its own last
    comment, thirteen fields with the version in field 5: it writes the
    version among the fields as it is and joins them with colons.  For the
    version 1:1.2.13, which [_collect_conan_dependencies] reads from the
    manifest line zlib/1:1.2.13, the identifier has fourteen fields and
    its field 5 is 1; [_query_nvd_for_conan] sends that identifier to the
    registry. *)
Lemma cpe_version_with_colon :
  (guess_cpe_for_conan net_zlib "zlib" "1:1.2.13" []).1
  = Some (Some "cpe:2.3:a:zlib:zlib:1:1.2.13:*:*:*:*:*:*:*")
  ∧ length (Py.split_colon "cpe:2.3:a:zlib:zlib:1:1.2.13:*:*:*:*:*:*:*") = 14
  ∧ Py.split_colon "cpe:2.3:a:zlib:zlib:1:1.2.13:*:*:*:*:*:*:*" !! 5 = Some "1"
  ∧ conan (dependencies checker_colon) = [("zlib", mkDep (Some "1:1.2.13") None)]
  ∧ (_query_nvd_for_conan net_zlib checker_colon []).2
    = [GetCpeSearch "zlib";
       GetCvesByCpe "cpe:2.3:a:zlib:zlib:1:1.2.13:*:*:*:*:*:*:*"]
  ∧ ¬ (∀ net name version log cpe,
         (guess_cpe_for_conan net name version log).1 = Some (Some cpe) →
         length (Py.split_colon cpe) = 13).
Proof.
  split; [done|]. split; [done|]. split; [done|].
  split; [by vm_compute|]. split; [by vm_compute|].
  intros H. by specialize (H net_zlib "zlib" "1:1.2.13" [] _ eq_refl).
Qed.

(** What [guess_cpe_for_conan] does guarantee.  When the version has no
    colon, every identifier that it returns has exactly 13 colon-delimited
    fields; field 5 is the version, or ["*"] when the version is empty;
    every other field is the field at that place of the candidate it was
    made from, a product of the search with at least five fields, or ["*"]
    beyond the fields of that candidate. *)
Theorem guess_cpe_well_formed (net : Network) (name version : string)
    (log log' : Log) (cpe : string) :
  guess_cpe_for_conan net name version log = (Some (Some cpe), log') →
  no_colon version →
  ∃ candidates item cpe23,
    nvd_cpe_search net log name = Some candidates
    ∧ item ∈ candidates
    ∧ cpeName item = Some cpe23
    ∧ 5 ≤ length (Py.split_colon cpe23)
    ∧ length (Py.split_colon cpe) = 13
    ∧ Py.split_colon cpe !! 5
      = Some (if bool_decide (version = "") then "*" else version)
    ∧ ∀ i, i < 13 → i ≠ 5 →
        Py.split_colon cpe !! i = Some (default "*" (Py.split_colon cpe23 !! i)).
Proof.
  unfold guess_cpe_for_conan, try_except, find_cpe_candidates, request.
  unfold fmap, M_fmap, mbind, M_bind, mret, M_ret.
  destruct (nvd_cpe_search net log name) as [candidates|] eqn:Hsearch; [|done].
  destruct (cpe_best (Py.lower name) candidates) as [[|p parts]|] eqn:Hbest;
    [done| |done].
  intros [= <- <-] Hversion.
  apply cpe_best_Some in Hbest as (Hlen & item & cpe23 & Hitem & Hname & Hparts & _).
  exists candidates, item, cpe23. rewrite <- Hparts.
  repeat (split; [done|]).
  apply cpe_inject_fields; [|done]. rewrite Hparts. apply split_colon_no_colon.
Qed.


(** ** The theorems at work on the sample data *)

Lemma osv_severity_last_match_witness :
  provides (mkSeverity (Some "LOW"))
  ∧ last_provided ([mkSeverity (Some "HIGH")] ++ mkSeverity (Some "LOW") :: [])
    = Some "LOW".
Proof.
  split; [reflexivity|].
  destruct (osv_severity_last_match resp_two_severities []) as (_ & _ & Hlast & _).
  apply (Hlast [mkSeverity (Some "HIGH")] (mkSeverity (Some "LOW")) []).
  - reflexivity.
  - constructor.
Defined.

Lemma dedupe_keeps_first_occurrences_witness :
  identity_key finding_later ∈ identity_key <$> [finding_first]
  ∧ _dedupe_findings ([finding_first] ++ finding_later :: [finding_no_id])
    = _dedupe_findings ([finding_first] ++ [finding_no_id]).
Proof.
  assert (identity_key finding_later ∈ identity_key <$> [finding_first]) as Hin.
  { simpl. left. }
  split; [exact Hin|].
  destruct (dedupe_keeps_first_occurrences [finding_first; finding_later; finding_no_id])
    as (_ & _ & _ & Hdrop & _).
  apply (Hdrop [finding_first] finding_later [finding_no_id] Hin).
Defined.

Lemma severity_of_classifies_witness :
  Py.truthy (f_severity finding_score_only) = false
  ∧ Py.truthy (baseSeverity (cvss_or_empty (f_cvss finding_score_only))) = false
  ∧ as_number (baseScore (cvss_or_empty (f_cvss finding_score_only))) = Some (98 # 10)
  ∧ (9 <= 98 # 10)%Q
  ∧ _severity_of finding_score_only = "CRITICAL".
Proof.
  assert (9 <= 98 # 10)%Q as H9 by (unfold Qle; simpl; lia).
  split; [reflexivity|]. split; [reflexivity|]. split; [reflexivity|].
  split; [exact H9|].
  destruct (severity_of_classifies finding_score_only) as (_ & _ & _ & Hscore & _).
  destruct (Hscore eq_refl eq_refl (98 # 10) eq_refl) as (Hcrit & _).
  exact (Hcrit H9).
Defined.

Lemma guess_cpe_well_formed_witness :
  guess_cpe_for_conan net_zlib "zlib" "1.2.13" []
  = (Some (Some "cpe:2.3:a:zlib:zlib:1.2.13:*:*:*:*:*:*:*"), [GetCpeSearch "zlib"])
  ∧ no_colon "1.2.13"
  ∧ length (Py.split_colon "cpe:2.3:a:zlib:zlib:1.2.13:*:*:*:*:*:*:*") = 13
  ∧ Py.split_colon "cpe:2.3:a:zlib:zlib:1.2.13:*:*:*:*:*:*:*" !! 5 = Some "1.2.13".
Proof.
  split; [reflexivity|]. split; [reflexivity|].
  destruct (guess_cpe_well_formed net_zlib "zlib" "1.2.13" [] [GetCpeSearch "zlib"]
              "cpe:2.3:a:zlib:zlib:1.2.13:*:*:*:*:*:*:*" eq_refl eq_refl)
    as (candidates & item & cpe23 & _ & _ & _ & _ & Hlen & H5 & _).
  split; [exact Hlen|exact H5].
Defined.

Lemma offline_run_witness :
  offline checker_offline = true
  ∧ run_security_check net_sample checker_offline []
    = (Some {| summary := mkSummary 0 0 0 0 0;
               report_vulnerabilities := [];
               package_recommendations := [] |}, []).
Proof.
  split; [reflexivity|].
  apply (offline_run net_sample checker_offline [] eq_refl).
Defined.

Lemma osv_fixed_versions_candidates_witness :
  Forall (λ r, rg_events r ≠ Some []) (all_ranges finding_fixed_and_limit)
  ∧ ∃ candidates,
      _osv_fixed_versions finding_fixed_and_limit = Some candidates
      ∧ NoDup candidates
      ∧ Sorted String.le candidates
      ∧ ∀ x, x ∈ candidates ↔
          ∃ r, r ∈ all_ranges finding_fixed_and_limit
               ∧ (fixed_in r x ∨ last_limit_in r x).
Proof.
  assert (Forall (λ r, rg_events r ≠ Some []) (all_ranges finding_fixed_and_limit))
    as Hall.
  { repeat constructor. simpl. discriminate. }
  split; [exact Hall|].
  exact (osv_fixed_versions_candidates finding_fixed_and_limit Hall).
Defined.

Lemma enrich_best_effort_witness :
  (_enrich_osv_with_nvd net_flaky [finding_first; finding_first] []).1
  = Some [set_cvss finding_first (CvssSet (mkCvss None (SNum (75 # 10))));
          finding_first]
  ∧ ∃ items',
      _enrich_osv_with_nvd net_flaky [finding_first; finding_first] []
      = (Some items', log_before [] [finding_first; finding_first] 2)
      ∧ length items' = 2
      ∧ ∀ i f f', [finding_first; finding_first] !! i = Some f →
          items' !! i = Some f' →
          (f_source f ≠ Some "OSV" ∨ Py.truthy (f_severity f) = true
           ∨ cve_ids_of f = [] → f' = f)
          ∧ ∀ cve,
              f_source f = Some "OSV" → Py.truthy (f_severity f) = false →
              head (cve_ids_of f) = Some cve →
              match nvd_cve_by_id net_flaky
                      (log_before [] [finding_first; finding_first] i) cve with
              | None => f' = f
              | Some data =>
                  match first_metric data with
                  | None => f' = f
                  | Some m =>
                      f' = set_cvss f (from_option CvssSet CvssNull (cvssData m))
                  end
              end.
Proof.
  split; [reflexivity|].
  exact (enrich_best_effort net_flaky [finding_first; finding_first] []).
Defined.

Lemma report_counts_witness :
  ∃ r log',
    run_security_check net_sample checker_online [] = (Some r, log')
    ∧ vulnerabilities_found (summary r) = 1
    ∧ high_count (summary r)
      = length (filter (λ v, _severity_of v = "HIGH") (report_vulnerabilities r))
    ∧ critical_count (summary r) + high_count (summary r)
      + medium_count (summary r) + low_count (summary r)
      ≤ vulnerabilities_found (summary r).
Proof.
  destruct (run_security_check net_sample checker_online []) as [[r|] log'] eqn:Hrun;
    [|exfalso; vm_compute in Hrun; discriminate Hrun].
  exists r, log'. split; [reflexivity|].
  destruct (report_counts net_sample checker_online [] log' r Hrun)
    as (_ & Hfound & _ & Hhigh & _ & _ & Hle & _).
  split; [|split; [exact Hhigh|exact Hle]].
  vm_compute in Hrun. injection Hrun as <- _. reflexivity.
Defined.

(** * Further properties *)

(** ** The pipeline never raises *)

Section check_facts.

Context (net : Network).

Lemma extend_or_skip_returns findings (query : M (list Finding)) log :
  ∃ findings' log', extend_or_skip findings query log = (Some findings', log').
Proof.
  unfold extend_or_skip, try_except, mbind, M_bind, mret, M_ret.
  destruct (query log) as [[found|] log1]; eauto.
Qed.

Lemma check_vulnerabilities_outcome self log :
  ∃ findings log',
    _check_vulnerabilities net self log
    = (Some (with_vulnerabilities self (_dedupe_findings findings)), log').
Proof.
  unfold _check_vulnerabilities.
  destruct (extend_or_skip_returns [] (_query_osv_for_system net self) log)
    as (fs1 & log1 & H1).
  destruct (extend_or_skip_returns fs1 (_query_osv_for_submodules net self) log1)
    as (fs2 & log2 & H2).
  destruct (extend_or_skip_returns fs2 (_query_nvd_for_conan net self) log2)
    as (fs3 & log3 & H3).
  destruct (enrich_outcome net fs3 log3) as (fs4 & log4 & H4 & _).
  exists fs4, log4.
  unfold mbind, M_bind at 1. rewrite H1.
  unfold mbind, M_bind at 1. rewrite H2.
  unfold mbind, M_bind at 1. rewrite H3.
  unfold mbind, M_bind at 1. by rewrite H4.
Qed.

End check_facts.

(** X1. [_check_vulnerabilities] returns for every inventory and whatever
    the two services answer or fail to answer: it never raises; it leaves
    the switch, the ecosystem and the inventory of the checker as they
    were, and the findings it stores have pairwise distinct identity
    keys. *)
Theorem check_vulnerabilities_never_raises (net : Network) (self : CVEChecker) (log : Log) :
  ∃ self' log',
    _check_vulnerabilities net self log = (Some self', log')
    ∧ offline self' = offline self
    ∧ ecosystem self' = ecosystem self
    ∧ dependencies self' = dependencies self
    ∧ NoDup (identity_key <$> vulnerabilities self').
Proof.
  destruct (check_vulnerabilities_outcome net self log) as (findings & log' & Hrun).
  eexists _, log'. split; [exact Hrun|]. simpl.
  repeat (split; [done|]). apply dedupe_NoDup.
Qed.

(** ** What cross-enrichment requests and what it leaves alone *)

Section enrichment_log_facts.

Context (net : Network).

Lemma omap_length_le {A B} (g : A → option B) (l : list A) :
  length (omap g l) ≤ length l.
Proof.
  induction l as [|x l IH]; [done|].
  cbn [omap list_omap length]. destruct (g x); cbn [length]; lia.
Qed.

Lemma cve_ids_startswith f :
  Forall (λ cve, Py.startswith "CVE-" cve = true) (cve_ids_of f).
Proof.
  unfold cve_ids_of.
  assert (Forall (λ cve, Py.startswith "CVE-" cve = true)
            (filter (λ a, Py.startswith "CVE-" a = true) (f_aliases f))) as Hall.
  { apply Forall_forall. by intros cve [? _]%list_elem_of_filter. }
  destruct (filter _ (f_aliases f)) as [|a ids]; [|done].
  destruct (ubuntu_cve_match _) as [group|]; [by repeat constructor|].
  destruct (Py.startswith "CVE-" _) eqn:Hid; by repeat constructor.
Qed.

Lemma enrich_lookup_startswith f cve :
  enrich_lookup f = Some cve → Py.startswith "CVE-" cve = true.
Proof.
  unfold enrich_lookup. destruct (_ || _); [done|].
  pose proof (cve_ids_startswith f) as Hall.
  destruct (cve_ids_of f) as [|c ids]; [done|]. intros [= <-].
  by apply Forall_cons in Hall as [? _].
Qed.

Lemma enrich_one_log f log :
  (enrich_one net f log).2 = log ++ (GetCveById <$> option_list (enrich_lookup f)).
Proof.
  unfold enrich_one, enrich_lookup.
  destruct (_ || _); simpl; [by rewrite app_nil_r|].
  destruct (cve_ids_of f) as [|cve ids]; simpl; [by rewrite app_nil_r|].
  unfold try_except, cve_by_id, request, mbind, M_bind, mret, M_ret.
  by destruct (nvd_cve_by_id net log cve).
Qed.

Lemma enrich_log items log :
  (_enrich_osv_with_nvd net items log).2
  = log ++ (GetCveById <$> omap enrich_lookup items).
Proof.
  revert log. induction items as [|f items IH]; intros log; simpl.
  - by rewrite app_nil_r.
  - destruct (enrich_one_outcome net f log) as (f' & log1 & Hf & _).
    pose proof (enrich_one_log f log) as Hlog1. rewrite Hf in Hlog1. simpl in Hlog1.
    destruct (enrich_outcome net items log1) as (items' & log2 & Hitems & _).
    pose proof (IH log1) as Hlog2. rewrite Hitems in Hlog2. simpl in Hlog2.
    unfold mbind, M_bind at 1. rewrite Hf.
    unfold mbind, M_bind at 1. rewrite Hitems. simpl. subst log1 log2.
    rewrite <- app_assoc. f_equal.
    destruct (enrich_lookup f); by simpl.
Qed.

Lemma same_or_enriched_but_cvss f f' : same_or_enriched net f f' → same_but_cvss f f'.
Proof.
  unfold same_but_cvss.
  intros [->|(_ & _ & cve & log & data & _ & _ & _ & _ & c & ->)]; by destruct f.
Qed.

Lemma same_but_cvss_key f f' : same_but_cvss f f' → identity_key f = identity_key f'.
Proof. unfold same_but_cvss. by intros ->. Qed.

Lemma dedupe_fold_rel (R : Finding → Finding → Prop) items items' :
  (∀ f f', R f f' → identity_key f = identity_key f') →
  Forall2 R items items' →
  ∀ seen out out', Forall2 R out out' →
    Forall2 R (fold_left dedupe_step items (seen, out)).2
              (fold_left dedupe_step items' (seen, out')).2.
Proof.
  intros Hkey. induction 1 as [|f f' items items' Hf _ IH]; intros seen out out' Hout;
    [done|].
  simpl. unfold dedupe_step at 2 4. simpl. rewrite <- (Hkey f f' Hf).
  case_decide; apply IH; [done|]. apply Forall2_app; [done|]. by constructor.
Qed.

Lemma Forall2_same_key items items' :
  Forall2 same_but_cvss items items' →
  identity_key <$> items = identity_key <$> items'.
Proof.
  induction 1 as [|f f' items items' Hf _ IH]; [done|].
  by rewrite !fmap_cons, IH, (same_but_cvss_key f f' Hf).
Qed.

End enrichment_log_facts.

(** X2. The requests of [_enrich_osv_with_nvd] do not depend on what the
    registry answers: the pass appends to the log one look-up, and nothing
    else, for each OSV finding without severity for which an identifier is
    recovered, in the order of the findings; every identifier it looks up
    starts with ["CVE-"]; there are at most as many look-ups as findings. *)
Theorem enrich_requests (net : Network) (items : list Finding) (log : Log) :
  (_enrich_osv_with_nvd net items log).2
  = log ++ (GetCveById <$> omap enrich_lookup items)
  ∧ Forall (λ cve, Py.startswith "CVE-" cve = true) (omap enrich_lookup items)
  ∧ length (omap enrich_lookup items) ≤ length items.
Proof.
  split; [apply enrich_log|]. split.
  - apply Forall_forall. intros cve (f & _ & Hf)%list_elem_of_omap.
    by eapply enrich_lookup_startswith.
  - apply omap_length_le.
Qed.

(** X3. Cross-enrichment touches nothing but the [cvss] key, so it has no
    say in de-duplication: the findings that survive [_dedupe_findings]
    after the pass are the ones that survive it without the pass, in the
    same order and up to their [cvss] key, with the same identity keys. *)
Theorem enrich_then_dedupe (net : Network) (items : list Finding) (log : Log) :
  ∃ items' log',
    _enrich_osv_with_nvd net items log = (Some items', log')
    ∧ Forall2 same_but_cvss items items'
    ∧ Forall2 same_but_cvss (_dedupe_findings items) (_dedupe_findings items')
    ∧ identity_key <$> _dedupe_findings items' = identity_key <$> _dedupe_findings items.
Proof.
  destruct (enrich_outcome net items log) as (items' & log' & Hrun & Hrel).
  exists items', log'. split; [done|].
  assert (Forall2 same_but_cvss items items') as Hsame.
  { eapply Forall2_impl; [done|]. apply same_or_enriched_but_cvss. }
  assert (Forall2 same_but_cvss (_dedupe_findings items) (_dedupe_findings items'))
    as Hdedupe.
  { unfold _dedupe_findings.
    apply (dedupe_fold_rel same_but_cvss); [apply same_but_cvss_key|done|constructor]. }
  split; [done|]. split; [done|]. symmetry. by apply Forall2_same_key.
Qed.

(** ** Attribution of the batch findings *)

Section attribution_facts.

Lemma Forall2_fmap_same {A B C} (P : B → C → Prop) (g : A → B) (h : A → C) (l : list A) :
  (∀ x, x ∈ l → P (g x) (h x)) → Forall2 P (g <$> l) (h <$> l).
Proof.
  induction l as [|x l IH]; intros HP; [constructor|].
  rewrite !fmap_cons. constructor; [apply HP; left|].
  apply IH. intros y Hy. apply HP. by right.
Qed.

Lemma Forall2_join_imap {A B C} (P : B → C → Prop)
    (g : nat → A → list B) (h : nat → A → list C) (l : list A) :
  (∀ i x, l !! i = Some x → Forall2 P (g i x) (h i x)) →
  Forall2 P (mjoin (imap g l)) (mjoin (imap h l)).
Proof.
  revert g h. induction l as [|x l IH]; intros g h HP; [constructor|].
  rewrite !imap_cons. simpl. apply Forall2_app; [by apply (HP 0)|].
  apply IH. intros i y Hy. by apply (HP (S i)).
Qed.

Lemma length_join_imap {A B} (g : nat → A → list B) (len : A → nat) (l : list A) :
  (∀ i x, length (g i x) = len x) →
  length (mjoin (imap g l)) = sum_list (len <$> l).
Proof.
  revert g. induction l as [|x l IH]; intros g Hlen; [done|].
  rewrite imap_cons, fmap_cons. simpl. rewrite length_app, Hlen. f_equal.
  apply IH. intros i y. apply Hlen.
Qed.

End attribution_facts.

(** X4. [_osv_results_to_findings] emits one finding per vulnerability
    entry, in the order of the response, so a result without entries gives
    no finding.  The finding of an entry under the result at position [idx]
    copies the id, the summary, the aliases and the affected ranges of the
    entry and the urls of its references, and is attributed by position:
    to the tuple of [meta] at [idx] when there is one and its name is not
    empty, and otherwise, name, ecosystem and version together, to the
    package embedded in the result. *)
Theorem osv_findings_attribution (resp : OsvBatchResp)
    (meta : list (string * string * string)) :
  length (_osv_results_to_findings resp meta)
  = sum_list ((λ res, length (res_vulns res)) <$> results resp)
  ∧ Forall2 (λ f '(idx, res, v),
       results resp !! idx = Some res
       ∧ v ∈ res_vulns res
       ∧ f_source f = Some "OSV"
       ∧ f_id f = vuln_id v
       ∧ f_summary f = vuln_summary v
       ∧ f_references f = ref_url <$> vuln_references v
       ∧ f_aliases f = vuln_aliases v
       ∧ f_affected f = vuln_affected v
       ∧ (∀ name eco ver, meta !! idx = Some (name, eco, ver) → name ≠ "" →
            f_package f = Some name ∧ f_ecosystem f = Some eco ∧ f_version f = Some ver)
       ∧ (meta !! idx = None ∨ (∃ eco ver, meta !! idx = Some ("", eco, ver)) →
            f_package f = pkg_name (res_package res)
            ∧ f_ecosystem f = pkg_ecosystem (res_package res)
            ∧ f_version f = res_version res))
      (_osv_results_to_findings resp meta) (osv_tagged_vulns resp).
Proof.
  unfold _osv_results_to_findings, osv_tagged_vulns. split.
  - apply length_join_imap. intros idx res. unfold osv_result_findings.
    destruct (osv_attribution meta idx res) as [[??]?]. apply length_fmap.
  - apply Forall2_join_imap. intros idx res Hres. unfold osv_result_findings.
    destruct (osv_attribution meta idx res) as [[pkg eco] ver] eqn:Hattr.
    apply Forall2_fmap_same. intros v Hv. simpl.
    repeat (split; [done|]). unfold osv_attribution in Hattr. split.
    + intros name eco' ver' Hmeta Hname. rewrite Hmeta in Hattr. simpl in Hattr.
      destruct name; [done|]. by injection Hattr as <- <- <-.
    + intros [Hmeta|(eco' & ver' & Hmeta)]; rewrite Hmeta in Hattr; simpl in Hattr;
        by injection Hattr as <- <- <-.
Qed.

(** ** The aggregate against the classifier *)

Section aggregate_facts.

Lemma truthy_upper_or_empty o :
  Py.truthy (Some (Py.upper (Py.or_empty o))) = Py.truthy o.
Proof. rewrite upper_truthy. by destruct o as [[|??]|]. Qed.

Lemma group_label_has_label v : has_label v → group_label v = _severity_of v.
Proof.
  unfold has_label, group_label, _severity_of. rewrite !truthy_upper_or_empty.
  unfold Py.or. destruct (Py.truthy (f_severity v)); [done|].
  intros [?|Hbase]; [done|]. by rewrite Hbase.
Qed.

Lemma group_label_no_label v : ¬ has_label v → group_label v = "UNKNOWN".
Proof.
  unfold has_label, group_label, Py.or. intros Hno.
  destruct (Py.truthy (f_severity v)); [tauto|].
  destruct (Py.truthy (baseSeverity _)); [tauto|done].
Qed.

Lemma severity_of_no_label v :
  ¬ has_label v →
  _severity_of v ∈ severity_labels
  ∧ (as_number (baseScore (cvss_or_empty (f_cvss v))) = None → _severity_of v = "UNKNOWN").
Proof.
  unfold has_label, _severity_of. rewrite !truthy_upper_or_empty. intros Hno.
  destruct (Py.truthy (f_severity v)); [tauto|].
  destruct (Py.truthy (baseSeverity _)); [tauto|].
  unfold severity_labels.
  destruct (as_number _) as [score|]; [|split; [set_solver|done]].
  split; [|done]. repeat destruct (Qle_bool _ _); set_solver.
Qed.

Lemma has_label_dec v : has_label v ∨ ¬ has_label v.
Proof.
  unfold has_label. destruct (Py.truthy (f_severity v)); [auto|].
  destruct (Py.truthy (baseSeverity _)); [auto|]. right. by intros [?|?].
Qed.

Lemma sev_order_lower_bound s : (-1 ≤ _sev_order (Some s))%Z.
Proof.
  destruct (sev_order_cases s) as [[-> _]|[[-> _]|[[-> _]|[[-> _]|[-> _]]]]]; lia.
Qed.

Lemma group_rank_le v :
  (_sev_order (Some (group_label v)) ≤ _sev_order (Some (_severity_of v)))%Z.
Proof.
  destruct (has_label_dec v) as [Hyes|Hno].
  - by rewrite group_label_has_label.
  - rewrite (group_label_no_label v Hno). apply sev_order_lower_bound.
Qed.

Lemma max_rank_mono {A} (g h : A → Z) (l : list A) :
  Forall (λ x, (g x ≤ h x)%Z) l → (max_rank (g <$> l) ≤ max_rank (h <$> l))%Z.
Proof.
  unfold max_rank. induction 1 as [|x l Hx _ IH]; [done|].
  rewrite !fmap_cons. cbn [foldr]. lia.
Qed.

End aggregate_facts.

(** X5. The aggregate of a group never ranks above the highest severity
    that [_severity_of] gives to a finding of the group, and it ranks
    exactly as high when every finding of the group either carries a label
    of its own or has no numeric base score. *)
Theorem aggregate_below_classifier (vulns : list Finding) :
  (_sev_order (Some (_highest_severity vulns))
   ≤ max_rank ((λ v, _sev_order (Some (_severity_of v))) <$> vulns))%Z
  ∧ (Forall (λ v, has_label v
                  ∨ as_number (baseScore (cvss_or_empty (f_cvss v))) = None) vulns →
     _sev_order (Some (_highest_severity vulns))
     = max_rank ((λ v, _sev_order (Some (_severity_of v))) <$> vulns)).
Proof.
  destruct (highest_severity_inv vulns) as (Hmax & Hrank & _).
  unfold _highest_severity. rewrite Hrank, Hmax. split.
  - apply max_rank_mono, Forall_forall. intros v _. apply group_rank_le.
  - intros Hall. f_equal. apply Forall_fmap_ext_1.
    eapply Forall_impl; [exact Hall|]. intros v [Hyes|Hnone].
    + by rewrite group_label_has_label.
    + destruct (has_label_dec v) as [Hyes|Hno]; [by rewrite group_label_has_label|].
      rewrite (group_label_no_label v Hno).
      by rewrite (proj2 (severity_of_no_label v Hno) Hnone).
Qed.

(** X6. The label that [_severity_of] returns is never empty and is in
    upper case, so that the comparisons of [_generate_report] with the four
    labels are exact; for a finding without a label of its own it is one of
    UNKNOWN, LOW, MEDIUM, HIGH and CRITICAL. *)
Theorem severity_of_normalised (v : Finding) :
  _severity_of v ≠ ""
  ∧ Py.upper (_severity_of v) = _severity_of v
  ∧ (¬ has_label v → _severity_of v ∈ severity_labels).
Proof.
  split; [|split].
  - unfold _severity_of.
    destruct (Py.truthy (Some (Py.upper (Py.or_empty (f_severity v))))) eqn:Hs;
      [by destruct (Py.upper _)|].
    destruct (Py.truthy (Some (Py.upper (Py.or_empty (baseSeverity _))))) eqn:Hb;
      [by destruct (Py.upper (Py.or_empty (baseSeverity _)))|].
    destruct (as_number _); [|done]. by repeat destruct (Qle_bool _ _).
  - unfold _severity_of.
    destruct (Py.truthy (Some (Py.upper (Py.or_empty (f_severity v)))));
      [apply upper_idemp|].
    destruct (Py.truthy (Some (Py.upper (Py.or_empty (baseSeverity _)))));
      [apply upper_idemp|].
    destruct (as_number _); [|done]. by repeat destruct (Qle_bool _ _).
  - intros Hno. by apply severity_of_no_label.
Qed.

(** ** When the extraction of fixed versions raises *)

Section raise_facts.

Lemma foldM_None {A S} (body : S → A → option S) (bad : A → Prop) (xs : list A) :
  (∀ acc x, body acc x = None ↔ bad x) →
  ∀ acc, foldM body acc xs = None ↔ Exists bad xs.
Proof.
  intros Hbody. induction xs as [|x xs IH]; intros acc; simpl.
  - split; [done|]. by intros ?%Exists_nil.
  - rewrite Exists_cons. destruct (body acc x) as [acc'|] eqn:Hx; simpl.
    + rewrite IH. split; [auto|]. intros [Hbad|?]; [|done].
      apply (Hbody acc) in Hbad. congruence.
    + split; [|done]. intros _. left. by apply (Hbody acc).
Qed.

Lemma range_fixed_None fixed r : range_fixed fixed r = None ↔ rg_events r = Some [].
Proof.
  unfold range_fixed. destruct (rg_events r) as [events|]; simpl; [|done].
  destruct (last events) as [ev|] eqn:Hlast.
  - split; [done|]. intros [= ->]. done.
  - apply last_None in Hlast as ->. done.
Qed.

Lemma osv_fixed_versions_None v :
  _osv_fixed_versions v = None ↔ Exists (λ r, rg_events r = Some []) (all_ranges v).
Proof.
  unfold _osv_fixed_versions, all_ranges.
  destruct (foldM _ ∅ (f_affected v)) as [fixed|] eqn:Hfold; simpl.
  - split; [done|]. intros Hex. exfalso.
    assert (foldM (λ acc aff, foldM range_fixed acc (aff_ranges aff)) ∅ (f_affected v)
            = None) as Hnone; [|congruence].
    apply (foldM_None _ (λ aff, Exists (λ r, rg_events r = Some []) (aff_ranges aff))).
    + intros acc aff. apply foldM_None. intros. apply range_fixed_None.
    + clear Hfold. induction (f_affected v) as [|aff affs IH]; [by apply Exists_nil in Hex|].
      rewrite bind_cons, Exists_app in Hex. rewrite Exists_cons.
      destruct Hex; auto.
  - split; [|done]. intros _.
    apply (foldM_None _ (λ aff, Exists (λ r, rg_events r = Some []) (aff_ranges aff)))
      in Hfold; [|intros acc aff; apply foldM_None; intros; apply range_fixed_None].
    induction Hfold as [aff affs Haff|aff affs _ IH]; rewrite bind_cons, Exists_app; auto.
Qed.

End raise_facts.

(** X7. [_osv_fixed_versions] raises exactly when one of the ranges of the
    finding has a list of events that is there and empty; a range without
    the key is no harm. *)
Theorem osv_fixed_versions_raises (v : Finding) :
  _osv_fixed_versions v = None ↔ Exists (λ r, rg_events r = Some []) (all_ranges v).
Proof. apply osv_fixed_versions_None. Qed.

(** ** Recommendations, report and exit status *)

Section recommendation_facts.

Implicit Types (vulns vs : list Finding).

Lemma osv_fixed_versions_nonempty v candidates x :
  _osv_fixed_versions v = Some candidates → x ∈ candidates → x ≠ "".
Proof.
  intros Hsome Hx.
  assert (Forall (λ r, rg_events r ≠ Some []) (all_ranges v)) as Hall.
  { apply Forall_forall. intros r Hr Hempty.
    assert (_osv_fixed_versions v = None) as Hnone; [|congruence].
    apply osv_fixed_versions_None, Exists_exists. eauto. }
  unfold _osv_fixed_versions in Hsome.
  destruct (affected_fixed_elem (f_affected v) ∅ Hall) as (fixed & Hfold & Hfixed).
  rewrite Hfold in Hsome. simpl in Hsome. injection Hsome as <-.
  apply sorted_set_elem, Hfixed in Hx as [[]%not_elem_of_empty|(r & _ & Hr)].
  destruct Hr as [(ev & _ & _ & ?)|(ev & _ & _ & ?)]; done.
Qed.

Lemma collect_fixed_None acc v :
  collect_fixed acc v = None ↔ breaks_report v.
Proof.
  unfold collect_fixed, breaks_report. rewrite <- osv_fixed_versions_None.
  case_bool_decide as Hsrc.
  - destruct (_osv_fixed_versions v); simpl; split; try done; by intros [_ ?].
  - split; [done|]. by intros [? _].
Qed.

Lemma collect_fixed_elem vulns acc found :
  foldM collect_fixed acc vulns = Some found →
  ∀ x, x ∈ found ↔
    x ∈ acc ∨ ∃ v candidates, v ∈ vulns ∧ f_source v = Some "OSV"
                              ∧ _osv_fixed_versions v = Some candidates
                              ∧ x ∈ candidates.
Proof.
  revert acc. induction vulns as [|v vulns IH]; intros acc; simpl.
  - intros [= <-] x. split; [auto|].
    intros [?|(v & ? & []%elem_of_nil & _)]. done.
  - destruct (collect_fixed acc v) as [acc'|] eqn:Hv; simpl; [|done].
    intros Hfold x. rewrite (IH acc' Hfold). unfold collect_fixed in Hv.
    case_bool_decide as Hsrc.
    + destruct (_osv_fixed_versions v) as [fixed|] eqn:Hfixed; simplify_eq/=.
      rewrite elem_of_app. split.
      * intros [[?|?]|(v' & c & ? & ?)]; [by left| |].
        -- right. exists v, fixed. split; [left|done].
        -- right. exists v', c. split; [by right|done].
      * intros [?|(v' & c & [->|?]%elem_of_cons & ? & ? & ?)]; [auto| |].
        -- left. right. congruence.
        -- right. eauto 10.
    + simplify_eq. split.
      * intros [?|(v' & c & ? & ?)]; [by left|].
        right. exists v', c. split; [by right|done].
      * intros [?|(v' & c & [->|?]%elem_of_cons & ? & ? & ?)]; [auto|done|].
        right. eauto 10.
Qed.

Lemma fixed_candidates_unfold vulns :
  fixed_candidates vulns
  = found ← foldM collect_fixed [] vulns;
    Some (merge_sort String.le
            (elements (list_to_set (filter (λ f, f ≠ "*" ∧ f ≠ "") found) : gset string))).
Proof. done. Qed.

Lemma fixed_candidates_None vulns :
  fixed_candidates vulns = None ↔ Exists breaks_report vulns.
Proof.
  rewrite fixed_candidates_unfold, <- (foldM_None collect_fixed breaks_report vulns
    collect_fixed_None []).
  by destruct (foldM collect_fixed [] vulns).
Qed.

Lemma fixed_candidates_Some vulns candidates :
  fixed_candidates vulns = Some candidates →
  NoDup candidates
  ∧ Sorted String.le candidates
  ∧ ∀ x, x ∈ candidates ↔
      x ≠ "*" ∧ ∃ v fixed, v ∈ vulns ∧ f_source v = Some "OSV"
                           ∧ _osv_fixed_versions v = Some fixed ∧ x ∈ fixed.
Proof.
  rewrite fixed_candidates_unfold.
  destruct (foldM collect_fixed [] vulns) as [found|] eqn:Hfold; [|done].
  simpl. intros [= <-].
  split; [apply sorted_set_NoDup|]. split; [apply sorted_set_Sorted|].
  intros x. rewrite sorted_set_elem, elem_of_list_to_set, list_elem_of_filter.
  rewrite (collect_fixed_elem vulns [] found Hfold). split.
  - intros [[Hstar _] [[]%elem_of_nil|?]]. done.
  - intros [Hstar (v & fixed & Hv & Hsrc & Hfixed & Hx)].
    split; [|right; eauto 10]. split; [done|].
    by eapply osv_fixed_versions_nonempty.
Qed.

Lemma priority_of_rank vulns :
  _sev_order (Some (priority_of (_highest_severity vulns)))
  = Z.max 0 (_sev_order (Some (_highest_severity vulns))).
Proof.
  destruct (highest_severity_inv vulns) as (_ & _ & Hlabel).
  unfold _highest_severity. unfold severity_labels in Hlabel.
  rewrite !elem_of_cons, elem_of_nil in Hlabel.
  destruct Hlabel as [->|[->|[->|[->|[->|[]]]]]]; reflexivity.
Qed.

Lemma priority_of_labels sev : priority_of sev ∈ ["CRITICAL"; "HIGH"; "MEDIUM"; "LOW"].
Proof. unfold priority_of. repeat case_bool_decide; set_solver. Qed.

Lemma package_names_elem vs x :
  x ∈ merge_sort String.le
        (elements (list_to_set (package_of <$> vs) : gset string))
  ↔ ∃ v, v ∈ vs ∧ package_of v = x.
Proof.
  rewrite sorted_set_elem, elem_of_list_to_set, list_elem_of_fmap. naive_solver.
Qed.

Lemma generate_recommendations_None self :
  _generate_recommendations self = None ↔ Exists breaks_report (vulnerabilities self).
Proof.
  unfold _generate_recommendations. split.
  - intros (pkg & Hpkg & Hnone)%mapM_None_1%Exists_exists.
    unfold package_recommendation in Hnone.
    destruct (fixed_candidates _) as [c|] eqn:Hfixed; [done|].
    apply fixed_candidates_None, Exists_exists in Hfixed as (v & Hv & Hbad).
    apply Exists_exists. exists v. split; [|done].
    by apply list_elem_of_filter in Hv as [_ ?].
  - intros (v & Hv & Hbad)%Exists_exists. apply mapM_None_2, Exists_exists.
    exists (package_of v). split; [apply package_names_elem; eauto|].
    unfold package_recommendation.
    assert (fixed_candidates (filter (λ v', package_of v' = package_of v)
                                (vulnerabilities self)) = None) as ->; [|done].
    apply fixed_candidates_None, Exists_exists. exists v. split; [|done].
    by apply list_elem_of_filter.
Qed.

Lemma generate_report_None self :
  _generate_report self = None ↔ Exists breaks_report (vulnerabilities self).
Proof.
  rewrite <- generate_recommendations_None. unfold _generate_report.
  destruct (fold_left count_step _ _) as [[[??]?]?].
  by destruct (_generate_recommendations self).
Qed.

End recommendation_facts.

(** X8. The candidates that [_generate_recommendations] offers for a group
    are, sorted and without duplicates, the versions that
    [_osv_fixed_versions] extracts from the OSV findings of the group,
    ["*"] left out; the findings of the other source contribute nothing;
    there is no list of candidates exactly when the extraction raises on
    an OSV finding of the group. *)
Theorem fixed_candidates_of_group (vulns : list Finding) :
  (fixed_candidates vulns = None ↔ Exists breaks_report vulns)
  ∧ ∀ candidates, fixed_candidates vulns = Some candidates →
      NoDup candidates
      ∧ Sorted String.le candidates
      ∧ ∀ x, x ∈ candidates ↔
          x ≠ "*" ∧ ∃ v fixed, v ∈ vulns ∧ f_source v = Some "OSV"
                               ∧ _osv_fixed_versions v = Some fixed ∧ x ∈ fixed.
Proof. split; [apply fixed_candidates_None|apply fixed_candidates_Some]. Qed.

(** X9. The per-package part of [_generate_recommendations] makes one
    recommendation per package that a finding is attributed to
    (["unknown"] for a finding without package), in the lexicographic order
    of the package names and without repeating a package; the priority of
    each is the aggregate severity of the findings of its package raised to
    LOW when that is UNKNOWN, so it is one of CRITICAL, HIGH, MEDIUM and
    LOW. *)
Theorem recommendations_per_package (self : CVEChecker)
    (recs : list PackageRecommendation) :
  _generate_recommendations self = Some recs →
  NoDup (rec_package <$> recs)
  ∧ Sorted String.le (rec_package <$> recs)
  ∧ (∀ pkg, pkg ∈ rec_package <$> recs ↔
            ∃ v, v ∈ vulnerabilities self
                 ∧ Py.or_empty (Py.or (f_package v) (Some "unknown")) = pkg)
  ∧ Forall (λ r,
      let group := filter (λ v, package_of v = rec_package r) (vulnerabilities self) in
      rec_priority r ∈ ["CRITICAL"; "HIGH"; "MEDIUM"; "LOW"]
      ∧ _sev_order (Some (rec_priority r))
        = Z.max 0 (_sev_order (Some (_highest_severity group)))
      ∧ fixed_candidates group = Some (rec_fixed_candidates r)) recs.
Proof.
  unfold _generate_recommendations. intros Hrecs%mapM_Some_1.
  set (pkgs := merge_sort String.le
                 (elements (list_to_set (package_of <$> vulnerabilities self)
                            : gset string))) in *.
  assert (rec_package <$> recs = pkgs ∧
          Forall (λ r,
            let group := filter (λ v, package_of v = rec_package r)
                           (vulnerabilities self) in
            rec_priority r ∈ ["CRITICAL"; "HIGH"; "MEDIUM"; "LOW"]
            ∧ _sev_order (Some (rec_priority r))
              = Z.max 0 (_sev_order (Some (_highest_severity group)))
            ∧ fixed_candidates group = Some (rec_fixed_candidates r)) recs)
    as [Hpkgs Hall].
  { clearbody pkgs. induction Hrecs as [|pkg r pkgs recs Hr _ [IHp IHa]]; [done|].
    unfold package_recommendation in Hr.
    destruct (fixed_candidates _) as [c|] eqn:Hfixed; [|done].
    simpl in Hr. injection Hr as <-. rewrite fmap_cons, IHp. split; [done|].
    constructor; [|done]. simpl.
    split; [apply priority_of_labels|]. split; [apply priority_of_rank|done]. }
  rewrite Hpkgs. split; [apply sorted_set_NoDup|]. split; [apply sorted_set_Sorted|].
  split; [|done]. intros pkg. apply package_names_elem.
Qed.

(** X10. [_generate_report], and with it [run_security_check], raises
    exactly when one of the findings that [_check_vulnerabilities] stored is
    an OSV finding with a range whose list of events is there and empty;
    otherwise the run returns a report that lists the stored findings.  The
    report is made without any request. *)
Theorem run_raises_on_empty_events (net : Network) (self : CVEChecker) (log : Log) :
  ∃ self' log',
    _check_vulnerabilities net self log = (Some self', log')
    ∧ (run_security_check net self log).2 = log'
    ∧ ((run_security_check net self log).1 = None
       ↔ Exists breaks_report (vulnerabilities self'))
    ∧ ∀ report, (run_security_check net self log).1 = Some report →
        report_vulnerabilities report = vulnerabilities self'.
Proof.
  destruct (check_vulnerabilities_outcome net self log) as (findings & log' & Hrun).
  eexists _, log'. split; [exact Hrun|].
  unfold run_security_check, mbind, M_bind, pure_call. rewrite Hrun. simpl.
  split; [done|]. split; [apply generate_report_None|].
  intros report Hreport. by apply generate_report_counts in Hreport as [? _].
Qed.

(** ** De-duplication of joined lists *)

Section dedupe_more_facts.

Implicit Types (a b items : list Finding).

Lemma dedupe_app a b :
  _dedupe_findings (a ++ b)
  = _dedupe_findings a
    ++ filter (λ x, identity_key x ∉ identity_key <$> a) (_dedupe_findings b).
Proof.
  induction b as [|x b IH] using rev_ind.
  - rewrite app_nil_r. change (_dedupe_findings []) with (@nil Finding).
    by rewrite filter_nil, app_nil_r.
  - rewrite app_assoc, !dedupe_snoc, fmap_app.
    destruct (decide (identity_key x ∈ identity_key <$> b)) as [Hb|Hb].
    + rewrite decide_True by (apply elem_of_app; auto). done.
    + rewrite filter_app, filter_cons, filter_nil.
      destruct (decide (identity_key x ∈ identity_key <$> a)) as [Ha|Ha].
      * rewrite decide_True by (apply elem_of_app; auto).
        rewrite decide_False by auto. by rewrite app_nil_r.
      * rewrite decide_False by (rewrite elem_of_app; tauto).
        rewrite decide_True by done. by rewrite IH, app_assoc.
Qed.

Lemma dedupe_fixed_iff items :
  _dedupe_findings items = items ↔ NoDup (identity_key <$> items).
Proof.
  split; [|apply dedupe_fixed]. intros <-. apply dedupe_NoDup.
Qed.

Lemma sublist_same_length {A} (l k : list A) :
  sublist l k → length l = length k → l = k.
Proof.
  induction 1 as [|x l k _ IH|x l k Hsub _]; simpl; intros Hlen; [done| |].
  - f_equal. apply IH. lia.
  - apply sublist_length in Hsub. lia.
Qed.

End dedupe_more_facts.

(** X11. De-duplicating two lists joined keeps what de-duplicating the
    first keeps and adds, of what de-duplicating the second keeps, the
    findings whose key the first list does not have: the findings of an
    earlier query win over those of a later one. *)
Theorem dedupe_of_joined (a b : list Finding) :
  _dedupe_findings (a ++ b)
  = _dedupe_findings a
    ++ filter (λ x, identity_key x ∉ identity_key <$> a) (_dedupe_findings b).
Proof. apply dedupe_app. Qed.

(** X12. [_dedupe_findings] never returns more findings than it is given,
    and it returns its argument as it is, or just as many findings,
    exactly when the identity keys of the argument are pairwise
    distinct. *)
Theorem dedupe_length (items : list Finding) :
  length (_dedupe_findings items) ≤ length items
  ∧ (length (_dedupe_findings items) = length items
     ↔ NoDup (identity_key <$> items))
  ∧ (_dedupe_findings items = items ↔ NoDup (identity_key <$> items)).
Proof.
  split; [apply sublist_length, dedupe_sublist|].
  split; [|apply dedupe_fixed_iff]. rewrite <- dedupe_fixed_iff. split.
  - apply sublist_same_length, dedupe_sublist.
  - by intros ->.
Qed.

(** ** Resolution of the structured identifier *)

Section cpe_more_facts.

Implicit Types (candidates pre post : list CpeProduct) (item : CpeProduct).

Lemma cpe_best_cons name_l item candidates :
  (candidate_ok name_l item
   ∧ cpe_best name_l (item :: candidates)
     = Some (Py.split_colon (Py.or_empty (cpeName item))))
  ∨ (¬ candidate_ok name_l item
     ∧ cpe_best name_l (item :: candidates) = cpe_best name_l candidates).
Proof.
  unfold candidate_ok. cbn [cpe_best].
  destruct (cpeName item) as [[|c s]|] eqn:Hname.
  - right. split; [|done]. by intros (cpe23 & [= <-] & ? & _).
  - destruct (cpe_matches name_l (Py.split_colon (String c s))) eqn:Hmatch.
    + left. split; [|done]. by exists (String c s).
    + right. split; [|done]. intros (cpe23 & [= <-] & _ & ?). congruence.
  - right. split; [|done]. by intros (cpe23 & [=] & _).
Qed.

Lemma cpe_best_None name_l candidates :
  cpe_best name_l candidates = None ↔ Forall (λ item, ¬ candidate_ok name_l item) candidates.
Proof.
  induction candidates as [|item candidates IH]; [by split|].
  rewrite Forall_cons.
  destruct (cpe_best_cons name_l item candidates) as [[Hok ->]|[Hno ->]].
  - split; [done|]. by intros [? _].
  - rewrite IH. tauto.
Qed.

Lemma cpe_best_first name_l candidates parts :
  cpe_best name_l candidates = Some parts →
  ∃ pre item post,
    candidates = pre ++ item :: post
    ∧ Forall (λ item', ¬ candidate_ok name_l item') pre
    ∧ candidate_ok name_l item
    ∧ parts = Py.split_colon (Py.or_empty (cpeName item)).
Proof.
  induction candidates as [|item candidates IH]; [done|].
  destruct (cpe_best_cons name_l item candidates) as [[Hok ->]|[Hno ->]].
  - intros [= <-]. by exists [], item, candidates.
  - intros (pre & item' & post & -> & Hpre & Hok & Hparts)%IH.
    exists (item :: pre), item', post. split; [done|]. split; [by constructor|done].
Qed.

Lemma guess_cpe_outcome net name version log :
  guess_cpe_for_conan net name version log
  = (Some match nvd_cpe_search net log name with
          | Some candidates =>
              match cpe_best (Py.lower name) candidates with
              | Some (p :: parts) => Some (cpe_inject (p :: parts) version)
              | _ => None
              end
          | None => None
          end,
     log ++ [GetCpeSearch name]).
Proof.
  unfold guess_cpe_for_conan, try_except, find_cpe_candidates, request.
  unfold fmap, M_fmap, mbind, M_bind, mret, M_ret.
  destruct (nvd_cpe_search net log name) as [candidates|]; [|done].
  by destruct (cpe_best (Py.lower name) candidates) as [[|p parts]|].
Qed.

End cpe_more_facts.

(** X13. [guess_cpe_for_conan] never raises and issues exactly one request,
    the keyword search for the name.  It returns nothing exactly when the
    search fails or none of the products it returns is accepted; otherwise
    the identifier is made from the first accepted product, in the order
    of the answer. *)
Theorem guess_cpe_first_candidate (net : Network) (name version : string) (log : Log) :
  ∃ result,
    guess_cpe_for_conan net name version log = (Some result, log ++ [GetCpeSearch name])
    ∧ (result = None ↔
         match nvd_cpe_search net log name with
         | Some candidates =>
             Forall (λ item, ¬ candidate_ok (Py.lower name) item) candidates
         | None => True
         end)
    ∧ ∀ cpe, result = Some cpe →
        ∃ pre item post cpe23,
          nvd_cpe_search net log name = Some (pre ++ item :: post)
          ∧ Forall (λ item', ¬ candidate_ok (Py.lower name) item') pre
          ∧ candidate_ok (Py.lower name) item
          ∧ cpeName item = Some cpe23
          ∧ cpe = cpe_inject (Py.split_colon cpe23) version.
Proof.
  eexists. split; [apply guess_cpe_outcome|].
  destruct (nvd_cpe_search net log name) as [candidates|]; [|by split].
  destruct (cpe_best (Py.lower name) candidates) as [parts|] eqn:Hbest.
  - pose proof Hbest as (Hlen & _)%cpe_best_Some.
    pose proof Hbest as (pre & item & post & -> & Hpre & Hok & Hparts)%cpe_best_first.
    destruct parts as [|p parts]; [simpl in Hlen; lia|]. split.
    + split; [done|]. intros Hall%cpe_best_None. congruence.
    + intros cpe [= <-]. destruct Hok as (cpe23 & Hname & Hne & Hmatch).
      exists pre, item, post, cpe23. rewrite Hparts, Hname.
      repeat (split; [done|]). split; [by exists cpe23|done].
  - split; [|done]. split; [intros _; by apply cpe_best_None|done].
Qed.

(** X14. An identifier that [guess_cpe_for_conan] returns for a version
    without colon is of the application class and names the package: its
    field 2 is ["a"], and its vendor (field 3) or its product (field 4)
    is the name up to case, or the product contains the name up to case. *)
Theorem guess_cpe_names_package (net : Network) (name version : string)
    (log log' : Log) (cpe : string) :
  guess_cpe_for_conan net name version log = (Some (Some cpe), log') →
  no_colon version →
  let fields := Py.split_colon cpe in
  fields !! 2 = Some "a"
  ∧ (Py.lower <$> fields !! 3 = Some (Py.lower name)
     ∨ Py.lower <$> fields !! 4 = Some (Py.lower name)
     ∨ ∃ product, fields !! 4 = Some product
                  ∧ Py.contains (Py.lower name) (Py.lower product) = true).
Proof.
  rewrite guess_cpe_outcome. intros [= Hcpe _] Hversion.
  destruct (nvd_cpe_search net log name) as [candidates|]; [|done].
  destruct (cpe_best (Py.lower name) candidates) as [[|p parts]|] eqn:Hbest; [done| |done].
  injection Hcpe as <-.
  apply cpe_best_Some in Hbest as (Hlen & item & cpe23 & _ & _ & Hparts & Hmatch).
  assert (Forall no_colon (p :: parts)) as Hclean.
  { rewrite Hparts. apply split_colon_no_colon. }
  destruct (cpe_inject_fields (p :: parts) version Hclean Hversion) as (_ & _ & Hfields).
  intros fields. subst fields.
  rewrite (Hfields 2), (Hfields 3), (Hfields 4) by lia.
  unfold cpe_matches in Hmatch.
  apply andb_true_iff in Hmatch as [[_ H2]%andb_true_iff Hname].
  apply bool_decide_eq_true in H2.
  destruct (lookup_lt_is_Some_2 (p :: parts) 3 ltac:(lia)) as [vendor H3].
  destruct (lookup_lt_is_Some_2 (p :: parts) 4 ltac:(lia)) as [product H4].
  rewrite H2, H3, H4 in *. simpl in *. split; [done|].
  apply orb_true_iff in Hname as [[Hv|Hp]%orb_true_iff|Hin].
  - left. by apply bool_decide_eq_true in Hv.
  - right. left. by apply bool_decide_eq_true in Hp.
  - right. right. by exists product.
Qed.

(** ** Stripping *)

Section strip_facts.

Implicit Types (s t p q m : string) (drop : ascii → bool).

Lemma append_cons c s t : String c s +:+ t = String c (s +:+ t).
Proof. done. Qed.

Lemma append_nil_r s : s +:+ "" = s.
Proof. induction s as [|c s IH]; [done|]. by rewrite append_cons, IH. Qed.

Lemma append_assoc s t p : (s +:+ t) +:+ p = s +:+ (t +:+ p).
Proof. induction s as [|c s IH]; [done|]. by rewrite !append_cons, IH. Qed.

Lemma rev_app_append s t : String.rev_app s t = String.rev s +:+ t.
Proof.
  unfold String.rev. revert t. induction s as [|c s IH]; intros t; [done|].
  cbn [String.rev_app]. rewrite (IH (String c "")), (IH (String c t)).
  by rewrite append_assoc.
Qed.

Lemma rev_cons c s : String.rev (String c s) = String.rev s +:+ String c "".
Proof. unfold String.rev at 1. cbn [String.rev_app]. apply rev_app_append. Qed.

Lemma rev_append s t : String.rev (s +:+ t) = String.rev t +:+ String.rev s.
Proof.
  induction s as [|c s IH].
  - change ("" +:+ t) with t. change (String.rev "") with "".
    by rewrite append_nil_r.
  - by rewrite append_cons, !rev_cons, IH, append_assoc.
Qed.

Lemma rev_involutive s : String.rev (String.rev s) = s.
Proof.
  induction s as [|c s IH]; [done|]. by rewrite rev_cons, rev_append, IH.
Qed.

Lemma lstrip_by_all drop p s :
  all_chars drop p = true → Py.lstrip_by drop (p +:+ s) = Py.lstrip_by drop s.
Proof.
  induction p as [|c p IH]; [done|]. cbn [all_chars].
  intros [Hc Hp]%andb_true_iff. rewrite append_cons. cbn [Py.lstrip_by].
  rewrite Hc. by apply IH.
Qed.

Lemma lstrip_by_clean drop s : starts_clean drop s → Py.lstrip_by drop s = s.
Proof. destruct s as [|c s]; [done|]. simpl. by intros ->. Qed.

Lemma lstrip_by_split drop s :
  ∃ p, s = p +:+ Py.lstrip_by drop s
       ∧ all_chars drop p = true
       ∧ starts_clean drop (Py.lstrip_by drop s).
Proof.
  induction s as [|c s (p & Hs & Hp & Hclean)]; [by exists ""|].
  cbn [Py.lstrip_by]. destruct (drop c) eqn:Hc.
  - exists (String c p). rewrite append_cons, <- Hs. cbn [all_chars].
    by rewrite Hc, Hp.
  - by exists "".
Qed.

Lemma all_chars_append drop s t :
  all_chars drop (s +:+ t) = all_chars drop s && all_chars drop t.
Proof.
  induction s as [|c s IH]; [done|]. rewrite append_cons. cbn [all_chars].
  by rewrite IH, andb_assoc.
Qed.

Lemma all_chars_rev drop s : all_chars drop (String.rev s) = all_chars drop s.
Proof.
  induction s as [|c s IH]; [done|].
  rewrite rev_cons, all_chars_append, IH. cbn [all_chars].
  by rewrite andb_true_r, andb_comm.
Qed.

Lemma starts_clean_append drop s t :
  s ≠ "" → starts_clean drop (s +:+ t) ↔ starts_clean drop s.
Proof. by destruct s. Qed.

(** The text between dropped characters is what stripping returns. *)
Lemma strip_by_middle drop p m q :
  all_chars drop p = true → all_chars drop q = true → clean_ends drop m →
  Py.strip_by drop (p +:+ m +:+ q) = m.
Proof.
  intros Hp Hq [Hstart Hend]. unfold Py.strip_by.
  rewrite (lstrip_by_all drop p) by done.
  destruct m as [|c m].
  - change ("" +:+ q) with q.
    destruct (lstrip_by_split drop q) as (p' & Hsplit & Hp' & Hclean).
    assert (Py.lstrip_by drop q = "") as ->; [|done].
    rewrite Hsplit, all_chars_append in Hq. apply andb_true_iff in Hq as [_ Hq].
    destruct (Py.lstrip_by drop q) as [|c q']; [done|].
    simpl in *. rewrite Hclean in Hq. done.
  - rewrite (lstrip_by_clean drop (String c m +:+ q)) by done.
    rewrite rev_append, lstrip_by_all by (by rewrite all_chars_rev).
    by rewrite lstrip_by_clean, rev_involutive.
Qed.

Lemma strip_by_split drop s :
  ∃ p q, s = p +:+ Py.strip_by drop s +:+ q
         ∧ all_chars drop p = true
         ∧ all_chars drop q = true
         ∧ clean_ends drop (Py.strip_by drop s).
Proof.
  unfold Py.strip_by.
  destruct (lstrip_by_split drop s) as (p & Hs & Hp & Ht).
  set (t := Py.lstrip_by drop s) in *.
  destruct (lstrip_by_split drop (String.rev t)) as (q & Hrev & Hq & Hu).
  set (u := Py.lstrip_by drop (String.rev t)) in *.
  assert (t = String.rev u +:+ String.rev q) as Ht'.
  { by rewrite <- rev_append, <- Hrev, rev_involutive. }
  exists p, (String.rev q). split; [by rewrite <- Ht'|].
  split; [done|]. split; [by rewrite all_chars_rev|].
  split; [|by rewrite rev_involutive].
  destruct (String.rev u) as [|c r] eqn:Hr; [done|].
  rewrite Ht' in Ht. by apply (starts_clean_append drop (String c r)) in Ht.
Qed.

Lemma strip_by_idemp drop s :
  Py.strip_by drop (Py.strip_by drop s) = Py.strip_by drop s.
Proof.
  destruct (strip_by_split drop s) as (_ & _ & _ & _ & _ & Hclean).
  rewrite <- (append_nil_r (Py.strip_by drop s)) at 1.
  by apply (strip_by_middle drop "" _ "").
Qed.

End strip_facts.

(** ** Cleaning of versions and commits *)

Section clean_facts.

Lemma clean_version_clean ver : clean_ends Py.is_space (_clean_version ver).
Proof.
  unfold _clean_version, Py.strip.
  by destruct (strip_by_split Py.is_space
                 match Py.strip_prefix ")dellatsni(" (Py.lstrip (String.rev (Py.or_empty ver))) with
                 | Some rest => String.rev rest
                 | None => Py.or_empty ver
                 end) as (_ & _ & _ & _ & _ & ?).
Qed.

Lemma clean_version_suffix v w1 w2 :
  clean_ends Py.is_space v →
  all_chars Py.is_space w1 = true → all_chars Py.is_space w2 = true →
  _clean_version (Some (v +:+ w1 +:+ "(installed)" +:+ w2)) = v.
Proof.
  intros Hv H1 H2. unfold _clean_version, Py.strip, Py.lstrip, Py.or_empty.
  rewrite !rev_append, !append_assoc.
  rewrite lstrip_by_all by (by rewrite all_chars_rev).
  change (String.rev "(installed)") with ")dellatsni(".
  rewrite !append_cons.
  change ("" +:+ (String.rev w1 +:+ String.rev v)) with (String.rev w1 +:+ String.rev v).
  rewrite lstrip_by_clean by done.
  cbn [Py.strip_prefix Ascii.eqb Bool.eqb].
  rewrite rev_append, !rev_involutive.
  change (v +:+ w1) with ("" +:+ (v +:+ w1)).
  by apply (strip_by_middle Py.is_space "" v w1).
Qed.

Lemma clean_version_plain v :
  clean_ends Py.is_space v →
  Py.strip_prefix ")dellatsni(" (String.rev v) = None →
  _clean_version (Some v) = v.
Proof.
  intros Hv Hnone. unfold _clean_version, Py.strip, Py.lstrip, Py.or_empty.
  rewrite lstrip_by_clean by apply Hv. rewrite Hnone.
  rewrite <- (append_nil_r v) at 1.
  by apply (strip_by_middle Py.is_space "" v "").
Qed.

Lemma commit_query_clean entry q :
  commit_query entry = Some q →
  ∃ commit p p',
    q = QCommit commit
    ∧ commit ≠ ""
    ∧ Py.or_empty (dep_commit entry.2) = p +:+ commit +:+ p'
    ∧ all_chars (λ c, Py.mem_char c "-+ ") p = true
    ∧ all_chars (λ c, Py.mem_char c "-+ ") p' = true
    ∧ clean_ends (λ c, Py.mem_char c "-+ ") commit.
Proof.
  unfold commit_query, Py.strip_chars. case_bool_decide as Hne; [done|].
  intros [= <-].
  destruct (strip_by_split (λ c, Py.mem_char c "-+ ") (Py.or_empty (dep_commit entry.2)))
    as (p & p' & Hsplit & Hp & Hp' & Hclean).
  eexists _, p, p'. split; [reflexivity|]. split; [exact Hne|].
  split; [exact Hsplit|]. split; [exact Hp|]. split; [exact Hp'|exact Hclean].
Qed.

End clean_facts.

(** X15. [_clean_version] returns a text that neither starts nor ends with
    white space.  It removes one ["(installed)"] mark at the end of the
    text together with the white space around it, and returns a text that
    has clean ends and no such mark as it is.  A missing version becomes
    the empty text. *)
Theorem clean_version_strips_mark (v w1 w2 : string) :
  _clean_version None = ""
  ∧ (∀ ver, clean_ends Py.is_space (_clean_version ver))
  ∧ (clean_ends Py.is_space v →
     all_chars Py.is_space w1 = true → all_chars Py.is_space w2 = true →
     _clean_version (Some (v +:+ w1 +:+ "(installed)" +:+ w2)) = v)
  ∧ (clean_ends Py.is_space v →
     Py.strip_prefix ")dellatsni(" (String.rev v) = None →
     _clean_version (Some v) = v).
Proof.
  split; [done|]. split; [apply clean_version_clean|].
  split; [apply clean_version_suffix|apply clean_version_plain].
Qed.

(** ** The query operations *)

Section query_facts.

Context (net : Network).

Lemma for_each_inv {A S} (I : S → Prop) (xs : list A) (body : S → A → M S)
    acc log acc' log' :
  (∀ a x l a' l', x ∈ xs → I a → body a x l = (Some a', l') → I a') →
  I acc → for_each xs body acc log = (Some acc', log') → I acc'.
Proof.
  revert acc log. induction xs as [|x xs IH]; intros acc log Hbody Hacc; simpl.
  - by intros [= <- _].
  - unfold mbind, M_bind.
    destruct (body acc x log) as [[acc1|] log1] eqn:Hx; [|done].
    apply IH.
    + intros a y l a' l' Hy. apply Hbody. by right.
    + eapply Hbody; [left|done..].
Qed.

Lemma Forall_join_imap {A B} (P : B → Prop) (g : nat → A → list B) (l : list A) :
  (∀ i x, Forall P (g i x)) → Forall P (mjoin (imap g l)).
Proof.
  revert g. induction l as [|x l IH]; intros g HP; [constructor|].
  rewrite imap_cons. simpl. apply Forall_app. split; [apply HP|].
  apply IH. intros i y. apply HP.
Qed.

Lemma osv_findings_fresh resp meta :
  Forall (λ f, f_source f = Some "OSV" ∧ f_cvss f = CvssUnset)
    (_osv_results_to_findings resp meta).
Proof.
  apply Forall_join_imap. intros idx res. unfold osv_result_findings.
  destruct (osv_attribution meta idx res) as [[??]?].
  apply Forall_fmap, Forall_forall. by intros v _.
Qed.

Lemma apt_query_Some stage eco p q :
  (∃ m, apt_query stage eco p = Some (q, m))
  ↔ ∃ name ver,
      q = QPackage name eco ver
      ∧ p_name p = Some name ∧ name ≠ ""
      ∧ eco ∈ ["Ubuntu"; "Debian"]
      ∧ ver = _clean_version (p_version p)
      ∧ ver ≠ "" ∧ ver ≠ "system" ∧ ver ≠ "required" ∧ ver ≠ "unknown".
Proof.
  unfold apt_query, is_placeholder, ubuntu_pkg_to_osv_query, debian_pkg_to_osv_query.
  split.
  - intros [m Hq]. destruct (p_name p) as [name|]; [|done]. cbn [Py.or_empty] in Hq.
    exists name, (_clean_version (p_version p)).
    repeat case_bool_decide; simpl in Hq; try done; simplify_eq;
      repeat (split; [done|]); (split; [set_solver|done]).
  - intros (name & ver & -> & -> & Hname & Heco & -> & ? & ? & ? & ?).
    cbn [Py.or_empty]. rewrite !bool_decide_eq_false_2 by done. simpl.
    apply elem_of_cons in Heco as [->|Heco].
    + rewrite bool_decide_eq_true_2 by done. by eexists.
    + apply list_elem_of_singleton in Heco as ->.
      rewrite bool_decide_eq_false_2 by done.
      rewrite bool_decide_eq_true_2 by done. by eexists.
Qed.

Lemma apk_query_Some stage eco p q :
  (∃ m, apk_query stage eco p = Some (q, m))
  ↔ ∃ name ver,
      q = QPackage name eco ver
      ∧ p_name p = Some name ∧ name ≠ ""
      ∧ eco = "Alpine"
      ∧ p_version p = Some ver
      ∧ ver ≠ "" ∧ ver ≠ "unknown".
Proof.
  unfold apk_query. split.
  - intros [m Hq]. destruct (p_name p) as [name|], (p_version p) as [ver|];
      cbn [Py.or_empty] in Hq;
      repeat case_bool_decide; simpl in Hq; try done; simplify_eq.
    by exists name, ver.
  - intros (name & ver & -> & -> & Hname & -> & -> & ? & ?).
    cbn [Py.or_empty]. rewrite bool_decide_eq_true_2 by done.
    rewrite !bool_decide_eq_false_2 by done. simpl. by eexists.
Qed.

Lemma stage_entries_elem st q :
  q ∈ (stage_entries st).*1 ↔ stage_query_ok st q.
Proof.
  rewrite list_elem_of_fmap. unfold stage_entries, stage_query_ok. split.
  - intros ([q' m] & -> & Hin). cbn [fst].
    destruct (st_ecosystem st) as [eco|] eqn:Heco; [|by apply elem_of_nil in Hin].
    destruct (_ || _) eqn:Hknown; [|by apply elem_of_nil in Hin].
    apply elem_of_app in Hin as [(p & Hp & Hq)%list_elem_of_omap
                                |(p & Hp & Hq)%list_elem_of_omap].
    + destruct (proj1 (apt_query_Some (st_stage st) eco p q') (ex_intro _ m Hq))
        as (name & ver & -> & ? & ? & ? & Hver & ? & ? & ? & ?).
      exists name, eco, ver, p. repeat (split; [done|]). left.
      repeat (split; [done|]). rewrite Hver. apply clean_version_clean.
    + destruct (proj1 (apk_query_Some (st_stage st) eco p q') (ex_intro _ m Hq))
        as (name & ver & -> & ? & ? & ? & ? & ? & ?).
      exists name, eco, ver, p. repeat (split; [done|]). by right.
  - intros (name & eco & ver & p & -> & -> & Hname & Hne & Hcase).
    destruct Hcase as [(Heco & Hp & Hver & ? & ? & ? & ? & _)
                      |(Heco & Hp & Hver & ? & ?)].
    + destruct (proj2 (apt_query_Some (st_stage st) eco p (QPackage name eco ver)))
        as [m Hq]; [by exists name, ver|].
      exists (QPackage name eco ver, m). split; [done|].
      assert (bool_decide (eco = "Ubuntu") || bool_decide (eco = "Debian")
              || bool_decide (eco = "Alpine") = true) as ->.
      { apply elem_of_cons in Heco as [->|Heco]; [done|].
        by apply list_elem_of_singleton in Heco as ->. }
      apply elem_of_app. left. apply list_elem_of_omap. by exists p.
    + subst eco.
      destruct (proj2 (apk_query_Some (st_stage st) "Alpine" p
                         (QPackage name "Alpine" ver))) as [m Hq];
        [by exists name, ver|].
      exists (QPackage name "Alpine" ver, m). split; [done|].
      cbn [orb bool_decide]. apply elem_of_app. right.
      apply list_elem_of_omap. by exists p.
Qed.

Lemma query_stage_outcome findings st log :
  ∃ found,
    query_stage net findings st log
    = (Some (findings ++ found), log ++ option_list (stage_batch st))
    ∧ Forall (λ f, f_source f = Some "OSV" ∧ f_cvss f = CvssUnset) found.
Proof.
  unfold query_stage, stage_batch, stage_entries.
  destruct (st_ecosystem st) as [eco|];
    [|exists []; by rewrite !app_nil_r].
  destruct (_ || _); [|exists []; by rewrite !app_nil_r].
  set (entries := omap _ (st_apt st) ++ omap _ (st_apk st)).
  destruct (entries.*1) as [|q queries] eqn:Hqueries;
    [exists []; by rewrite !app_nil_r|].
  unfold try_except, query_batch, request, mbind, M_bind, mret, M_ret. simpl.
  destruct (osv_querybatch net log (q :: queries)) as [resp|].
  - eexists. split; [done|]. apply osv_findings_fresh.
  - exists []. by rewrite app_nil_r.
Qed.

Lemma query_stages_outcome stages findings log :
  ∃ found,
    for_each stages (query_stage net) findings log
    = (Some (findings ++ found), log ++ omap stage_batch stages)
    ∧ Forall (λ f, f_source f = Some "OSV" ∧ f_cvss f = CvssUnset) found.
Proof.
  revert findings log. induction stages as [|st stages IH]; intros findings log.
  - exists []. by rewrite !app_nil_r.
  - destruct (query_stage_outcome findings st log) as (found1 & Hst & Hfresh1).
    destruct (IH (findings ++ found1) (log ++ option_list (stage_batch st)))
      as (found2 & Hrest & Hfresh2).
    exists (found1 ++ found2). cbn [for_each]. unfold mbind, M_bind.
    rewrite Hst, Hrest, <- !app_assoc. split; [|by apply Forall_app].
    f_equal. f_equal. cbn [omap list_omap]. by destruct (stage_batch st).
Qed.

Lemma stage_batch_ok st queries :
  stage_batch st = Some (PostQueryBatch queries) →
  queries ≠ [] ∧ ∀ q, q ∈ queries ↔ stage_query_ok st q.
Proof.
  unfold stage_batch. pose proof (stage_entries_elem st) as Hok.
  destruct ((stage_entries st).*1) as [|q qs] eqn:Hqueries; [done|].
  by intros [= <-].
Qed.

Lemma stage_batch_None st :
  stage_batch st = None → ∀ q, ¬ stage_query_ok st q.
Proof.
  unfold stage_batch. pose proof (stage_entries_elem st) as Hok.
  destruct ((stage_entries st).*1) as [|q qs] eqn:Hqueries; [|done].
  intros _ q Hq. apply Hok in Hq. by apply elem_of_nil in Hq.
Qed.

End query_facts.

(** X16. With stages in the inventory and the switch off,
    [_query_osv_for_system] never raises, whatever the advisory service
    does: it sends one batch, in the order of the stages, for each stage
    that has something to ask and none for the others, whether or not
    earlier batches failed.  No batch is empty, and the batch of a stage
    holds exactly the queries of that stage.  In a stage of Ubuntu or
    Debian these are the named apt packages whose cleaned version is
    neither empty nor one of the placeholders system, required and
    unknown, at that cleaned version.  In a stage of Alpine they are the
    named apk packages whose version is neither empty nor unknown, at the
    version as it is written: there the placeholders system and required
    are sent.  A stage of another ecosystem, or without such a package,
    sends nothing.  All the findings returned are OSV findings. *)
Theorem system_queries_by_stage (net : Network) (self : CVEChecker) (log : Log) :
  offline self = false →
  system_by_stage (dependencies self) ≠ [] →
  ∃ findings,
    _query_osv_for_system net self log
    = (Some findings, log ++ omap stage_batch (system_by_stage (dependencies self)))
    ∧ Forall (λ f, f_source f = Some "OSV") findings
    ∧ length (omap stage_batch (system_by_stage (dependencies self)))
      ≤ length (system_by_stage (dependencies self))
    ∧ Forall (λ st,
          (∀ queries, stage_batch st = Some (PostQueryBatch queries) →
             queries ≠ [] ∧ ∀ q, q ∈ queries ↔ stage_query_ok st q)
          ∧ (stage_batch st = None → ∀ q, ¬ stage_query_ok st q))
        (system_by_stage (dependencies self)).
Proof.
  intros Hoff Hstages. unfold _query_osv_for_system. rewrite Hoff.
  destruct (system_by_stage (dependencies self)) as [|st stages] eqn:Hs; [done|].
  destruct (query_stages_outcome net (st :: stages) [] log) as (found & Hrun & Hfresh).
  exists found. split; [exact Hrun|]. split.
  - eapply Forall_impl; [exact Hfresh|]. by intros f [? _].
  - split; [apply omap_length_le|].
    apply Forall_forall. intros st' _. split.
    + intros queries. apply stage_batch_ok.
    + apply stage_batch_None.
Qed.

Section query_more_facts.

Context (net : Network).

Lemma submodules_outcome self log :
  offline self = false →
  _query_osv_for_submodules net self log
  = match omap commit_query (submodules (dependencies self)) with
    | [] => (Some [], log)
    | queries =>
        (match osv_querybatch net log queries with
         | Some resp => Some (_osv_results_to_findings resp [])
         | None => None
         end, log ++ [PostQueryBatch queries])
    end.
Proof.
  intros Hoff. unfold _query_osv_for_submodules. rewrite Hoff.
  destruct (omap commit_query _) as [|q queries]; [done|].
  unfold query_batch, request, mbind, M_bind, mret, M_ret.
  by destruct (osv_querybatch net log (q :: queries)).
Qed.

Lemma system_fallback_outcome self log :
  offline self = false →
  system_by_stage (dependencies self) = [] →
  _query_osv_for_system net self log
  = match system_batch self with
    | Some (PostQueryBatch queries) =>
        (match osv_querybatch net log queries with
         | Some resp =>
             Some (_osv_results_to_findings resp
                     (omap (system_query (Py.or_empty (ecosystem self)))
                        (system (dependencies self))).*2)
         | None => None
         end, log ++ [PostQueryBatch queries])
    | _ => (Some [], log)
    end.
Proof.
  intros Hoff Hstages. unfold _query_osv_for_system, system_batch.
  rewrite Hoff, Hstages.
  destruct (ecosystem self) as [[|c s]|]; [done| |done]. simpl.
  destruct ((omap _ (system (dependencies self))).*1) as [|q queries]; [done|].
  unfold query_batch, request, mbind, M_bind, mret, M_ret.
  by destruct (osv_querybatch net log (q :: queries)).
Qed.

Lemma system_query_ok eco entry q m :
  system_query eco entry = Some (q, m) →
  ∃ ver, q = QPackage entry.1 eco ver ∧ m = (entry.1, eco, ver)
         ∧ ver = _clean_version (dep_version entry.2)
         ∧ ver ≠ "" ∧ ver ≠ "system" ∧ ver ≠ "required" ∧ ver ≠ "unknown"
         ∧ (eco = "Ubuntu" ∨ eco = "Debian").
Proof.
  unfold system_query, is_placeholder, ubuntu_pkg_to_osv_query, debian_pkg_to_osv_query.
  destruct entry as [pkg info]. simpl.
  repeat case_bool_decide; simpl; try done; intros [= <- <-]; subst;
    eexists; repeat (split; [done|]); auto.
Qed.

Lemma query_conan_outcome findings entry log found' log' :
  query_conan net findings entry log = (Some found', log') →
  ∃ found, found' = findings ++ found ∧ Forall (conan_finding_of entry) found.
Proof.
  unfold query_conan. destruct entry as [name info].
  destruct (_ || _) eqn:Hskip.
  { intros [= <- _]. exists []. by rewrite app_nil_r. }
  apply orb_false_iff in Hskip as [Hver%bool_decide_eq_false _].
  unfold mbind, M_bind at 1. rewrite guess_cpe_outcome.
  set (cpe := match nvd_cpe_search net log name with
              | Some candidates => _ | None => None end).
  destruct cpe as [[|c s]|];
    try (intros [= <- _]; exists []; by rewrite app_nil_r).
  unfold cves_by_cpe, request, mbind, M_bind, mret, M_ret.
  destruct (nvd_cves_by_cpe net _ (String c s)) as [data|]; [|done].
  intros [= <- _]. eexists. split; [done|].
  unfold _nvd_results_to_findings, conan_finding_of.
  apply Forall_fmap, Forall_forall. by intros item _.
Qed.

Lemma conan_outcome self log findings log' :
  offline self = false →
  _query_nvd_for_conan net self log = (Some findings, log') →
  Forall (λ f, ∃ entry, entry ∈ conan (dependencies self) ∧ conan_finding_of entry f)
    findings.
Proof.
  intros Hoff. unfold _query_nvd_for_conan. rewrite Hoff.
  apply (for_each_inv
           (λ fs, Forall (λ f, ∃ entry, entry ∈ conan (dependencies self)
                                        ∧ conan_finding_of entry f) fs));
    [|constructor].
  intros fs entry l fs' l' Hentry Hfs (found & -> & Hfound)%query_conan_outcome.
  apply Forall_app. split; [done|].
  eapply Forall_impl; [exact Hfound|]. intros f Hf. by exists entry.
Qed.

End query_more_facts.

(** X17. With the switch off, [_query_osv_for_submodules] asks about the
    commits of the submodules in one batch and sends nothing when no
    submodule has a commit; it then returns no finding.  A commit is sent
    without the [-], [+] and blanks around it, and only when something is
    left of it.  The operation raises exactly when the batch fails, and
    the findings it returns are OSV findings. *)
Theorem submodule_queries (net : Network) (self : CVEChecker) (log : Log) :
  offline self = false →
  (_query_osv_for_submodules net self log).2 = log ++ option_list (submodules_batch self)
  ∧ (submodules_batch self = None →
     _query_osv_for_submodules net self log = (Some [], log))
  ∧ (∀ queries, submodules_batch self = Some (PostQueryBatch queries) →
       queries ≠ []
       ∧ Forall (λ q, ∃ commit, q = QCommit commit ∧ commit ≠ ""
                      ∧ clean_ends (λ c, Py.mem_char c "-+ ") commit) queries
       ∧ ((_query_osv_for_submodules net self log).1 = None
          ↔ osv_querybatch net log queries = None))
  ∧ (∀ findings, (_query_osv_for_submodules net self log).1 = Some findings →
       Forall (λ f, f_source f = Some "OSV") findings).
Proof.
  intros Hoff. rewrite (submodules_outcome net self log Hoff). unfold submodules_batch.
  assert (Forall (λ q, ∃ commit, q = QCommit commit ∧ commit ≠ ""
                   ∧ clean_ends (λ c, Py.mem_char c "-+ ") commit)
            (omap commit_query (submodules (dependencies self)))) as Hok.
  { apply Forall_forall. intros q (entry & _ & Hq)%list_elem_of_omap.
    apply commit_query_clean in Hq as (commit & _ & _ & -> & ? & _ & _ & _ & ?).
    by exists commit. }
  destruct (omap commit_query _) as [|q queries]; simpl.
  - rewrite app_nil_r. repeat split; try done. by intros findings [= <-].
  - split; [done|]. split; [done|]. split.
    + intros ? [= <-]. split; [done|]. split; [done|].
      by destruct (osv_querybatch net log (q :: queries)).
    + intros findings. destruct (osv_querybatch net log (q :: queries)); [|done].
      intros [= <-]. eapply Forall_impl; [apply osv_findings_fresh|]. by intros f [? _].
Qed.

(** X18. Without stages and with the switch off, [_query_osv_for_system]
    sends at most one batch, and none unless the ecosystem of the checker
    is Ubuntu or Debian and some system package has a usable version.
    Every query of the batch is for that ecosystem, at the cleaned version
    of the package, which is neither empty nor a placeholder.  The
    operation raises exactly when the batch fails. *)
Theorem system_queries_without_stages (net : Network) (self : CVEChecker) (log : Log) :
  offline self = false →
  system_by_stage (dependencies self) = [] →
  (_query_osv_for_system net self log).2 = log ++ option_list (system_batch self)
  ∧ (system_batch self = None → _query_osv_for_system net self log = (Some [], log))
  ∧ (∀ queries, system_batch self = Some (PostQueryBatch queries) →
       queries ≠ []
       ∧ (ecosystem self = Some "Ubuntu" ∨ ecosystem self = Some "Debian")
       ∧ Forall (λ q, ∃ entry ver,
                   entry ∈ system (dependencies self)
                   ∧ q = QPackage entry.1 (Py.or_empty (ecosystem self)) ver
                   ∧ ver = _clean_version (dep_version entry.2)
                   ∧ ver ≠ "" ∧ ver ≠ "system" ∧ ver ≠ "required" ∧ ver ≠ "unknown")
           queries
       ∧ ((_query_osv_for_system net self log).1 = None
          ↔ osv_querybatch net log queries = None)).
Proof.
  intros Hoff Hstages. rewrite (system_fallback_outcome net self log Hoff Hstages).
  unfold system_batch.
  destruct (ecosystem self) as [[|c s]|] eqn:Heco; simpl;
    try (rewrite app_nil_r; by repeat split).
  set (eco := String c s) in *.
  assert (Forall (λ e, ∃ entry ver,
                    entry ∈ system (dependencies self)
                    ∧ e.1 = QPackage entry.1 eco ver
                    ∧ ver = _clean_version (dep_version entry.2)
                    ∧ ver ≠ "" ∧ ver ≠ "system" ∧ ver ≠ "required" ∧ ver ≠ "unknown"
                    ∧ (eco = "Ubuntu" ∨ eco = "Debian"))
            (omap (system_query eco) (system (dependencies self)))) as Hok.
  { apply Forall_forall. intros [q m] (entry & Hentry & Hq)%list_elem_of_omap.
    apply system_query_ok in Hq as (ver & -> & _ & ? & ? & ? & ? & ? & ?).
    exists entry, ver. by repeat (split; [done|]). }
  destruct ((omap (system_query eco) (system (dependencies self))).*1)
    as [|q queries] eqn:Hqueries; simpl.
  - rewrite app_nil_r. by repeat split.
  - split; [done|]. split; [done|]. intros ? [= <-]. split; [done|].
    assert (Forall (λ q', ∃ entry ver,
                      entry ∈ system (dependencies self)
                      ∧ q' = QPackage entry.1 eco ver
                      ∧ ver = _clean_version (dep_version entry.2)
                      ∧ ver ≠ "" ∧ ver ≠ "system" ∧ ver ≠ "required" ∧ ver ≠ "unknown"
                      ∧ (eco = "Ubuntu" ∨ eco = "Debian")) (q :: queries)) as Hqs.
    { rewrite <- Hqueries. by apply Forall_fmap. }
    split; [|split].
    + apply Forall_cons in Hqs as [(_ & _ & _ & _ & _ & _ & _ & _ & _ & [->| ->]) _]; auto.
    + eapply Forall_impl; [exact Hqs|].
      intros q' (entry & ver & ? & ? & ? & ? & ? & ? & ? & _).
      exists entry, ver. by repeat (split; [done|]).
    + by destruct (osv_querybatch net log (q :: queries)).
Qed.

(** X19. Every finding that [_query_nvd_for_conan] returns is a registry
    finding attributed to a package-manager dependency of the inventory,
    under the name of the dependency and its cleaned version, which is not
    empty; it carries no severity of its own. *)
Theorem conan_findings_attribution (net : Network) (self : CVEChecker)
    (log log' : Log) (findings : list Finding) :
  offline self = false →
  _query_nvd_for_conan net self log = (Some findings, log') →
  Forall (λ f, ∃ name info,
            (name, info) ∈ conan (dependencies self)
            ∧ f_source f = Some "NVD"
            ∧ f_package f = Some name
            ∧ f_version f = Some (_clean_version (dep_version info))
            ∧ _clean_version (dep_version info) ≠ ""
            ∧ f_severity f = None) findings.
Proof.
  intros Hoff Hrun.
  eapply Forall_impl; [by eapply conan_outcome|].
  intros f ([name info] & Hentry & Hf). exists name, info. split; [done|]. apply Hf.
Qed.

(** ** The shape of the stored findings *)

Section stored_facts.

Context (net : Network).

Lemma system_findings_fresh self log findings log' :
  _query_osv_for_system net self log = (Some findings, log') → Forall fresh findings.
Proof.
  destruct (offline self) eqn:Hoff.
  { unfold _query_osv_for_system. rewrite Hoff. by intros [= <- _]. }
  destruct (system_by_stage (dependencies self)) as [|st stages] eqn:Hstages.
  - rewrite (system_fallback_outcome net self log Hoff Hstages).
    destruct (system_batch self) as [[queries| | |]|]; try (by intros [= <- _]).
    destruct (osv_querybatch net log queries); [|done]. intros [= <- _].
    eapply Forall_impl; [apply osv_findings_fresh|]. by left.
  - unfold _query_osv_for_system. rewrite Hoff, Hstages.
    destruct (query_stages_outcome net (st :: stages) [] log) as (found & -> & Hfresh).
    intros [= <- _]. eapply Forall_impl; [exact Hfresh|]. by left.
Qed.

Lemma submodules_findings_fresh self log findings log' :
  _query_osv_for_submodules net self log = (Some findings, log') → Forall fresh findings.
Proof.
  destruct (offline self) eqn:Hoff.
  { unfold _query_osv_for_submodules. rewrite Hoff. by intros [= <- _]. }
  rewrite (submodules_outcome net self log Hoff).
  destruct (omap commit_query _) as [|q queries]; [by intros [= <- _]|].
  cbv zeta. destruct (osv_querybatch net log (q :: queries)); [|by intros [=]].
  intros [= <- _]. eapply Forall_impl; [apply osv_findings_fresh|]. by left.
Qed.

Lemma conan_findings_fresh self log findings log' :
  _query_nvd_for_conan net self log = (Some findings, log') → Forall fresh findings.
Proof.
  destruct (offline self) eqn:Hoff.
  { unfold _query_nvd_for_conan. rewrite Hoff. by intros [= <- _]. }
  intros Hrun. eapply Forall_impl; [by eapply conan_outcome|].
  intros f (entry & _ & Hsrc & _ & _ & _ & Hsev). by right.
Qed.

Lemma extend_or_skip_fresh findings (query : M (list Finding)) log findings' log' :
  (∀ found l, query log = (Some found, l) → Forall fresh found) →
  Forall fresh findings →
  extend_or_skip findings query log = (Some findings', log') →
  Forall fresh findings'.
Proof.
  intros Hquery Hfs. unfold extend_or_skip, try_except, mbind, M_bind, mret, M_ret.
  destruct (query log) as [[found|] l] eqn:Hq; intros [= <- _]; [|done].
  apply Forall_app. split; [done|]. by eapply Hquery.
Qed.

Lemma same_or_enriched_stored f f' :
  same_or_enriched net f f' → fresh f → stored_ok f'.
Proof.
  unfold stored_ok.
  intros [->|(Hsrc & Hsev & _ & _ & _ & _ & _ & _ & _ & c & ->)] Hfresh.
  - destruct Hfresh as [[? ->]|?]; auto.
  - left. simpl. split; [done|]. congruence.
Qed.

Lemma check_vulnerabilities_stored self log self' log' :
  _check_vulnerabilities net self log = (Some self', log') →
  Forall stored_ok (vulnerabilities self').
Proof.
  unfold _check_vulnerabilities.
  unfold mbind, M_bind at 1.
  destruct (extend_or_skip [] _ log) as [[fs1|] log1] eqn:H1; [|done].
  unfold mbind, M_bind at 1.
  destruct (extend_or_skip fs1 _ log1) as [[fs2|] log2] eqn:H2; [|done].
  unfold mbind, M_bind at 1.
  destruct (extend_or_skip fs2 _ log2) as [[fs3|] log3] eqn:H3; [|done].
  apply extend_or_skip_fresh in H1;
    [|intros ??; apply system_findings_fresh|constructor].
  apply extend_or_skip_fresh in H2;
    [|intros ??; apply submodules_findings_fresh|done].
  apply extend_or_skip_fresh in H3;
    [|intros ??; apply conan_findings_fresh|done].
  destruct (enrich_outcome net fs3 log3) as (fs4 & log4 & H4 & Hrel).
  unfold mbind, M_bind at 1. rewrite H4. intros [= <- _]. simpl.
  assert (Forall stored_ok fs4) as Hstored.
  { clear H4. induction Hrel as [|f f' fs fs' Hf _ IH]; [constructor|].
    apply Forall_cons in H3 as [Hfresh H3].
    constructor; [by eapply same_or_enriched_stored|by apply IH]. }
  apply Forall_forall. intros f Hf. rewrite Forall_forall in Hstored.
  apply Hstored. eapply elem_of_sublist; [exact Hf|apply dedupe_sublist].
Qed.

End stored_facts.

(** X20. Every finding that [_check_vulnerabilities] stores is a finding
    of the advisory service or of the registry.  A registry finding has no
    severity of its own, and an advisory finding with a severity has no
    [cvss] key: no stored finding carries both a severity and [cvss]
    data. *)
Theorem stored_findings_shape (net : Network) (self self' : CVEChecker) (log log' : Log) :
  _check_vulnerabilities net self log = (Some self', log') →
  Forall (λ f,
    ((f_source f = Some "OSV"
      ∧ (Py.truthy (f_severity f) = true → f_cvss f = CvssUnset))
     ∨ (f_source f = Some "NVD" ∧ f_severity f = None))
    ∧ ¬ (Py.truthy (f_severity f) = true ∧ ∃ c, f_cvss f = CvssSet c))
    (vulnerabilities self').
Proof.
  intros Hrun. eapply Forall_impl; [by eapply check_vulnerabilities_stored|].
  intros f Hf. split; [exact Hf|].
  intros [Hsev [c Hc]]. destruct Hf as [[_ Hunset]|[_ Hnone]].
  - rewrite (Hunset Hsev) in Hc. done.
  - by rewrite Hnone in Hsev.
Qed.

(** ** The further properties at work on the sample data *)

Lemma aggregate_below_classifier_witness :
  Forall (λ v, has_label v
               ∨ as_number (baseScore (cvss_or_empty (f_cvss v))) = None)
    [finding_first; finding_later; finding_no_id]
  ∧ _sev_order (Some (_highest_severity [finding_first; finding_later; finding_no_id]))
    = max_rank ((λ v, _sev_order (Some (_severity_of v)))
                <$> [finding_first; finding_later; finding_no_id]).
Proof.
  assert (Forall (λ v, has_label v
                       ∨ as_number (baseScore (cvss_or_empty (f_cvss v))) = None)
            [finding_first; finding_later; finding_no_id]) as Hall.
  { apply Forall_cons; split; [by right|].
    apply Forall_cons; split; [by left; left|].
    apply Forall_cons; split; [by left; left|constructor]. }
  split; [exact Hall|].
  destruct (aggregate_below_classifier [finding_first; finding_later; finding_no_id])
    as [_ Heq].
  exact (Heq Hall).
Defined.

Lemma clean_version_strips_mark_witness :
  clean_ends Py.is_space "3.0.2"
  ∧ all_chars Py.is_space " " = true
  ∧ _clean_version (Some ("3.0.2" +:+ " " +:+ "(installed)" +:+ "")) = "3.0.2".
Proof.
  assert (clean_ends Py.is_space "3.0.2") as Hclean by (by split).
  split; [exact Hclean|]. split; [reflexivity|].
  destruct (clean_version_strips_mark "3.0.2" " " "") as (_ & _ & Hmark & _).
  exact (Hmark Hclean eq_refl eq_refl).
Defined.

Lemma recommendations_per_package_witness :
  ∃ recs,
    _generate_recommendations checker_with_findings = Some recs
    ∧ rec_package <$> recs = ["openssl"; "zlib"]
    ∧ NoDup (rec_package <$> recs)
    ∧ Sorted String.le (rec_package <$> recs).
Proof.
  destruct (_generate_recommendations checker_with_findings) as [recs|] eqn:Hrecs;
    [|exfalso; vm_compute in Hrecs; discriminate Hrecs].
  exists recs. split; [reflexivity|].
  destruct (recommendations_per_package checker_with_findings recs Hrecs)
    as (Hnodup & Hsorted & _).
  split; [|split; [exact Hnodup|exact Hsorted]].
  vm_compute in Hrecs. injection Hrecs as <-. reflexivity.
Defined.

Lemma guess_cpe_names_package_witness :
  guess_cpe_for_conan net_zlib "zlib" "1.2.13" []
  = (Some (Some "cpe:2.3:a:zlib:zlib:1.2.13:*:*:*:*:*:*:*"), [GetCpeSearch "zlib"])
  ∧ no_colon "1.2.13"
  ∧ Py.split_colon "cpe:2.3:a:zlib:zlib:1.2.13:*:*:*:*:*:*:*" !! 2 = Some "a".
Proof.
  split; [reflexivity|]. split; [reflexivity|].
  destruct (guess_cpe_names_package net_zlib "zlib" "1.2.13" [] [GetCpeSearch "zlib"]
              "cpe:2.3:a:zlib:zlib:1.2.13:*:*:*:*:*:*:*" eq_refl eq_refl) as [Hclass _].
  exact Hclass.
Defined.

Lemma system_queries_by_stage_witness :
  offline checker_stages = false
  ∧ system_by_stage (dependencies checker_stages) ≠ []
  ∧ omap stage_batch (system_by_stage (dependencies checker_stages))
    = [PostQueryBatch [QPackage "curl" "Ubuntu" "7.81.0-1ubuntu1.16"];
       PostQueryBatch [QPackage "openssl" "Alpine" "3.1.4-r5";
                       QPackage "busybox" "Alpine" "system"]]
  ∧ ∃ findings,
      _query_osv_for_system net_sample checker_stages []
      = (Some findings,
         [] ++ omap stage_batch (system_by_stage (dependencies checker_stages)))
      ∧ Forall (λ f, f_source f = Some "OSV") findings.
Proof.
  assert (system_by_stage (dependencies checker_stages) ≠ []) as Hne by discriminate.
  split; [reflexivity|]. split; [exact Hne|]. split; [by vm_compute|].
  destruct (system_queries_by_stage net_sample checker_stages [] eq_refl Hne)
    as (findings & Hrun & Hsrc & _).
  exists findings. split; [exact Hrun|exact Hsrc].
Defined.

Lemma submodule_queries_witness :
  offline checker_online = false
  ∧ (_query_osv_for_submodules net_sample checker_online []).2
    = [] ++ option_list (submodules_batch checker_online).
Proof.
  split; [reflexivity|].
  destruct (submodule_queries net_sample checker_online [] eq_refl) as [Hlog _].
  exact Hlog.
Defined.

Lemma system_queries_without_stages_witness :
  offline checker_ubuntu = false
  ∧ system_by_stage (dependencies checker_ubuntu) = []
  ∧ (_query_osv_for_system net_sample checker_ubuntu []).2
    = [] ++ option_list (system_batch checker_ubuntu).
Proof.
  split; [reflexivity|]. split; [reflexivity|].
  destruct (system_queries_without_stages net_sample checker_ubuntu [] eq_refl eq_refl)
    as [Hlog _].
  exact Hlog.
Defined.

Lemma conan_findings_attribution_witness :
  ∃ findings log',
    offline checker_online = false
    ∧ _query_nvd_for_conan net_registry checker_online [] = (Some findings, log')
    ∧ length findings = 1
    ∧ Forall (λ f, ∃ name info,
                (name, info) ∈ conan (dependencies checker_online)
                ∧ f_source f = Some "NVD"
                ∧ f_package f = Some name
                ∧ f_version f = Some (_clean_version (dep_version info))
                ∧ _clean_version (dep_version info) ≠ ""
                ∧ f_severity f = None) findings.
Proof.
  destruct (_query_nvd_for_conan net_registry checker_online [])
    as [[findings|] log'] eqn:Hrun;
    [|exfalso; vm_compute in Hrun; discriminate Hrun].
  exists findings, log'. split; [reflexivity|]. split; [reflexivity|].
  split; [|exact (conan_findings_attribution net_registry checker_online [] log'
                    findings eq_refl Hrun)].
  vm_compute in Hrun. injection Hrun as <- _. reflexivity.
Defined.

Lemma stored_findings_shape_witness :
  ∃ self' log',
    _check_vulnerabilities net_sample checker_online [] = (Some self', log')
    ∧ length (vulnerabilities self') = 1
    ∧ Forall (λ f,
        ((f_source f = Some "OSV"
          ∧ (Py.truthy (f_severity f) = true → f_cvss f = CvssUnset))
         ∨ (f_source f = Some "NVD" ∧ f_severity f = None))
        ∧ ¬ (Py.truthy (f_severity f) = true ∧ ∃ c, f_cvss f = CvssSet c))
        (vulnerabilities self').
Proof.
  destruct (_check_vulnerabilities net_sample checker_online [])
    as [[self'|] log'] eqn:Hrun;
    [|exfalso; vm_compute in Hrun; discriminate Hrun].
  exists self', log'. split; [reflexivity|].
  split; [|exact (stored_findings_shape net_sample checker_online self' [] log' Hrun)].
  vm_compute in Hrun. injection Hrun as <- _. reflexivity.
Defined.

(** ** Recognition of the vendor identifier *)

Section ubuntu_facts.

Implicit Types (s t g fid : string).

Lemma strip_prefix_Some p s t : Py.strip_prefix p s = Some t ↔ s = p +:+ t.
Proof.
  revert s. induction p as [|a p IH]; intros s.
  - change ("" +:+ t) with t. simpl. split; [by intros [= ->]|by intros ->].
  - rewrite append_cons. destruct s as [|b s]; simpl; [done|].
    destruct (Ascii.eqb_spec a b) as [->|Hne].
    + rewrite IH. split; [by intros ->|by intros [= ->]].
    + split; [done|]. intros [= ? _]. by subst.
Qed.

Lemma chop_newline_cases s :
  s = chop_newline s ∨ s = chop_newline s +:+ newline.
Proof.
  induction s as [|c s IH]; [by left|].
  destruct s as [|c' s].
  - simpl. destruct (Ascii.eqb_spec c "010"%char) as [->|_]; [by right|by left].
  - change (chop_newline (String c (String c' s)))
      with (String c (chop_newline (String c' s))).
    rewrite append_cons. destruct IH as [<-|<-]; auto.
Qed.

Lemma chop_newline_snoc s : chop_newline (s +:+ newline) = s.
Proof.
  induction s as [|c s IH]; [done|].
  rewrite append_cons. destruct s as [|c' s]; [done|].
  rewrite append_cons in *.
  change (chop_newline (String c (String c' (s +:+ newline))))
    with (String c (chop_newline (String c' (s +:+ newline)))).
  by rewrite IH.
Qed.

Lemma is_digit_not_newline c : Py.is_digit c = true → Ascii.eqb c "010"%char = false.
Proof. by destruct c as [[] [] [] [] [] [] [] []]. Qed.

Lemma chop_newline_digits s t :
  all_digits t = true → t ≠ "" → chop_newline (s +:+ t) = s +:+ t.
Proof.
  intros Ht Hne. induction s as [|c s IH].
  - change ("" +:+ t) with t. clear Hne. induction t as [|c t IH]; [done|].
    simpl in Ht. apply andb_true_iff in Ht as [Hc Ht].
    destruct t as [|c' t].
    + simpl. by rewrite is_digit_not_newline.
    + change (chop_newline (String c (String c' t)))
        with (String c (chop_newline (String c' t))).
      by rewrite (IH Ht).
  - rewrite append_cons. destruct (s +:+ t) as [|c' r] eqn:Hst.
    + destruct s; [by destruct t|done].
    + change (chop_newline (String c (String c' r)))
        with (String c (chop_newline (String c' r))).
      by rewrite IH.
Qed.

Lemma take_digits_Some n s t :
  take_digits n s = Some t ↔
  ∃ d, s = d +:+ t ∧ String.length d = n ∧ all_digits d = true.
Proof.
  revert s. induction n as [|n IH]; intros s; simpl.
  - split.
    + intros [= ->]. by exists "".
    + intros (d & -> & Hlen & _). by destruct d.
  - destruct s as [|c s].
    + split; [done|]. intros (d & Hs & Hlen & _). by destruct d.
    + destruct (Py.is_digit c) eqn:Hc.
      * rewrite IH. split.
        -- intros (d & -> & <- & Hd). exists (String c d). simpl. by rewrite Hc, Hd.
        -- intros (d & Hs & Hlen & Hd). destruct d as [|c' d]; [done|].
           rewrite append_cons in Hs. simplify_eq/=.
           apply andb_true_iff in Hd as [_ Hd]. by exists d.
      * split; [done|]. intros (d & Hs & Hlen & Hd). destruct d as [|c' d]; [done|].
        rewrite append_cons in Hs. simplify_eq/=. by rewrite Hc in Hd.
Qed.

Lemma ubuntu_cve_match_shape fid g :
  ubuntu_cve_match fid = Some g ↔
  cve_shape g ∧ (fid = "UBUNTU-CVE-" +:+ g ∨ fid = "UBUNTU-CVE-" +:+ g +:+ newline).
Proof.
  unfold ubuntu_cve_match, cve_shape. split.
  - destruct (Py.strip_prefix "UBUNTU-CVE-" fid) as [rest|] eqn:Hrest;
      cbn [mbind option_bind]; [|by intros [=]].
    apply strip_prefix_Some in Hrest as ->.
    destruct (take_digits 4 (chop_newline rest)) as [after|] eqn:Hyear;
      cbn [mbind option_bind]; [|by intros [=]].
    apply take_digits_Some in Hyear as (year & Hgroup & Hlen & Hyear).
    destruct (Py.strip_prefix "-" after) as [number|] eqn:Hdash;
      cbn [mbind option_bind]; [|by intros [=]].
    apply strip_prefix_Some in Hdash as ->.
    case_bool_decide as Hne; cbn [negb andb]; [by intros [=]|].
    destruct (all_digits number) eqn:Hnumber; [|by intros [=]]. intros [= <-].
    split; [by exists year, number|].
    destruct (chop_newline_cases rest) as [Hsame|Hnl]; [left|right]; congruence.
  - intros [(year & number & -> & Hlen & Hyear & Hne & Hnumber) Hfid].
    assert (chop_newline ((year +:+ "-") +:+ number) = (year +:+ "-") +:+ number)
      as Hchop by (by apply chop_newline_digits).
    rewrite append_assoc in Hchop.
    assert (∃ rest, Py.strip_prefix "UBUNTU-CVE-" fid = Some rest
                    ∧ chop_newline rest = year +:+ "-" +:+ number)
      as (rest & -> & Hrest).
    { destruct Hfid as [->| ->].
      - eexists. split; [by apply strip_prefix_Some|done].
      - eexists. split; [by apply strip_prefix_Some|]. apply chop_newline_snoc. }
    cbn [mbind option_bind]. rewrite Hrest.
    assert (take_digits 4 (year +:+ "-" +:+ number) = Some ("-" +:+ number)) as ->.
    { apply take_digits_Some. by exists year. }
    cbn [mbind option_bind].
    assert (Py.strip_prefix "-" ("-" +:+ number) = Some number) as ->.
    { by apply strip_prefix_Some. }
    cbn [mbind option_bind]. rewrite bool_decide_eq_false_2 by done.
    by rewrite Hnumber.
Qed.

End ubuntu_facts.

(** X21. The pattern of [_enrich_osv_with_nvd] accepts an id exactly when
    it is ["UBUNTU-CVE-"], four digits, a dash and at least one digit,
    with at most one new-line after them, and the group is what follows
    the prefix without that new-line.  For a finding with such an id and
    no alias that starts with ["CVE-"], the identifier to look up is the id
    without its ["UBUNTU-"] prefix. *)
Theorem ubuntu_id_translation (f : Finding) (g : string) :
  (∀ fid group,
     ubuntu_cve_match fid = Some group ↔
     cve_shape group
     ∧ (fid = "UBUNTU-CVE-" +:+ group ∨ fid = "UBUNTU-CVE-" +:+ group +:+ newline))
  ∧ (filter (λ a, Py.startswith "CVE-" a = true) (f_aliases f) = [] →
     f_id f = Some ("UBUNTU-CVE-" +:+ g) → cve_shape g →
     cve_ids_of f = ["CVE-" +:+ g]).
Proof.
  split; [apply ubuntu_cve_match_shape|].
  intros Haliases Hid Hshape. unfold cve_ids_of. rewrite Haliases, Hid.
  cbn [Py.or_empty].
  assert (ubuntu_cve_match ("UBUNTU-CVE-" +:+ g) = Some g) as ->; [|done].
  apply ubuntu_cve_match_shape. auto.
Qed.

(** ** What enrichment does to the classification *)

Section enrichment_classifier_facts.

Context (net : Network).

Lemma fresh_enriched_unknown f f' :
  fresh f → same_or_enriched net f f' → f' = f ∨ _severity_of f = "UNKNOWN".
Proof.
  intros Hfresh [->|(Hsrc & Hsev & _)]; [by left|]. right.
  destruct Hfresh as [[_ Hcvss]|[Hnvd _]]; [|congruence].
  unfold _severity_of. rewrite truthy_upper_or_empty, Hsev, Hcvss. done.
Qed.

End enrichment_classifier_facts.

(** X22. On findings as the queries return them, cross-enrichment changes
    only findings that [_severity_of] classifies UNKNOWN: a finding with
    any other classification is the same after the pass. *)
Theorem enrich_only_unknown (net : Network) (items : list Finding) (log : Log) :
  Forall fresh items →
  ∃ items' log',
    _enrich_osv_with_nvd net items log = (Some items', log')
    ∧ Forall2 (λ f f', _severity_of f ≠ "UNKNOWN" → f' = f) items items'.
Proof.
  intros Hfresh.
  destruct (enrich_outcome net items log) as (items' & log' & Hrun & Hrel).
  exists items', log'. split; [done|]. clear Hrun. revert Hfresh.
  induction Hrel as [|f f' fs fs' Hf _ IH]; intros Hfresh; [constructor|].
  apply Forall_cons in Hfresh as [Hfresh1 Hfresh].
  constructor; [|by apply IH].
  intros Hknown. by destruct (fresh_enriched_unknown net f f' Hfresh1 Hf).
Qed.

(** ** Registry findings *)

(** X23. [_nvd_results_to_findings] emits one finding per vulnerability of
    the answer, in order, under the package and version given.  Its [cvss]
    is the data of the first entry of the V3.1 metrics followed by the
    V3.0 metrics, so a V3.1 entry always wins, and [None] when there is no
    entry or that entry has no data; without any entry the finding is
    classified UNKNOWN. *)
Theorem nvd_findings_metrics (nvd_resp : NvdResponse) (package version : string) :
  Forall2 (λ f item,
      let metrics := cve_metrics (item_cve item) in
      f_source f = Some "NVD"
      ∧ f_id f = cve_id (item_cve item)
      ∧ f_package f = Some package
      ∧ f_version f = Some version
      ∧ f_summary f = head (cve_descriptions (item_cve item)) ≫= desc_value
      ∧ f_cvss f = from_option CvssSet CvssNull
                     (head (cvssMetricV31 metrics ++ cvssMetricV30 metrics) ≫= cvssData)
      ∧ (cvssMetricV31 metrics = [] → cvssMetricV30 metrics = [] →
         _severity_of f = "UNKNOWN"))
    (_nvd_results_to_findings nvd_resp package version)
    (nvd_vulnerabilities nvd_resp).
Proof.
  unfold _nvd_results_to_findings.
  induction (nvd_vulnerabilities nvd_resp) as [|item items IH]; [constructor|].
  rewrite fmap_cons. constructor; [|exact IH]. simpl.
  repeat (split; [done|]). split; [by destruct (cve_descriptions _)|].
  split.
  - unfold nvd_cvss.
    by destruct (cvssMetricV31 _) as [|m ms], (cvssMetricV30 _) as [|m' ms'].
  - intros H31 H30. unfold _severity_of, nvd_finding, nvd_cvss. cbn [f_severity f_cvss].
    by rewrite H31, H30.
Qed.

(** ** Recognition of the base image *)

Section base_facts.

Lemma startswith_append p s : Py.startswith p s = true ↔ ∃ t, s = p +:+ t.
Proof.
  revert s. induction p as [|a p IH]; intros s.
  - split; [intros _; by exists s|done].
  - destruct s as [|b s]; cbn [Py.startswith].
    + split; [done|]. intros [t Ht]. by rewrite append_cons in Ht.
    + destruct (Ascii.eqb_spec a b) as [->|Hne].
      * rewrite IH. split; intros [t Ht]; exists t.
        -- by rewrite append_cons, Ht.
        -- rewrite append_cons in Ht. by simplify_eq.
      * split; [done|]. intros [t Ht]. rewrite append_cons in Ht. by simplify_eq.
Qed.

Lemma contains_append p s : Py.contains p s = true ↔ ∃ a b, s = a +:+ p +:+ b.
Proof.
  induction s as [|c s IH].
  - cbn [Py.contains]. rewrite orb_false_r, startswith_append. split.
    + intros [t Ht]. by exists "", t.
    + intros ([|c a] & b & Hs); [by exists b|by rewrite append_cons in Hs].
  - cbn [Py.contains]. rewrite orb_true_iff, IH, startswith_append. split.
    + intros [[t Ht]|(a & b & Hs)]; [by exists "", t|].
      exists (String c a), b. by rewrite append_cons, Hs.
    + intros ([|c' a] & b & Hs); [left; by exists b|].
      right. exists a, b. rewrite append_cons in Hs. by simplify_eq.
Qed.

Lemma lower_append s t : Py.lower (s +:+ t) = Py.lower s +:+ Py.lower t.
Proof.
  unfold Py.lower. induction s as [|c s IH]; [done|].
  rewrite append_cons. cbn [Py.map_chars]. by rewrite append_cons, IH.
Qed.

Lemma lower_split s a b :
  Py.lower s = a +:+ b → ∃ a' b', s = a' +:+ b' ∧ Py.lower a' = a ∧ Py.lower b' = b.
Proof.
  revert s. induction a as [|c a IH]; intros s Hs.
  - by exists "", s.
  - destruct s as [|d s]; [by rewrite append_cons in Hs|].
    rewrite append_cons in Hs. unfold Py.lower in Hs. cbn [Py.map_chars] in Hs.
    injection Hs as Hc Hs. destruct (IH s Hs) as (a' & b' & -> & Ha & Hb).
    exists (String d a'), b'. rewrite append_cons. split; [done|]. split; [|done].
    unfold Py.lower. cbn [Py.map_chars]. by rewrite Hc, <- Ha.
Qed.

Lemma contains_lower word base :
  Py.contains word (Py.lower base) = true ↔ mentions word base.
Proof.
  rewrite contains_append. split.
  - intros (a & b & Hs). apply lower_split in Hs as (pre & rest & -> & _ & Hrest).
    apply lower_split in Hrest as (mid & post & -> & Hmid & _).
    by exists pre, mid, post.
  - intros (pre & mid & post & -> & <-). exists (Py.lower pre), (Py.lower post).
    by rewrite !lower_append.
Qed.

End base_facts.

(** X24. [_ecosystem_from_base] answers by the names a base image mentions,
    whatever the case of their letters and wherever they stand: Ubuntu when
    it mentions ubuntu; Debian when it mentions debian and not ubuntu;
    Alpine when it mentions alpine and neither of the two; and nothing
    exactly when it mentions none of the three. *)
Theorem ecosystem_from_base_mentions (base : option string) :
  let b := Py.or_empty base in
  (_ecosystem_from_base base = Some "Ubuntu" ↔ mentions "ubuntu" b)
  ∧ (_ecosystem_from_base base = Some "Debian"
     ↔ ¬ mentions "ubuntu" b ∧ mentions "debian" b)
  ∧ (_ecosystem_from_base base = Some "Alpine"
     ↔ ¬ mentions "ubuntu" b ∧ ¬ mentions "debian" b ∧ mentions "alpine" b)
  ∧ (_ecosystem_from_base base = None
     ↔ ¬ mentions "ubuntu" b ∧ ¬ mentions "debian" b ∧ ¬ mentions "alpine" b).
Proof.
  intros b. unfold _ecosystem_from_base. fold b.
  rewrite <- !contains_lower.
  destruct (Py.contains "ubuntu" (Py.lower b)),
    (Py.contains "debian" (Py.lower b)),
    (Py.contains "alpine" (Py.lower b)); naive_solver.
Qed.

(** ** The package-manager manifest *)

Section manifest_facts.

Implicit Types (lines : list string) (raw name version : string)
  (deps before : list (string * DepInfo)).

Lemma append_nil_l s : "" +:+ s = s.
Proof. done. Qed.

Lemma split_slash_Some line name version :
  split_slash line = Some (name, version)
  ↔ line = name +:+ "/" +:+ version ∧ no_slash name.
Proof.
  unfold no_slash. revert name. induction line as [|c line IH]; intros name.
  - split; [done|]. intros [Hline _].
    destruct name; by rewrite ?append_nil_l, ?append_cons in Hline.
  - cbn [split_slash]. split.
    + destruct (Ascii.eqb_spec c "/"%char) as [->|Hc]; [by intros [= <- <-]|].
      destruct (split_slash line) as [[n v]|] eqn:Hsplit; [|done].
      cbn [mbind option_bind]. intros [= <- <-].
      destruct (proj1 (IH n) eq_refl) as [-> Hn].
      rewrite append_cons. split; [done|]. cbn [Py.mem_char].
      rewrite Hn, orb_false_r. by apply Ascii.eqb_neq.
    + intros [Hline Hname]. destruct name as [|d name].
      * rewrite append_nil_l, append_cons in Hline. injection Hline as -> ->.
        by rewrite Ascii.eqb_refl.
      * rewrite append_cons in Hline. injection Hline as <- Hline.
        cbn [Py.mem_char] in Hname. apply orb_false_iff in Hname as [Hc Hname].
        rewrite Ascii.eqb_sym, Hc.
        by rewrite (proj2 (IH name) (conj Hline Hname)).
Qed.

Lemma dict_set_NoDup {V} key (value : V) (d : list (string * V)) :
  NoDup d.*1 → NoDup (dict_set key value d).*1
  ∧ ∀ k, k ∈ (dict_set key value d).*1 ↔ k = key ∨ k ∈ d.*1.
Proof.
  induction d as [|[k0 v0] d IH]; intros Hd.
  - split; [apply NoDup_singleton|]. intros k. simpl. set_solver.
  - rewrite fmap_cons in Hd. apply NoDup_cons in Hd as [Hk0 Hd].
    destruct (IH Hd) as [IH1 IH2]. cbn [dict_set]. case_bool_decide as Hk.
    + subst k0. split; [rewrite fmap_cons; by apply NoDup_cons|].
      intros k. rewrite !fmap_cons. set_solver.
    + split.
      * rewrite fmap_cons. apply NoDup_cons. split; [|done].
        rewrite IH2. simpl. naive_solver.
      * intros k. rewrite !fmap_cons, !elem_of_cons, IH2. naive_solver.
Qed.

Lemma dict_set_elem {V} key (value : V) (d : list (string * V)) k v :
  NoDup d.*1 →
  (k, v) ∈ dict_set key value d ↔ (k = key ∧ v = value) ∨ (k ≠ key ∧ (k, v) ∈ d).
Proof.
  induction d as [|[k0 v0] d IH]; intros Hd.
  - simpl. rewrite list_elem_of_singleton. split.
    + intros [= -> ->]. by left.
    + intros [[-> ->]|[_ Hin]]; [done|]. by apply elem_of_nil in Hin.
  - rewrite fmap_cons in Hd. apply NoDup_cons in Hd as [Hk0 Hd].
    specialize (IH Hd). cbn [dict_set]. case_bool_decide as Hk.
    + subst k0. rewrite !elem_of_cons. split.
      * intros [[= -> ->]|Hin]; [by left|]. right. split; [|by right].
        intros ->. apply Hk0. apply list_elem_of_fmap. by exists (key, v).
      * intros [[-> ->]|[Hne [[= -> ->]|Hin]]]; [by left|done|by right].
    + rewrite !elem_of_cons, IH. simpl in *. naive_solver.
Qed.

Lemma under_requires_prefix lines post i :
  i ≤ length lines → under_requires (lines ++ post) i ↔ under_requires lines i.
Proof.
  intros Hi. unfold under_requires. split.
  - intros (j & raw & Hj & Hraw & Hstrip & Hbetween).
    exists j, raw. rewrite lookup_app_l in Hraw by lia.
    repeat (split; [done|]). intros k raw' Hk Hraw'.
    apply (Hbetween k raw' Hk). rewrite lookup_app_l by lia. done.
  - intros (j & raw & Hj & Hraw & Hstrip & Hbetween).
    exists j, raw. rewrite lookup_app_l by lia.
    repeat (split; [done|]). intros k raw' Hk Hraw'.
    apply (Hbetween k raw' Hk). rewrite lookup_app_l in Hraw' by lia. done.
Qed.

Lemma under_requires_S lines n raw :
  lines !! n = Some raw →
  under_requires lines (S n)
  ↔ Py.strip raw = "[requires]" ∨ (under_requires lines n ∧ ¬ header raw).
Proof.
  intros Hraw. unfold under_requires. split.
  - intros (j & raw0 & Hj & Hraw0 & Hstrip & Hbetween).
    destruct (decide (j = n)) as [->|Hne].
    + left. by simplify_eq.
    + right. split; [|apply (Hbetween n raw); [lia|done]].
      exists j, raw0. split; [lia|]. repeat (split; [done|]).
      intros k raw' Hk. apply Hbetween. lia.
  - intros [Hstrip|[(j & raw0 & Hj & Hraw0 & Hstrip & Hbetween) Hheader]].
    + exists n, raw. split; [lia|]. repeat (split; [done|]). intros k raw' Hk. lia.
    + exists j, raw0. split; [lia|]. repeat (split; [done|]).
      intros k raw' Hk Hraw'. destruct (decide (k = n)) as [->|Hne].
      * by simplify_eq.
      * apply (Hbetween k raw'); [lia|done].
Qed.

Lemma under_requires_none : ¬ under_requires [] 0.
Proof. intros (j & _ & Hj & _). lia. Qed.

Lemma requirement_lt lines i name version :
  requirement lines i name version → i < length lines.
Proof. intros (raw & Hraw & _). by apply lookup_lt_Some in Hraw. Qed.

Lemma requirement_snoc lines raw i name version :
  requirement (lines ++ [raw]) i name version
  ↔ requirement lines i name version
    ∨ (i = length lines ∧ last_requirement lines raw name version).
Proof.
  unfold requirement, last_requirement. split.
  - intros (raw' & Hraw' & Hunder & Hrest).
    destruct (decide (i < length lines)) as [Hlt|Hge].
    + left. exists raw'. rewrite lookup_app_l in Hraw' by done.
      rewrite under_requires_prefix in Hunder by lia. done.
    + assert (i = length lines) as ->.
      { apply lookup_lt_Some in Hraw'. rewrite length_app in Hraw'. simpl in Hraw'. lia. }
      right. rewrite list_lookup_middle in Hraw' by done. simplify_eq.
      rewrite under_requires_prefix in Hunder by lia. done.
  - intros [(raw' & Hraw' & Hunder & Hrest)|[-> (Hunder & Hrest)]].
    + exists raw'. pose proof (lookup_lt_Some _ _ _ Hraw') as Hlt.
      rewrite lookup_app_l by done. rewrite under_requires_prefix by lia. done.
    + exists raw. rewrite list_lookup_middle by done.
      rewrite under_requires_prefix by lia. done.
Qed.

Lemma recorded_snoc_skip lines raw before name info :
  (∀ n v, ¬ last_requirement lines raw n v) →
  recorded (lines ++ [raw]) before name info ↔ recorded lines before name info.
Proof.
  intros Hskip.
  assert (∀ i n v, requirement (lines ++ [raw]) i n v ↔ requirement lines i n v) as Hsame.
  { intros i n v. rewrite requirement_snoc. split; [|by left].
    intros [?|[_ Hlast]]; [done|]. by destruct (Hskip n v). }
  unfold recorded. split.
  - intros [(i & version & Hreq & Hlast & ->)|[Hin Hnone]].
    + left. exists i, version. rewrite <- Hsame. split; [done|]. split; [|done].
      intros i' version' Hi'. rewrite <- Hsame. by apply Hlast.
    + right. split; [done|]. intros i version. rewrite <- Hsame. apply Hnone.
  - intros [(i & version & Hreq & Hlast & ->)|[Hin Hnone]].
    + left. exists i, version. rewrite Hsame. split; [done|]. split; [|done].
      intros i' version' Hi'. rewrite Hsame. by apply Hlast.
    + right. split; [done|]. intros i version. rewrite Hsame. apply Hnone.
Qed.

Lemma recorded_snoc_add lines raw before name version n info :
  last_requirement lines raw name version →
  (∀ n' v', last_requirement lines raw n' v' → n' = name ∧ v' = version) →
  recorded (lines ++ [raw]) before n info
  ↔ (n = name ∧ info = mkDep (Some version) None)
    ∨ (n ≠ name ∧ recorded lines before n info).
Proof.
  intros Hlast Honly. unfold recorded. split.
  - intros [(i & v & Hreq & Hlater & ->)|[Hin Hnone]].
    + apply requirement_snoc in Hreq as [Hreq|[-> Hreq]].
      * assert (n ≠ name) as Hne.
        { intros ->. apply (Hlater (length lines) version).
          - by apply requirement_lt in Hreq.
          - apply requirement_snoc. by right. }
        right. split; [done|]. left. exists i, v. split; [done|]. split; [|done].
        intros i' v' Hi' Hreq'. apply (Hlater i' v' Hi').
        apply requirement_snoc. by left.
      * destruct (Honly n v Hreq) as [-> ->]. by left.
    + assert (n ≠ name) as Hne.
      { intros ->. apply (Hnone (length lines) version).
        apply requirement_snoc. by right. }
      right. split; [done|]. right. split; [done|].
      intros i v Hreq. apply (Hnone i v). apply requirement_snoc. by left.
  - intros [[-> ->]|[Hne [(i & v & Hreq & Hlater & ->)|[Hin Hnone]]]].
    + left. exists (length lines), version. split; [apply requirement_snoc; by right|].
      split; [|done]. intros i' v' Hi' Hreq'. apply requirement_lt in Hreq'.
      rewrite length_app in Hreq'. simpl in Hreq'. lia.
    + left. exists i, v. split; [apply requirement_snoc; by left|]. split; [|done].
      intros i' v' Hi' [Hreq'|[_ Hreq']]%requirement_snoc.
      * by apply (Hlater i' v' Hi').
      * by destruct (Honly n v' Hreq').
    + right. split; [done|]. intros i v [Hreq|[_ Hreq]]%requirement_snoc.
      * by apply (Hnone i v).
      * by destruct (Honly n v Hreq).
Qed.

Lemma conan_lines_inv lines before :
  NoDup before.*1 →
  let state := foldl conan_line (false, before) lines in
  (state.1 = true ↔ under_requires lines (length lines))
  ∧ NoDup state.2.*1
  ∧ ∀ name info, (name, info) ∈ state.2 ↔ recorded lines before name info.
Proof.
  intros Hbefore. induction lines as [|raw lines IH] using rev_ind.
  - simpl. split; [split; [done|by intros ?%under_requires_none]|]. split; [done|].
    intros name info. unfold recorded. split.
    + intros Hin. right. split; [done|].
      intros i version Hreq%requirement_lt. simpl in Hreq. lia.
    + intros [(i & version & ?%requirement_lt & _)|[Hin _]]; [simpl in *; lia|done].
  - cbv zeta in *. rewrite foldl_app. cbn [foldl].
    destruct (foldl conan_line (false, before) lines) as [open deps].
    destruct IH as (IHopen & IHnodup & IHdeps). simpl in IHopen, IHnodup, IHdeps.
    rewrite length_app. cbn [length]. rewrite Nat.add_1_r.
    rewrite (under_requires_S (lines ++ [raw]) (length lines) raw)
      by (by apply list_lookup_middle).
    rewrite under_requires_prefix by lia.
    unfold conan_line. set (line := Py.strip raw).
    assert (∀ n v, last_requirement lines raw n v →
                   open = true ∧ split_slash line = Some (n, v)
                   ∧ Py.startswith "[" line = false
                   ∧ Py.startswith "#" line = false) as Hlast.
    { intros n v (Hunder & Hline & Hn & Hheader & Hcomment).
      split; [by apply IHopen|]. split; [by apply split_slash_Some|].
      split; [|done]. unfold header in Hheader. fold line in Hheader.
      by destruct (Py.startswith "[" line). }
    case_bool_decide as Hrequires.
    { simpl. split; [naive_solver|]. split; [done|]. intros name info.
      rewrite IHdeps. symmetry. apply recorded_snoc_skip.
      intros n v (_ & _ & _ & [] & _). unfold header. fold line. by rewrite Hrequires. }
    destruct (Py.startswith "[" line) eqn:Hheader.
    { simpl. split; [split; [done|]; intros [?|[_ []]]; done|]. split; [done|].
      intros name info. rewrite IHdeps. symmetry. apply recorded_snoc_skip.
      intros n v (_ & _ & _ & [] & _). done. }
    assert (open = true ↔ Py.strip raw = "[requires]"
                          ∨ under_requires lines (length lines) ∧ ¬ header raw) as Hopen.
    { rewrite IHopen. unfold header. fold line. rewrite Hheader. naive_solver. }
    destruct (open && negb (bool_decide (line = "")) && negb (Py.startswith "#" line))
      eqn:Htest.
    + apply andb_true_iff in Htest as [[-> Hne]%andb_true_iff Hcomment].
      apply negb_true_iff in Hcomment.
      destruct (split_slash line) as [[name version]|] eqn:Hsplit.
      * simpl. split; [done|]. split; [by apply dict_set_NoDup|].
        intros n info. rewrite dict_set_elem by done. rewrite IHdeps.
        symmetry. apply recorded_snoc_add.
        -- apply split_slash_Some in Hsplit as [Hline Hname].
           split; [by apply IHopen|]. split; [done|]. split; [done|].
           split; [|done]. unfold header. fold line. by rewrite Hheader.
        -- intros n' v' (_ & Hsplit' & _)%Hlast. by simplify_eq.
      * simpl. split; [done|]. split; [done|]. intros name info.
        rewrite IHdeps. symmetry. apply recorded_snoc_skip.
        intros n v (_ & Hsplit' & _)%Hlast. by simplify_eq.
    + simpl. split; [done|]. split; [done|]. intros name info.
      rewrite IHdeps. symmetry. apply recorded_snoc_skip.
      intros n v (-> & Hsplit & _ & Hcomment)%Hlast.
      rewrite Hcomment in Htest. simpl in Htest. case_bool_decide as Hempty; [|done].
      by rewrite Hempty in Hsplit.
Qed.

End manifest_facts.

(** X25. [_collect_conan_dependencies] reads the manifest line by line.
    Afterwards a name is recorded at most once, and what is recorded for a
    name is the version of the last line that requires it (a line under
    the heading [[requires]] that is neither a heading nor a comment and
    reads [name/version], cut at its first slash), or, when no line
    requires the name, what was recorded before.  The other dependencies,
    the switch, the ecosystem and the findings are left as they were. *)
Theorem conan_manifest_requirements (content : string) (self : CVEChecker) :
  NoDup (conan (dependencies self)).*1 →
  let self' := _collect_conan_dependencies (Some content) self in
  NoDup (conan (dependencies self')).*1
  ∧ (∀ name info,
       (name, info) ∈ conan (dependencies self')
       ↔ recorded (split_lines content) (conan (dependencies self)) name info)
  ∧ system (dependencies self') = system (dependencies self)
  ∧ submodules (dependencies self') = submodules (dependencies self)
  ∧ system_by_stage (dependencies self') = system_by_stage (dependencies self)
  ∧ offline self' = offline self
  ∧ ecosystem self' = ecosystem self
  ∧ vulnerabilities self' = vulnerabilities self.
Proof.
  intros Hbefore self'.
  destruct (conan_lines_inv (split_lines content) _ Hbefore) as (_ & Hnodup & Hdeps).
  subst self'. cbn [_collect_conan_dependencies with_conan dependencies conan system
    submodules system_by_stage offline ecosystem vulnerabilities].
  split; [exact Hnodup|]. split; [exact Hdeps|]. done.
Qed.

(** ** Products that carry the version *)

Section cpe_exact_facts.

Lemma join_split_colon s : Py.join_colon (Py.split_colon s) = s.
Proof.
  induction s as [|c s IH]; [done|]. rewrite split_colon_cons.
  destruct (Ascii.eqb_spec c ":"%char) as [->|Hc].
  - destruct (Py.split_colon s) as [|w ws] eqn:Hsplit.
    + by destruct s.
    + cbn [Py.join_colon]. by rewrite append_nil_l, <- IH.
  - destruct (Py.split_colon s) as [|w ws] eqn:Hsplit.
    + by destruct s.
    + cbn [Py.join_colon] in *. destruct ws as [|w' ws]; [by rewrite IH|].
      by rewrite append_cons, IH.
Qed.

Lemma cpe_best_app_first name_l (pre post : list CpeProduct) item :
  Forall (λ item', ¬ candidate_ok name_l item') pre →
  candidate_ok name_l item →
  cpe_best name_l (pre ++ item :: post)
  = Some (Py.split_colon (Py.or_empty (cpeName item))).
Proof.
  intros Hpre Hok. induction Hpre as [|item' pre Hno _ IH]; cbn [app].
  - by destruct (cpe_best_cons name_l item post) as [[_ ->]|[? _]].
  - by destruct (cpe_best_cons name_l item' (pre ++ item :: post)) as [[? _]|[_ ->]].
Qed.

Lemma cpe_inject_exact cpe23 version :
  length (Py.split_colon cpe23) = 13 →
  Py.split_colon cpe23 !! 5 = Some version →
  version ≠ "" →
  cpe_inject (Py.split_colon cpe23) version = cpe23.
Proof.
  intros Hlen Hfield Hversion. unfold cpe_inject.
  rewrite Hlen. simpl. rewrite app_nil_r.
  rewrite bool_decide_eq_false_2 by done.
  rewrite list_insert_id by done. rewrite take_ge by lia.
  apply join_split_colon.
Qed.

End cpe_exact_facts.

(** X26. When the first product of the search that [guess_cpe_for_conan]
    accepts already has thirteen fields and carries the version asked for
    in field 5, the identifier returned is the name of that product,
    character for character. *)
Theorem guess_cpe_exact_product (net : Network) (name version : string) (log : Log)
    (pre post : list CpeProduct) (item : CpeProduct) (cpe23 : string) :
  nvd_cpe_search net log name = Some (pre ++ item :: post) →
  Forall (λ item', ¬ candidate_ok (Py.lower name) item') pre →
  candidate_ok (Py.lower name) item →
  cpeName item = Some cpe23 →
  length (Py.split_colon cpe23) = 13 →
  Py.split_colon cpe23 !! 5 = Some version →
  version ≠ "" →
  guess_cpe_for_conan net name version log
  = (Some (Some cpe23), log ++ [GetCpeSearch name]).
Proof.
  intros Hsearch Hpre Hok Hname Hlen Hfield Hversion.
  rewrite guess_cpe_outcome, Hsearch, (cpe_best_app_first _ _ _ _ Hpre Hok), Hname.
  cbn [Py.or_empty].
  destruct (Py.split_colon cpe23) as [|p parts] eqn:Hsplit; [done|].
  rewrite <- Hsplit in *. by rewrite cpe_inject_exact.
Qed.

(** ** Lines of the Dockerfile *)

Section from_line_facts.

Implicit Types (s t p line base rest alias : string) (keep : ascii → bool).

Lemma span_split keep s :
  s = (span keep s).1 +:+ (span keep s).2
  ∧ all_chars keep (span keep s).1 = true
  ∧ starts_clean keep (span keep s).2.
Proof.
  induction s as [|c s (Hs & Hall & Hclean)]; [done|]. cbn [span].
  destruct (keep c) eqn:Hc; [|done].
  destruct (span keep s) as [taken rest]. simpl in *.
  by rewrite append_cons, <- Hs, Hc.
Qed.

Lemma span_unique keep s t :
  all_chars keep s = true → starts_clean keep t → span keep (s +:+ t) = (s, t).
Proof.
  intros Hs Ht. induction s as [|c s IH].
  - rewrite append_nil_l. destruct t as [|c t]; [done|]. simpl in *. by rewrite Ht.
  - cbn [all_chars] in Hs. apply andb_true_iff in Hs as [Hc Hs].
    rewrite append_cons. cbn [span]. by rewrite Hc, (IH Hs).
Qed.

Lemma strip_prefix_ci_Some p s t :
  strip_prefix_ci p s = Some t ↔ ∃ word, s = word +:+ t ∧ Py.lower word = p.
Proof.
  revert s. induction p as [|a p IH]; intros s.
  - cbn [strip_prefix_ci]. split.
    + intros [= <-]. by exists "".
    + intros ([|c word] & -> & Hword); [done|discriminate Hword].
  - destruct s as [|b s]; cbn [strip_prefix_ci].
    + split; [done|]. intros ([|c word] & Hs & Hword); [discriminate Hword|].
      by rewrite append_cons in Hs.
    + destruct (Ascii.eqb_spec a (Py.lower_char b)) as [->|Hne].
      * rewrite IH. split.
        -- intros (word & -> & <-). by exists (String b word).
        -- intros ([|c word] & Hs & Hword); [discriminate Hword|].
           rewrite append_cons in Hs. injection Hs as <- ->.
           exists word. split; [done|]. by injection Hword.
      * split; [done|]. intros ([|c word] & Hs & Hword); [discriminate Hword|].
        rewrite append_cons in Hs. injection Hs as <- ->.
        injection Hword as Hc _. by destruct Hne.
Qed.

Lemma skip_blanks_Some s t :
  skip_blanks s = Some t
  ↔ ∃ gap, s = gap +:+ t ∧ gap ≠ "" ∧ blanks gap ∧ starts_clean Py.is_space t.
Proof.
  unfold blanks. split.
  - destruct s as [|c s]; [done|]. cbn [skip_blanks].
    destruct (Py.is_space c) eqn:Hc; [|done]. intros [= <-].
    destruct (lstrip_by_split Py.is_space s) as (p & Hs & Hp & Hclean).
    exists (String c p). rewrite append_cons. unfold Py.lstrip. rewrite <- Hs.
    cbn [all_chars]. by rewrite Hc, Hp.
  - intros ([|c gap] & -> & Hne & Hgap & Hclean); [done|].
    cbn [all_chars] in Hgap. apply andb_true_iff in Hgap as [Hc Hgap].
    rewrite append_cons. cbn [skip_blanks]. rewrite Hc. unfold Py.lstrip.
    by rewrite lstrip_by_all, lstrip_by_clean.
Qed.

Lemma lower_char_not_space c :
  Py.is_space c = true → Py.is_space (Py.lower_char c) = true.
Proof. by destruct c as [[] [] [] [] [] [] [] []]. Qed.

Lemma name_char_not_space c : is_name_char c = true → Py.is_space c = false.
Proof. by destruct c as [[] [] [] [] [] [] [] []]. Qed.

(** A word that is a given one up to case, the given one starting with a
    letter, starts with no blank. *)
Lemma word_starts_clean word a p t :
  Py.lower word = String a p → Py.is_space a = false →
  starts_clean Py.is_space (word +:+ t).
Proof.
  destruct word as [|c word]; [done|]. intros [= <- _] Ha. simpl.
  destruct (Py.is_space c) eqn:Hc; [|done].
  by rewrite (lower_char_not_space c Hc) in Ha.
Qed.

Lemma not_space_starts_clean base t :
  base ≠ "" → all_chars not_space base = true →
  starts_clean Py.is_space (base +:+ t).
Proof.
  destruct base as [|c base]; [done|]. intros _. cbn [all_chars].
  intros [Hc _]%andb_true_iff. simpl. unfold not_space in Hc.
  by destruct (Py.is_space c).
Qed.

Lemma name_starts_clean alias t :
  alias ≠ "" → all_chars is_name_char alias = true →
  starts_clean Py.is_space (alias +:+ t).
Proof.
  destruct alias as [|c alias]; [done|]. intros _. cbn [all_chars].
  intros [Hc _]%andb_true_iff. simpl. by apply name_char_not_space.
Qed.

Lemma stage_alias_shape rest alias :
  stage_alias rest = Some alias ↔ alias_shape rest alias.
Proof.
  unfold stage_alias, alias_shape. split.
  - destruct (skip_blanks rest) as [r1|] eqn:H1; [|done]. cbn [mbind option_bind].
    destruct (strip_prefix_ci "as" r1) as [r2|] eqn:H2; [|done]. cbn [mbind option_bind].
    destruct (skip_blanks r2) as [r3|] eqn:H3; [|done]. cbn [mbind option_bind].
    case_bool_decide as Hname; [done|]. intros [= <-].
    apply skip_blanks_Some in H1 as (gap1 & -> & ? & ? & _).
    apply strip_prefix_ci_Some in H2 as (word & -> & ?).
    apply skip_blanks_Some in H3 as (gap2 & -> & ? & ? & _).
    destruct (span_split is_name_char r3) as (Hr3 & ? & ?).
    exists gap1, word, gap2, (span is_name_char r3).2. by rewrite <- Hr3.
  - intros (gap1 & word & gap2 & tail & -> & ? & ? & Hword & ? & ? & ? & ? & ?).
    assert (skip_blanks (gap1 +:+ word +:+ gap2 +:+ alias +:+ tail)
            = Some (word +:+ gap2 +:+ alias +:+ tail)) as ->.
    { apply skip_blanks_Some. exists gap1. repeat (split; [done|]).
      by eapply word_starts_clean. }
    cbn [mbind option_bind].
    assert (strip_prefix_ci "as" (word +:+ gap2 +:+ alias +:+ tail)
            = Some (gap2 +:+ alias +:+ tail)) as ->.
    { apply strip_prefix_ci_Some. by exists word. }
    cbn [mbind option_bind].
    assert (skip_blanks (gap2 +:+ alias +:+ tail) = Some (alias +:+ tail)) as ->.
    { apply skip_blanks_Some. exists gap2. repeat (split; [done|]).
      by apply name_starts_clean. }
    cbn [mbind option_bind]. rewrite span_unique by done. simpl.
    by rewrite bool_decide_eq_false_2.
Qed.

Lemma from_match_shape line base (alias : option string) :
  from_match line = Some (base, alias)
  ↔ ∃ rest, from_shape line base rest ∧ alias = stage_alias rest.
Proof.
  unfold from_match, from_shape. split.
  - destruct (strip_prefix_ci "from" (Py.lstrip line)) as [r1|] eqn:H1; [|done].
    cbn [mbind option_bind].
    destruct (skip_blanks r1) as [r2|] eqn:H2; [|done]. cbn [mbind option_bind].
    destruct (span_split not_space r2) as (Hr2 & ? & ?).
    destruct (span not_space r2) as [b rest]. cbn [fst snd] in *.
    case_bool_decide as Hbase; [done|]. intros [= <- <-].
    destruct (lstrip_by_split Py.is_space line) as (indent & Hline & ? & _).
    apply strip_prefix_ci_Some in H1 as (word & Hword & ?).
    apply skip_blanks_Some in H2 as (gap & -> & ? & ? & _).
    exists rest. split; [|done]. exists indent, word, gap.
    split; [|done]. rewrite Hline. unfold Py.lstrip in Hword. by rewrite Hword, Hr2.
  - intros (rest & (indent & word & gap & -> & ? & Hword & ? & ? & ? & ? & ?) & ->).
    assert (Py.lstrip (indent +:+ word +:+ gap +:+ base +:+ rest)
            = word +:+ gap +:+ base +:+ rest) as ->.
    { unfold Py.lstrip. rewrite lstrip_by_all by done. apply lstrip_by_clean.
      by eapply word_starts_clean. }
    assert (strip_prefix_ci "from" (word +:+ gap +:+ base +:+ rest)
            = Some (gap +:+ base +:+ rest)) as ->.
    { apply strip_prefix_ci_Some. by exists word. }
    cbn [mbind option_bind].
    assert (skip_blanks (gap +:+ base +:+ rest) = Some (base +:+ rest)) as ->.
    { apply skip_blanks_Some. exists gap. repeat (split; [done|]).
      by apply not_space_starts_clean. }
    cbn [mbind option_bind]. rewrite span_unique by done.
    by rewrite bool_decide_eq_false_2.
Qed.

End from_line_facts.

(** X27. The pattern of [_parse_dockerfile_stages] accepts a line exactly
    when it reads: blanks, the word FROM in any case, at least one blank,
    and an image; the image is the text up to the next blank, whatever it
    is.  The stage has an alias exactly when the image is followed by at
    least one blank, the word AS in any case, at least one blank and a
    name; the alias is that name up to the first character that is no
    letter, digit, dot, underscore or dash. *)
Theorem from_line_shape (line base rest : string) (alias : option string) (name : string) :
  (from_match line = Some (base, alias)
   ↔ ∃ rest', from_shape line base rest' ∧ alias = stage_alias rest')
  ∧ (stage_alias rest = Some name ↔ alias_shape rest name).
Proof. split; [apply from_match_shape|apply stage_alias_shape]. Qed.

(** ** Stages of the Dockerfile *)

Section stage_facts.

Implicit Types (lines pre post body : list string) (line : string)
  (stages : list DockerStage) (st : DockerStage)
  (blocks : list (string * list string)).

Lemma body_text_snoc body line :
  body_text (body ++ [line]) = body_text body +:+ line +:+ newline.
Proof.
  induction body as [|l body IH]; simpl.
  - by rewrite append_nil_r.
  - by rewrite IH, !append_assoc.
Qed.

(** What the loop has in [stages] and [cur] after [lines]. *)
Lemma stage_lines_inv lines :
  match foldl stage_line ([], None) lines with
  | (stages, None) => stages = [] ∧ Forall no_from lines
  | (stages, Some st) =>
      ∃ pre blocks l body,
        lines = pre ++ mjoin (block_lines <$> blocks) ++ l :: body
        ∧ Forall no_from pre
        ∧ Forall2 (λ ib st', stage_of_block ib.1 ib.2 st') (imap pair blocks) stages
        ∧ stage_of_block (length blocks) (l, body) st
  end.
Proof.
  induction lines as [|line lines IH] using rev_ind; [done|].
  rewrite foldl_app. cbn [foldl].
  destruct (foldl stage_line ([], None) lines) as [stages cur].
  unfold stage_line. destruct (from_match line) as [[base alias]|] eqn:Hline.
  - destruct cur as [st|].
    + destruct IH as (pre & blocks & l & body & -> & Hpre & Hstages & Hst).
      exists pre, (blocks ++ [(l, body)]), line, []. split; [|split; [done|split]].
      * rewrite fmap_app, join_app. simpl. rewrite app_nil_r.
        by rewrite <- !app_assoc.
      * rewrite imap_app. apply Forall2_app; [done|]. simpl.
        rewrite Nat.add_0_r. by repeat constructor.
      * exists base, alias. simpl. split; [done|]. split; [done|].
        apply Forall2_length in Hstages. rewrite length_imap in Hstages.
        rewrite !length_app, Hstages. done.
    + destruct IH as [-> Hlines]. exists lines, [], line, []. simpl.
      split; [done|]. split; [done|]. split; [constructor|].
      exists base, alias. by repeat split.
  - destruct cur as [st|].
    + destruct IH as (pre & blocks & l & body & -> & Hpre & Hstages & Hst).
      exists pre, blocks, l, (body ++ [line]). split; [|split; [done|split; [done|]]].
      * by rewrite <- !app_assoc.
      * destruct Hst as (base & alias & Hl & Hbody & Hname & Hbase & Heco & Htext).
        exists base, alias. simpl in *. split; [done|].
        split; [apply Forall_app; by repeat constructor|].
        repeat (split; [done|]). by rewrite body_text_snoc, Htext.
    + destruct IH as [-> Hlines]. split; [done|].
      apply Forall_app. by repeat constructor.
Qed.

(** Lines that are no [FROM] lines leave the open stage open, with its
    image. *)
Lemma stage_lines_no_from post stages st :
  Forall no_from post →
  ∃ st', foldl stage_line (stages, Some st) post = (stages, Some st')
         ∧ ds_base st' = ds_base st ∧ ds_ecosystem st' = ds_ecosystem st.
Proof.
  intros Hpost. revert st. induction Hpost as [|line post Hline _ IH]; intros st.
  - by exists st.
  - cbn [foldl]. unfold stage_line at 2. rewrite Hline.
    destruct (IH (mkDockerStage (ds_name st) (ds_base st) (ds_ecosystem st)
                    (ds_body st +:+ line +:+ newline))) as (st' & -> & ? & ?).
    by exists st'.
Qed.

Lemma parse_stages_last lines pre line post base alias :
  lines = pre ++ line :: post →
  from_match line = Some (base, alias) →
  Forall no_from post →
  ∃ stages st, (let '(stages, cur) := foldl stage_line ([], None) lines in
                push_stage stages cur) = stages ++ [st]
               ∧ ds_base st = base
               ∧ ds_ecosystem st = _ecosystem_from_base (Some base).
Proof.
  intros -> Hline Hpost. rewrite foldl_app. cbn [foldl].
  destruct (foldl stage_line ([], None) pre) as [stages cur].
  unfold stage_line at 2. rewrite Hline.
  edestruct (stage_lines_no_from post) as (st' & -> & Hbase & Heco); [done|].
  eexists _, st'. split; [done|]. by rewrite Hbase, Heco.
Qed.

End stage_facts.

(** X28. [_parse_dockerfile_stages] cuts the lines of the text at its
    [FROM] lines: the lines before the first one belong to no stage, and
    every [FROM] line opens one stage, in the order of the text.  The
    stage has the image of that line, the ecosystem that
    [_ecosystem_from_base] gives for the image, as name the alias of the
    line or else ["stage"] and the number of the stage counted from zero,
    and as body the lines up to the next [FROM] line, each with a
    new-line after it. *)
Theorem dockerfile_stages_blocks (text : string) :
  ∃ pre blocks,
    splitlines text = pre ++ mjoin (block_lines <$> blocks)
    ∧ Forall no_from pre
    ∧ Forall2 (λ ib st, stage_of_block ib.1 ib.2 st)
        (imap pair blocks) (_parse_dockerfile_stages text).
Proof.
  unfold _parse_dockerfile_stages.
  pose proof (stage_lines_inv (splitlines text)) as Hinv.
  destruct (foldl stage_line ([], None) (splitlines text)) as [stages [st|]].
  - destruct Hinv as (pre & blocks & l & body & -> & Hpre & Hstages & Hst).
    exists pre, (blocks ++ [(l, body)]). split; [|split; [done|]].
    + rewrite fmap_app, join_app. simpl. by rewrite app_nil_r.
    + simpl. rewrite imap_app. apply Forall2_app; [done|]. simpl.
      rewrite Nat.add_0_r. by repeat constructor.
  - destruct Hinv as [-> Hlines]. exists (splitlines text), [].
    simpl. rewrite app_nil_r. split; [done|]. split; [done|constructor].
Qed.

(** X29. The ecosystem of a checker is the one given to it when one is
    given.  Otherwise it is decided by the last [FROM] line of the
    Dockerfile alone: it is what [_ecosystem_from_base] gives for the
    image of that line.  Without a [FROM] line, without a Dockerfile, or
    when the file cannot be read, there is no ecosystem and no stage. *)
Theorem init_ecosystem_last_from (ecosystem : option string) (txt : string) :
  (Py.truthy ecosystem = true → ∀ dockerfile,
     init_ecosystem ecosystem dockerfile = ecosystem)
  ∧ (Py.truthy ecosystem = false →
     (∀ pre line post base alias,
        splitlines txt = pre ++ line :: post →
        from_match line = Some (base, alias) →
        Forall no_from post →
        init_ecosystem ecosystem (Some (Some txt)) = _ecosystem_from_base (Some base))
     ∧ (Forall no_from (splitlines txt) →
        init_ecosystem ecosystem (Some (Some txt)) = None
        ∧ _infer_ecosystem_from_dockerfile (Some (Some txt)) = (None, []))
     ∧ init_ecosystem ecosystem None = None
     ∧ init_ecosystem ecosystem (Some None) = None).
Proof.
  unfold init_ecosystem. split; [by intros ->|]. intros ->.
  split; [|split; [|done]].
  - intros pre line post base alias Hlines Hline Hpost.
    destruct (parse_stages_last _ _ _ _ _ _ Hlines Hline Hpost)
      as (stages & st & Hparse & _ & Heco).
    unfold _infer_ecosystem_from_dockerfile, _parse_dockerfile_stages.
    destruct (foldl stage_line ([], None) (splitlines txt)) as [stages' cur].
    rewrite Hparse, last_snoc. done.
  - intros Hlines. unfold _infer_ecosystem_from_dockerfile, _parse_dockerfile_stages.
    pose proof (stage_lines_inv (splitlines txt)) as Hinv.
    destruct (foldl stage_line ([], None) (splitlines txt)) as [stages [st|]].
    + destruct Hinv as (pre & blocks & l & body & Heq & _ & _ & Hst).
      destruct Hst as (base & alias & Hl & _). simpl in Hl.
      rewrite Heq in Hlines. rewrite !Forall_app, Forall_cons in Hlines.
      destruct Hlines as (_ & _ & Hno & _). unfold no_from in Hno. congruence.
    + by destruct Hinv as [-> _].
Qed.

(** ** Git submodules *)

Section submodule_facts.

Implicit Types (lines told : list string) (raw name path commit : string)
  (subs before : list (string * DepInfo)) (info : DepInfo).

Lemma header_no_url raw : submodule_header raw → ¬ url_line raw.
Proof.
  unfold submodule_header, url_line. destruct (Py.strip raw) as [|c s]; [done|].
  cbn [Py.startswith]. destruct (Ascii.eqb_spec "[" c) as [<-|]; [|done]. done.
Qed.

Lemma current_at_prefix lines post n name :
  n ≤ length lines → current_at (lines ++ post) n name ↔ current_at lines n name.
Proof.
  intros Hn. unfold current_at. split.
  - intros (i & head & Hi & Hhead & Hheader & Hname & Hbetween).
    exists i, head. rewrite lookup_app_l in Hhead by lia.
    repeat (split; [done|]). intros k raw Hk Hraw.
    apply (Hbetween k raw Hk). by rewrite lookup_app_l by lia.
  - intros (i & head & Hi & Hhead & Hheader & Hname & Hbetween).
    exists i, head. rewrite lookup_app_l by lia.
    repeat (split; [done|]). intros k raw Hk Hraw.
    apply (Hbetween k raw Hk). by rewrite lookup_app_l in Hraw by lia.
Qed.

Lemma current_at_S lines n raw name :
  lines !! n = Some raw →
  current_at lines (S n) name
  ↔ (submodule_header raw ∧ quoted (Py.strip raw) = Some name)
    ∨ (¬ submodule_header raw ∧ current_at lines n name).
Proof.
  intros Hraw. unfold current_at. split.
  - intros (i & head & Hi & Hhead & Hheader & Hname & Hbetween).
    destruct (decide (i = n)) as [->|Hne].
    + left. by simplify_eq.
    + right. split; [apply (Hbetween n raw); [lia|done]|].
      exists i, head. split; [lia|]. repeat (split; [done|]).
      intros k raw' Hk. apply Hbetween. lia.
  - intros [[Hheader Hname]|[Hheader (i & head & Hi & Hhead & Hh & Hname & Hbetween)]].
    + exists n, raw. split; [lia|]. repeat (split; [done|]). intros k raw' Hk. lia.
    + exists i, head. split; [lia|]. repeat (split; [done|]).
      intros k raw' Hk Hraw'. destruct (decide (k = n)) as [->|Hne].
      * by simplify_eq.
      * apply (Hbetween k raw'); [lia|done].
Qed.

Lemma current_at_unique lines n name name' :
  current_at lines n name → current_at lines n name' → name = name'.
Proof.
  intros (i & head & Hi & Hhead & Hheader & Hname & Hbetween)
         (i' & head' & Hi' & Hhead' & Hheader' & Hname' & Hbetween').
  destruct (decide (i = i')) as [->|Hne]; [by simplify_eq|].
  destruct (decide (i < i')).
  - destruct (Hbetween i' head'); [lia|done|done].
  - destruct (Hbetween' i head); [lia|done|done].
Qed.

Lemma declared_snoc lines raw name :
  declared (lines ++ [raw]) name
  ↔ declared lines name ∨ (url_line raw ∧ current_at lines (length lines) name).
Proof.
  unfold declared. split.
  - intros (j & raw' & Hraw' & Hurl & Hcurrent).
    destruct (decide (j < length lines)) as [Hlt|Hge].
    + left. exists j, raw'. rewrite lookup_app_l in Hraw' by done.
      by rewrite current_at_prefix in Hcurrent by lia.
    + assert (j = length lines) as ->.
      { apply lookup_lt_Some in Hraw'. rewrite length_app in Hraw'. simpl in Hraw'. lia. }
      right. rewrite list_lookup_middle in Hraw' by done. simplify_eq.
      by rewrite current_at_prefix in Hcurrent by lia.
  - intros [(j & raw' & Hraw' & Hurl & Hcurrent)|[Hurl Hcurrent]].
    + exists j, raw'. pose proof (lookup_lt_Some _ _ _ Hraw') as Hlt.
      rewrite lookup_app_l by done. by rewrite current_at_prefix by lia.
    + exists (length lines), raw. rewrite list_lookup_middle by done.
      by rewrite current_at_prefix by lia.
Qed.

(** What the first loop has in [current_submodule] and in the
    dependencies after [lines]. *)
Lemma gitmodules_lines_inv lines before :
  NoDup before.*1 →
  let state := foldl gitmodules_line (None, before) lines in
  (∀ name, state.1 = Some name ↔ current_at lines (length lines) name)
  ∧ NoDup state.2.*1
  ∧ ∀ name info,
      (name, info) ∈ state.2
      ↔ (declared lines name ∧ info = mkDep None None)
        ∨ (¬ declared lines name ∧ (name, info) ∈ before).
Proof.
  intros Hbefore. induction lines as [|raw lines IH] using rev_ind.
  - simpl. split; [|split; [done|]].
    + intros name. split; [done|]. intros (i & _ & Hi & _). lia.
    + intros name info. split.
      * intros Hin. right. split; [|done]. by intros (j & raw & Hraw & _).
      * by intros [[(j & raw & Hraw & _) _]|[_ Hin]].
  - cbv zeta in *. rewrite foldl_app. cbn [foldl].
    destruct (foldl gitmodules_line (None, before) lines) as [cur subs].
    destruct IH as (IHcur & IHnodup & IHsubs). cbn [fst snd] in IHcur, IHnodup, IHsubs.
    rewrite length_app. cbn [length]. rewrite Nat.add_1_r.
    assert (∀ name, current_at (lines ++ [raw]) (S (length lines)) name
                    ↔ (submodule_header raw ∧ quoted (Py.strip raw) = Some name)
                      ∨ (¬ submodule_header raw ∧ cur = Some name)) as Hcur.
    { intros name.
      rewrite (current_at_S (lines ++ [raw]) (length lines) raw)
        by (by apply list_lookup_middle).
      rewrite current_at_prefix by lia. by rewrite IHcur. }
    assert (∀ name, declared (lines ++ [raw]) name
                    ↔ declared lines name ∨ (url_line raw ∧ cur = Some name)) as Hdecl.
    { intros name. by rewrite declared_snoc, IHcur. }
    unfold gitmodules_line.
    destruct (Py.startswith "[submodule" (Py.strip raw)) eqn:Hheader.
    { cbn [fst snd]. split; [|split; [done|]].
      - intros name. rewrite Hcur. unfold submodule_header. rewrite Hheader. naive_solver.
      - intros name info. rewrite IHsubs, Hdecl.
        pose proof (header_no_url raw Hheader). naive_solver. }
    assert (¬ submodule_header raw) as Hno.
    { unfold submodule_header. by rewrite Hheader. }
    destruct (Py.startswith "url =" (Py.strip raw)) eqn:Hurl.
    + destruct cur as [current|]; cbn [fst snd].
      * split; [intros name; rewrite Hcur; naive_solver|].
        split; [by apply dict_set_NoDup|]. intros name info.
        rewrite dict_set_elem by done. rewrite IHsubs, Hdecl.
        unfold url_line. rewrite Hurl.
        destruct (decide (name = current)) as [->|Hne]; naive_solver.
      * split; [intros name; rewrite Hcur; naive_solver|]. split; [done|].
        intros name info. rewrite IHsubs, Hdecl. naive_solver.
    + cbn [fst snd]. split; [intros name; rewrite Hcur; naive_solver|].
      split; [done|]. intros name info. rewrite IHsubs, Hdecl.
      unfold url_line. rewrite Hurl. naive_solver.
Qed.

Lemma set_commit_keys key commit subs : (set_commit key commit subs).*1 = subs.*1.
Proof.
  induction subs as [|[k info] subs IH]; [done|]. cbn [set_commit].
  case_bool_decide; [done|]. by rewrite !fmap_cons, IH.
Qed.

Lemma set_commit_elem key commit subs name info :
  NoDup subs.*1 →
  (name, info) ∈ set_commit key commit subs
  ↔ ∃ info0, (name, info0) ∈ subs
             ∧ info = if bool_decide (key = name)
                      then mkDep (dep_version info0) (Some commit) else info0.
Proof.
  induction subs as [|[k v] subs IH]; intros Hsubs.
  - simpl. split; [by intros ?%elem_of_nil|]. by intros (? & ?%elem_of_nil & _).
  - rewrite fmap_cons in Hsubs. apply NoDup_cons in Hsubs as [Hk Hsubs].
    specialize (IH Hsubs). cbn [set_commit]. cbn [fst] in Hk.
    destruct (decide (k = key)) as [->|Hkey].
    + rewrite (bool_decide_eq_true_2 (key = key)) by done. split.
      * intros [[= -> ->]|Hin]%elem_of_cons.
        -- exists v. split; [left|]. by rewrite bool_decide_eq_true_2.
        -- exists info. split; [by right|]. rewrite bool_decide_eq_false_2; [done|].
           intros ->. apply Hk. apply list_elem_of_fmap. by exists (name, info).
      * intros (info0 & [[= -> ->]|Hin]%elem_of_cons & ->).
        -- rewrite bool_decide_eq_true_2 by done. left.
        -- rewrite bool_decide_eq_false_2; [by right|].
           intros ->. apply Hk. apply list_elem_of_fmap. by exists (name, info0).
    + rewrite (bool_decide_eq_false_2 (k = key)) by done.
      rewrite elem_of_cons, IH. split.
      * intros [[= -> ->]|(info0 & Hin & ->)].
        -- exists v. split; [left|]. by rewrite bool_decide_eq_false_2.
        -- exists info0. split; [by right|done].
      * intros (info0 & [[= -> ->]|Hin]%elem_of_cons & ->).
        -- left. by rewrite bool_decide_eq_false_2.
        -- right. by exists info0.
Qed.

Lemma status_commit_snoc told raw path :
  status_commit (told ++ [raw]) path
  = match status_entry raw with
    | Some (p, commit) =>
        if bool_decide (p = path) then Some commit else status_commit told path
    | None => status_commit told path
    end.
Proof.
  unfold status_commit. rewrite omap_app. simpl.
  destruct (status_entry raw) as [[p commit]|]; simpl.
  - case_bool_decide; simpl; [by rewrite last_snoc|by rewrite app_nil_r].
  - by rewrite app_nil_r.
Qed.

Lemma with_status_snoc told raw name info :
  with_status (told ++ [raw]) name info
  = match status_entry raw with
    | Some (p, commit) =>
        if bool_decide (p = name) then mkDep (dep_version info) (Some commit)
        else with_status told name info
    | None => with_status told name info
    end.
Proof.
  unfold with_status. rewrite status_commit_snoc.
  destruct (status_entry raw) as [[p commit]|]; [|done]. by case_bool_decide.
Qed.

Lemma with_status_version told name info :
  dep_version (with_status told name info) = dep_version info.
Proof. unfold with_status. by destruct (status_commit told name). Qed.

(** What the second loop makes of the dependencies. *)
Lemma status_lines_inv told subs :
  NoDup subs.*1 →
  (foldl status_line subs told).*1 = subs.*1
  ∧ ∀ name info,
      (name, info) ∈ foldl status_line subs told
      ↔ ∃ info0, (name, info0) ∈ subs ∧ info = with_status told name info0.
Proof.
  intros Hsubs. induction told as [|raw told [IHkeys IH]] using rev_ind.
  - simpl. split; [done|]. intros name info. split.
    + intros Hin. by exists info.
    + by intros (info0 & Hin & ->).
  - rewrite foldl_app. cbn [foldl]. unfold status_line at 1 3.
    destruct (status_entry raw) as [[path commit]|] eqn:Hentry.
    + split; [by rewrite set_commit_keys|]. intros name info.
      rewrite set_commit_elem by (by rewrite IHkeys). split.
      * intros (info1 & (info0 & Hin & ->)%IH & ->). exists info0. split; [done|].
        rewrite with_status_snoc, Hentry. case_bool_decide; [|done].
        by rewrite with_status_version.
      * intros (info0 & Hin & ->). exists (with_status told name info0).
        split; [apply IH; by exists info0|].
        rewrite with_status_snoc, Hentry. case_bool_decide; [|done].
        by rewrite with_status_version.
    + split; [done|]. intros name info. rewrite IH.
      split; intros (info0 & Hin & ->); exists info0;
        by rewrite with_status_snoc, Hentry.
Qed.

End submodule_facts.

(** X30. [_collect_git_submodules], given the text of [.gitmodules] and the
    output of [git submodule status], records each name at most once.  A
    name is declared when a line that gives a url stands in the section
    of a header line that quotes the name; a declared name is recorded
    anew, without version and commit, and every other name keeps what was
    recorded before.  Then the commit of each recorded name is replaced by
    the commit of the last line of the status whose path is that name;
    names that the status does not know keep their entry, and the status
    adds no name.  Nothing else of the checker changes. *)
Theorem submodules_collected (content : string) (status : option string)
    (self : CVEChecker) :
  NoDup (submodules (dependencies self)).*1 →
  let self' := _collect_git_submodules (Some (Some content)) status self in
  let lines := split_lines content in
  let told := from_option split_lines [] status in
  NoDup (submodules (dependencies self')).*1
  ∧ (∀ name info,
       (name, info) ∈ submodules (dependencies self')
       ↔ ∃ info0,
           ((declared lines name ∧ info0 = mkDep None None)
            ∨ (¬ declared lines name ∧ (name, info0) ∈ submodules (dependencies self)))
           ∧ info = with_status told name info0)
  ∧ conan (dependencies self') = conan (dependencies self)
  ∧ system (dependencies self') = system (dependencies self)
  ∧ system_by_stage (dependencies self') = system_by_stage (dependencies self)
  ∧ offline self' = offline self
  ∧ ecosystem self' = ecosystem self
  ∧ vulnerabilities self' = vulnerabilities self.
Proof.
  intros Hbefore self' lines told.
  destruct (gitmodules_lines_inv lines _ Hbefore) as (_ & Hnodup & Hsubs).
  destruct (status_lines_inv told _ Hnodup) as [Hkeys Htold].
  assert (submodules (dependencies self')
          = foldl status_line
              (foldl gitmodules_line (None, submodules (dependencies self)) lines).2
              told) as Hsubs'.
  { subst self' told. unfold _collect_git_submodules. by destruct status. }
  split; [by rewrite Hsubs', Hkeys|]. split.
  - intros name info. rewrite Hsubs', Htold. by setoid_rewrite Hsubs.
  - subst self'. unfold _collect_git_submodules. by destruct status.
Qed.

(** ** The later properties at work on the sample data *)

Lemma ubuntu_id_translation_witness :
  cve_ids_of finding_vendor_id = ["CVE-2023-1255"].
Proof.
  apply (proj2 (ubuntu_id_translation finding_vendor_id "2023-1255")).
  - reflexivity.
  - reflexivity.
  - exists "2023", "1255". by repeat split.
Defined.

Lemma enrich_only_unknown_witness :
  Forall fresh [finding_first; finding_no_id]
  ∧ ∃ items' log',
      _enrich_osv_with_nvd net_sample [finding_first; finding_no_id] []
      = (Some items', log')
      ∧ Forall2 (λ f f', _severity_of f ≠ "UNKNOWN" → f' = f)
          [finding_first; finding_no_id] items'.
Proof.
  assert (Forall fresh [finding_first; finding_no_id]) as Hfresh.
  { apply Forall_cons; split; [by left|].
    apply Forall_cons; split; [by left|]. constructor. }
  split; [exact Hfresh|].
  exact (enrich_only_unknown net_sample [finding_first; finding_no_id] [] Hfresh).
Defined.

Lemma guess_cpe_exact_product_witness :
  guess_cpe_for_conan net_zlib_exact "zlib" "1.2.13" []
  = (Some (Some "cpe:2.3:a:zlib:zlib:1.2.13:*:*:*:*:*:*:*"), [GetCpeSearch "zlib"]).
Proof.
  apply (guess_cpe_exact_product net_zlib_exact "zlib" "1.2.13" []
           [mkProduct None] []
           (mkProduct (Some "cpe:2.3:a:zlib:zlib:1.2.13:*:*:*:*:*:*:*"))).
  - reflexivity.
  - apply Forall_cons. split; [|constructor]. by intros (cpe23 & [=] & _).
  - eexists. split; [reflexivity|]. split; [done|]. by vm_compute.
  - reflexivity.
  - by vm_compute.
  - by vm_compute.
  - done.
Defined.

Lemma conan_manifest_requirements_witness :
  NoDup (conan (dependencies checker_online)).*1
  ∧ let self' := _collect_conan_dependencies (Some manifest_sample) checker_online in
    NoDup (conan (dependencies self')).*1
    ∧ (∀ name info,
         (name, info) ∈ conan (dependencies self')
         ↔ recorded (split_lines manifest_sample)
             (conan (dependencies checker_online)) name info)
    ∧ system (dependencies self') = system (dependencies checker_online)
    ∧ submodules (dependencies self') = submodules (dependencies checker_online)
    ∧ system_by_stage (dependencies self') = system_by_stage (dependencies checker_online)
    ∧ offline self' = offline checker_online
    ∧ ecosystem self' = ecosystem checker_online
    ∧ vulnerabilities self' = vulnerabilities checker_online.
Proof.
  assert (NoDup (conan (dependencies checker_online)).*1) as Hbefore.
  { simpl. apply NoDup_singleton. }
  split; [exact Hbefore|].
  exact (conan_manifest_requirements manifest_sample checker_online Hbefore).
Defined.

Lemma init_ecosystem_last_from_witness :
  init_ecosystem None (Some (Some dockerfile_sample)) = Some "Alpine".
Proof.
  apply (proj1 (proj2 (init_ecosystem_last_from None dockerfile_sample) eq_refl)
           ["# syntax"; "FROM ubuntu:24.04 AS builder"; "RUN apt-get install -y cmake"]
           "from alpine:3.19"
           ["COPY --from=builder /app /app"]
           "alpine:3.19" None).
  - by vm_compute.
  - by vm_compute.
  - apply Forall_cons. split; [by vm_compute|constructor].
Defined.

Lemma submodules_collected_witness :
  NoDup (submodules (dependencies checker_online)).*1
  ∧ let self' := _collect_git_submodules (Some (Some gitmodules_sample))
                   (Some status_sample) checker_online in
    let lines := split_lines gitmodules_sample in
    let told := split_lines status_sample in
    NoDup (submodules (dependencies self')).*1
    ∧ (∀ name info,
         (name, info) ∈ submodules (dependencies self')
         ↔ ∃ info0,
             ((declared lines name ∧ info0 = mkDep None None)
              ∨ (¬ declared lines name
                 ∧ (name, info0) ∈ submodules (dependencies checker_online)))
             ∧ info = with_status told name info0)
    ∧ conan (dependencies self') = conan (dependencies checker_online)
    ∧ system (dependencies self') = system (dependencies checker_online)
    ∧ system_by_stage (dependencies self') = system_by_stage (dependencies checker_online)
    ∧ offline self' = offline checker_online
    ∧ ecosystem self' = ecosystem checker_online
    ∧ vulnerabilities self' = vulnerabilities checker_online.
Proof.
  assert (NoDup (submodules (dependencies checker_online)).*1) as Hbefore.
  { simpl. apply NoDup_cons. split; [|apply NoDup_singleton].
    by intros [=]%list_elem_of_singleton. }
  split; [exact Hbefore|].
  exact (submodules_collected gitmodules_sample (Some status_sample)
           checker_online Hbefore).
Defined.
